(** * Decision criteria engine and results analyzer

    A shallow embedding of [decision-criteria.js], [results-analyzer.js],
    the [DecisionMatrix] class they consume, and the part of
    [script-refactored.js] that runs the criteria and feeds the analyzer.

    - JavaScript numbers that hold payoffs, scores and percentages are IEEE
      binary64 values: Rocq's primitive [float], with the JavaScript
      operators written out on top of it.
    - Array lengths and frequency counts are integers far below 2^53 (a
      JavaScript array holds fewer than 2^32 elements), where binary64
      arithmetic is exact: they are [nat] and [Z].
    - A method that can throw returns a [completion]; the analyzer's methods
      thread their receiver through a state monad.
    - The formula strings of the audit trace are display text and are not
      built; what is kept of them is the place where building them throws
      ([join] or [toFixed] on [undefined]). *)

From Stdlib Require Import Floats ZArith List String Ascii Bool Lia.
From Stdlib Require Import Permutation Sorted.
From Stdlib Require DecimalString.
Import ListNotations.

(* ================================================================== *)
(** * The JavaScript fragment the sources rely on *)
(* ================================================================== *)

Module JS.

(** ** Abrupt completions *)

Inductive exception : Type :=
| TypeError
| Error (message : string).

Inductive completion (A : Type) : Type :=
| Normal (value : A)
| Throw (e : exception).

Arguments Normal {A} value.
Arguments Throw {A} e.

Definition bind {A B : Type} (c : completion A) (k : A -> completion B)
  : completion B :=
  match c with
  | Normal a => k a
  | Throw e => Throw e
  end.

Definition throws {A : Type} (c : completion A) : Prop :=
  exists e, c = Throw e.

(** [for (let i = 0; i < n; i++) { ...; out.push(v) }]: the body runs for
    i = 0, 1, ... in order and the first throw ends the loop. *)
Fixpoint collect {A B : Type} (body : A -> completion B) (indices : list A)
  : completion (list B) :=
  match indices with
  | [] => Normal []
  | i :: rest =>
      bind (body i) (fun v =>
      bind (collect body rest) (fun vs => Normal (v :: vs)))
  end.

Definition for_push {B : Type} (n : nat) (body : nat -> completion B)
  : completion (list B) :=
  collect body (seq 0 n).

(** [for (...) { acc = step(acc, i) }] where the body may throw. *)
Fixpoint for_fold {A Acc : Type} (body : Acc -> A -> completion Acc)
  (indices : list A) (acc : Acc) : completion Acc :=
  match indices with
  | [] => Normal acc
  | i :: rest => bind (body acc i) (for_fold body rest)
  end.

(** ** Numbers *)

Definition number : Type := float.

(** [x === y] on numbers: [NaN] differs from itself, [+0 === -0]. *)
Definition strict_equals (x y : number) : bool := (x =? y)%float.

(** [x > y], [x >= y] and [x <= y]. *)
Definition gt (x y : number) : bool := (y <? x)%float.
Definition ge (x y : number) : bool := (y <=? x)%float.
Definition le (x y : number) : bool := (x <=? y)%float.

(** Reading past the end of an array yields [undefined], which arithmetic
    and [Math.min]/[Math.max] turn into [NaN]. *)
Definition ToNumber (v : option number) : number :=
  match v with
  | Some x => x
  | None => nan
  end.

(** A number is falsy when it is [+0], [-0] or [NaN]. *)
Definition truthy_number (x : number) : bool :=
  negb (is_zero x || is_nan x).

Definition is_pos_zero (x : number) : bool :=
  match classify x with PZero => true | _ => false end.

Definition is_neg_zero (x : number) : bool :=
  match classify x with NZero => true | _ => false end.

(** [Math.max(...args)]: [-Infinity] for no argument, [NaN] as soon as one
    argument is [NaN], and [+0] is larger than [-0]. *)
Fixpoint max_from (highest : number) (args : list number) : number :=
  match args with
  | [] => highest
  | x :: rest =>
      if is_nan x then nan
      else max_from
             (if is_pos_zero x && is_neg_zero highest then x
              else if (highest <? x)%float then x else highest)
             rest
  end.

Definition Math_max (args : list number) : number :=
  max_from neg_infinity args.

(** [Math.min(...args)]: [+Infinity] for no argument. *)
Fixpoint min_from (lowest : number) (args : list number) : number :=
  match args with
  | [] => lowest
  | x :: rest =>
      if is_nan x then nan
      else min_from
             (if is_neg_zero x && is_pos_zero lowest then x
              else if (x <? lowest)%float then x else lowest)
             rest
  end.

Definition Math_min (args : list number) : number :=
  min_from infinity args.

(** [Array.prototype.indexOf] on an array of numbers: the first index whose
    element is [===] to the searched value, [-1] when there is none. *)
Fixpoint indexOf_from (k : Z) (l : list number) (x : number) : Z :=
  match l with
  | [] => (-1)%Z
  | y :: rest =>
      if strict_equals y x then k else indexOf_from (k + 1)%Z rest x
  end.

Definition indexOf (l : list number) (x : number) : Z :=
  indexOf_from 0%Z l x.

(** [a[i]] for a number [i] that may be [-1]. *)
Definition get {A : Type} (a : list A) (i : Z) : option A :=
  if (i <? 0)%Z then None else nth_error a (Z.to_nat i).

(** An integer below 2^53 as a number. *)
Definition of_Z (z : Z) : number :=
  match z with
  | Z0 => PrimFloat.zero
  | Zpos _ => of_uint63 (Uint63.of_Z z)
  | Zneg p => (- of_uint63 (Uint63.of_Z (Zpos p)))%float
  end.

Definition of_nat (n : nat) : number := of_Z (Z.of_nat n).

(** [Math.round(x)]: the nearest integer, a tie going towards [+Infinity];
    the sign of a zero result is the sign of [x].  [floor (x + 1/2)] is
    computed exactly on the mantissa and exponent of [x]. *)
Definition Math_round (x : number) : number :=
  match Prim2SF x with
  | S754_finite s m e =>
      if (0 <=? e)%Z then x
      else
        let twice := (if s then Zneg (m~0) else Zpos (m~0)) in
        let k := Z.shiftr (twice + Z.shiftl 1 (- e))%Z (1 - e)%Z in
        if (k =? 0)%Z
        then (if s then PrimFloat.neg_zero else PrimFloat.zero)
        else of_Z k
  | _ => x
  end.

(** ** Strings *)

(** [s || other] and [if (s)]: the empty string is falsy. *)
Definition truthy_string (s : string) : bool :=
  negb (String.eqb s EmptyString).

Definition lower_ascii (c : ascii) : ascii :=
  let n := nat_of_ascii c in
  if (65 <=? n)%nat && (n <=? 90)%nat then ascii_of_nat (n + 32) else c.

(** [s.toLowerCase()] on the ASCII letters.  No character outside ASCII
    lower-cases to a letter of the six criterion identifiers. *)
Fixpoint toLowerCase (s : string) : string :=
  match s with
  | EmptyString => EmptyString
  | String c rest => String (lower_ascii c) (toLowerCase rest)
  end.

End JS.

Export JS.

(** One sequencing notation for the two effects of the sources: throwing
    (criteria, factory) and updating the receiver (analyzer). *)
Class Monad (M : Type -> Type) : Type :=
  { ret : forall {A : Type}, A -> M A;
    mbind : forall {A B : Type}, M A -> (A -> M B) -> M B }.

#[export] Instance completion_monad : Monad completion :=
  { ret := fun A a => Normal a;
    mbind := fun A B c k => JS.bind c k }.

Notation "x <- c ;; k" := (mbind c (fun x => k))
  (at level 61, c at next level, right associativity).
Notation "c ;;; k" := (mbind c (fun _ => k))
  (at level 61, right associativity).

(* ================================================================== *)
(** * DecisionMatrix *)
(* ================================================================== *)

Module DecisionMatrix.

(** The fields of the class.  [data] is an array of rows; nothing forces a
    row to hold [statesCount] cells or [data] to hold [strategiesCount]
    rows.  A hole in a row reads as [undefined] and behaves as a [NaN] cell
    in every numeric operation below; [validate] alone tells the two apart
    and is given for rows whose cells are all present. *)
Record t : Type :=
  { strategiesCount : nat;
    statesCount : nat;
    data : list (list number);
    strategies : list string;
    states : list string }.

(** [this.data[i]] exists. *)
Definition has_row (this : t) (i : nat) : bool :=
  match nth_error (data this) i with
  | Some _ => true
  | None => false
  end.

(** [if (!this.data[rowIndex]) return 0;
     return Math.min(...this.data[rowIndex])] *)
Definition getRowMin (this : t) (rowIndex : nat) : number :=
  match nth_error (data this) rowIndex with
  | None => 0%float
  | Some row => Math_min row
  end.

Definition getRowMax (this : t) (rowIndex : nat) : number :=
  match nth_error (data this) rowIndex with
  | None => 0%float
  | Some row => Math_max row
  end.

(** One turn of the loop of [getColumnMax]:
    [if (this.data[i] && this.data[i][colIndex] > max)
       max = this.data[i][colIndex]] *)
Definition column_step (this : t) (colIndex : nat) (max : number) (i : nat)
  : number :=
  match nth_error (data this) i with
  | None => max
  | Some row =>
      let v := ToNumber (nth_error row colIndex) in
      if gt v max then v else max
  end.

Definition getColumnMax (this : t) (colIndex : nat) : number :=
  let max :=
    fold_left (column_step this colIndex) (seq 0 (strategiesCount this))
      neg_infinity in
  if strict_equals max neg_infinity then 0%float else max.

(** [this.data.every(row => row && row.every(cell => !isNaN(cell) && ...))]
    on rows whose cells are all present.  [every] skips a hole, although
    the hole reads as [NaN] everywhere else: a row with a hole, such as
    [updateValue] leaves when it writes past the end of a row, is accepted
    by the method and is not one of the rows this function speaks of. *)
Definition validate (this : t) : bool :=
  forallb (fun row => forallb (fun cell => negb (is_nan cell)) row)
    (data this).

(** [loadExampleData]: four strategies and four states, over rows of five
    cells. *)
Definition loadExampleData : t :=
  {| strategiesCount := 4;
     statesCount := 4;
     data := [ [713; 839; 1007; 1133; 850];
               [857; 806; 974; 1100; 920];
               [1049; 998; 930; 1056; 880];
               [1193; 1142; 1074; 1023; 950] ]%float;
     strategies := ["Регион1"; "Регион2"; "Регион3"; "Регион4"]%string;
     states := ["Индикатор1"; "Индикатор2"; "Индикатор3"; "Индикатор4"]%string |}.

End DecisionMatrix.

(* ================================================================== *)
(** * The six criteria and their factory *)
(* ================================================================== *)

Module Criteria.

Import DecisionMatrix.

Inductive criterion_type : Type :=
| wald | maximax | savage | hurwitz | bayes | laplace.

(** What [formatResult] returns, without the display strings ([name],
    [description]) and the [calculations] trace. *)
Record CriterionResult : Type :=
  { values : list number;
    optimalIndex : Z;
    optimalValue : number;
    strategy : string;
    type : criterion_type }.

(** The sentinel of an undetermined recommendation. *)
Definition undetermined : string := "Не определено".

(** [name || 'Не определено'] for [name = matrix.strategies[strategyIndex]]. *)
Definition or_undetermined (name : option string) : string :=
  match name with
  | Some s => if truthy_string s then s else undetermined
  | None => undetermined
  end.

(** The instances of the six classes, with their constructor arguments.
    [BayesCriterion] keeps whatever it was given, [undefined] included. *)
Inductive Criterion : Type :=
| WaldCriterion
| MaximaxCriterion
| SavageCriterion
| HurwitzCriterion (alpha : number)
| BayesCriterion (probabilities : option (list number))
| LaplaceCriterion.

(** [matrix.data[i].join(', ')] inside a formula string: a [TypeError] when
    row [i] is [undefined]. *)
Definition join_row (matrix : t) (i : nat) : completion unit :=
  match nth_error (data matrix) i with
  | Some _ => Normal tt
  | None => Throw TypeError
  end.

(** [matrix.data[i][j]]: a [TypeError] when row [i] is [undefined],
    [undefined] when the row is too short. *)
Definition read_cell (matrix : t) (i j : nat) : completion (option number) :=
  match nth_error (data matrix) i with
  | Some row => Normal (nth_error row j)
  | None => Throw TypeError
  end.

(** [this.probabilities[j]]: a [TypeError] when [this.probabilities] is
    [undefined]. *)
Definition read_probability (probabilities : option (list number)) (j : nat)
  : completion (option number) :=
  match probabilities with
  | Some p => Normal (nth_error p j)
  | None => Throw TypeError
  end.

(** [v.toFixed(3)] inside a formula string: a [TypeError] on [undefined]. *)
Definition toFixed (v : option number) : completion unit :=
  match v with
  | Some _ => Normal tt
  | None => Throw TypeError
  end.

Definition calculate_wald (matrix : t) : completion CriterionResult :=
  values <- for_push (strategiesCount matrix) (fun i =>
              let minValue := getRowMin matrix i in
              join_row matrix i ;;;
              ret minValue) ;;
  let maxValue := Math_max values in
  let strategyIndex := indexOf values maxValue in
  ret {| values := values;
         optimalIndex := strategyIndex;
         optimalValue := maxValue;
         strategy := or_undetermined (get (strategies matrix) strategyIndex);
         type := wald |}.

Definition calculate_maximax (matrix : t) : completion CriterionResult :=
  values <- for_push (strategiesCount matrix) (fun i =>
              let maxValue := getRowMax matrix i in
              join_row matrix i ;;;
              ret maxValue) ;;
  let maxValue := Math_max values in
  let strategyIndex := indexOf values maxValue in
  ret {| values := values;
         optimalIndex := strategyIndex;
         optimalValue := maxValue;
         strategy := or_undetermined (get (strategies matrix) strategyIndex);
         type := maximax |}.

(** The inner loop of Savage for one strategy:
    [risk = maxByState[j] - matrix.data[i][j];
     if (risk > maxRisk) maxRisk = risk]. *)
Definition savage_step (matrix : t) (maxByState : list number) (i : nat)
  (maxRisk : number) (j : nat) : completion number :=
  cell <- read_cell matrix i j ;;
  let risk := (ToNumber (nth_error maxByState j) - ToNumber cell)%float in
  ret (if gt risk maxRisk then risk else maxRisk).

Definition calculate_savage (matrix : t) : completion CriterionResult :=
  let maxByState :=
    map (getColumnMax matrix) (seq 0 (statesCount matrix)) in
  riskValues <- for_push (strategiesCount matrix) (fun i =>
                  for_fold (savage_step matrix maxByState i)
                    (seq 0 (statesCount matrix)) neg_infinity) ;;
  let minRisk := Math_min riskValues in
  let strategyIndex := indexOf riskValues minRisk in
  ret {| values := riskValues;
         optimalIndex := strategyIndex;
         optimalValue := minRisk;
         strategy := or_undetermined (get (strategies matrix) strategyIndex);
         type := savage |}.

Definition calculate_hurwitz (alpha : number) (matrix : t)
  : completion CriterionResult :=
  values <- for_push (strategiesCount matrix) (fun i =>
              let minVal := getRowMin matrix i in
              let maxVal := getRowMax matrix i in
              let hurwitzValue :=
                (alpha * maxVal + (1 - alpha) * minVal)%float in
              ret hurwitzValue) ;;
  let maxValue := Math_max values in
  let strategyIndex := indexOf values maxValue in
  ret {| values := values;
         optimalIndex := strategyIndex;
         optimalValue := maxValue;
         strategy := or_undetermined (get (strategies matrix) strategyIndex);
         type := hurwitz |}.

(** The inner loop of Bayes for one strategy:
    [term = matrix.data[i][j] * this.probabilities[j]; expected += term],
    then the formula term with [this.probabilities[j].toFixed(3)]. *)
Definition bayes_step (probabilities : option (list number)) (matrix : t)
  (i : nat) (expected : number) (j : nat) : completion number :=
  cell <- read_cell matrix i j ;;
  p <- read_probability probabilities j ;;
  let term := (ToNumber cell * ToNumber p)%float in
  let expected := (expected + term)%float in
  toFixed p ;;;
  ret expected.

Definition calculate_bayes (probabilities : option (list number))
  (matrix : t) : completion CriterionResult :=
  values <- for_push (strategiesCount matrix) (fun i =>
              for_fold (bayes_step probabilities matrix i)
                (seq 0 (statesCount matrix)) 0%float) ;;
  let maxValue := Math_max values in
  let strategyIndex := indexOf values maxValue in
  ret {| values := values;
         optimalIndex := strategyIndex;
         optimalValue := maxValue;
         strategy := or_undetermined (get (strategies matrix) strategyIndex);
         type := bayes |}.

(** The inner loop of Laplace: [term = matrix.data[i][j] * laplaceProb]. *)
Definition laplace_step (laplaceProb : number) (matrix : t) (i : nat)
  (expected : number) (j : nat) : completion number :=
  cell <- read_cell matrix i j ;;
  let term := (ToNumber cell * laplaceProb)%float in
  let expected := (expected + term)%float in
  ret expected.

Definition calculate_laplace (matrix : t) : completion CriterionResult :=
  let laplaceProb := (1 / of_nat (statesCount matrix))%float in
  values <- for_push (strategiesCount matrix) (fun i =>
              for_fold (laplace_step laplaceProb matrix i)
                (seq 0 (statesCount matrix)) 0%float) ;;
  let maxValue := Math_max values in
  let strategyIndex := indexOf values maxValue in
  ret {| values := values;
         optimalIndex := strategyIndex;
         optimalValue := maxValue;
         strategy := or_undetermined (get (strategies matrix) strategyIndex);
         type := laplace |}.

(** Dynamic dispatch of [criterion.calculate(matrix)]. *)
Definition calculate (criterion : Criterion) (matrix : t)
  : completion CriterionResult :=
  match criterion with
  | WaldCriterion => calculate_wald matrix
  | MaximaxCriterion => calculate_maximax matrix
  | SavageCriterion => calculate_savage matrix
  | HurwitzCriterion alpha => calculate_hurwitz alpha matrix
  | BayesCriterion probabilities => calculate_bayes probabilities matrix
  | LaplaceCriterion => calculate_laplace matrix
  end.

(** The parameter bag of the factory; [None] is an absent property. *)
Record Params : Type :=
  { alpha : option number;
    probabilities : option (list number) }.

Definition no_params : Params := {| alpha := None; probabilities := None |}.

(** [params.alpha || 0.5] *)
Definition alpha_or_default (a : option number) : number :=
  match a with
  | Some x => if truthy_number x then x else 0.5%float
  | None => 0.5%float
  end.

Definition createCriterion (type : string) (params : Params)
  : completion Criterion :=
  let t := toLowerCase type in
  if String.eqb t "wald" then ret WaldCriterion
  else if String.eqb t "maximax" then ret MaximaxCriterion
  else if String.eqb t "savage" then ret SavageCriterion
  else if String.eqb t "hurwitz" then
    ret (HurwitzCriterion (alpha_or_default (alpha params)))
  else if String.eqb t "bayes" then
    match probabilities params with
    | None => Throw (Error "Probabilities required for Bayes criterion")
    | Some p => ret (BayesCriterion (Some p))
    end
  else if String.eqb t "laplace" then ret LaplaceCriterion
  else Throw (Error ("Unknown criterion type: " ++ type)).

End Criteria.

(* ================================================================== *)
(** * Plain objects used as maps, and the array methods of the analyzer *)
(* ================================================================== *)

Module Obj.

(** The own properties of an object with string keys, in creation order.
    What the object inherits from [Object.prototype] is not in the list:
    [read] and [write] below add it. *)
Definition object (V : Type) : Type := list (string * V).

(** The own property [key], [None] when the object has none of that name
    ([Object.hasOwn(o, key) ? o[key] : undefined]). *)
Fixpoint lookup {V : Type} (o : object V) (key : string) : option V :=
  match o with
  | [] => None
  | (k, v) :: rest => if String.eqb k key then Some v else lookup rest key
  end.

(** Defining the own property [key]: an existing property keeps its place,
    a new one is created last. *)
Fixpoint assign {V : Type} (o : object V) (key : string) (v : V)
  : object V :=
  match o with
  | [] => [(key, v)]
  | (k, w) :: rest =>
      if String.eqb k key then (k, v) :: rest
      else (k, w) :: assign rest key v
  end.

Definition is_digit (c : ascii) : bool :=
  let n := nat_of_ascii c in (48 <=? n)%nat && (n <=? 57)%nat.

Fixpoint digits_value (acc : N) (s : string) : option N :=
  match s with
  | EmptyString => Some acc
  | String c rest =>
      if is_digit c
      then digits_value (acc * 10 + N.of_nat (nat_of_ascii c - 48))%N rest
      else None
  end.

(** A key is an array index when it is the canonical decimal numeral of an
    integer below 2^32 - 1. *)
Definition array_index (key : string) : option N :=
  match key with
  | EmptyString => None
  | String c rest =>
      if Ascii.eqb c "0" && negb (String.eqb rest EmptyString) then None
      else match digits_value 0%N key with
           | Some n => if (n <? 4294967295)%N then Some n else None
           | None => None
           end
  end.

Definition is_index {V : Type} (p : string * V) : bool :=
  match array_index (fst p) with Some _ => true | None => false end.

Definition index_of {V : Type} (p : string * V) : N :=
  match array_index (fst p) with Some n => n | None => 0%N end.

Fixpoint insert_index {V : Type} (p : string * V) (l : list (string * V))
  : list (string * V) :=
  match l with
  | [] => [p]
  | q :: rest =>
      if (index_of p <=? index_of q)%N then p :: q :: rest
      else q :: insert_index p rest
  end.

(** [Object.entries(o)]: the array-index keys in ascending numeric order,
    then the other keys in creation order. *)
Definition entries {V : Type} (o : object V) : list (string * V) :=
  fold_right insert_index [] (filter is_index o)
  ++ filter (fun p => negb (is_index p)) o.

Definition keys {V : Type} (o : object V) : list string :=
  map fst (entries o).

Definition values {V : Type} (o : object V) : list V :=
  map snd (entries o).

(** [arr.sort(compare)] for a consistent comparator: the sort is stable, so
    the result is the one of a stable insertion sort.  [compare a b > 0]
    puts [a] after [b]. *)
Fixpoint sort_insert {A : Type} (compare : A -> A -> Z) (x : A) (l : list A)
  : list A :=
  match l with
  | [] => [x]
  | y :: rest =>
      if (0 <? compare x y)%Z then y :: sort_insert compare x rest
      else x :: y :: rest
  end.

Definition sort {A : Type} (compare : A -> A -> Z) (l : list A) : list A :=
  fold_right (sort_insert compare) [] l.

(** Integer-valued numbers with the [-Infinity] that [Math.max()] returns. *)
Inductive int_number : Type :=
| NegInfinity
| Int (z : Z).

Definition max_step (highest : int_number) (x : Z) : int_number :=
  match highest with
  | NegInfinity => Int x
  | Int h => if (h <? x)%Z then Int x else Int h
  end.

(** [Math.max(...values)] on integer counts. *)
Definition Math_max_int (args : list Z) : int_number :=
  fold_left max_step args NegInfinity.

(** [x === m] for a count [x]. *)
Definition int_equals (x : Z) (m : int_number) : bool :=
  match m with
  | NegInfinity => false
  | Int z => (x =? z)%Z
  end.

(** The names a plain object inherits from [Object.prototype]. *)
Definition prototype_members : list string :=
  [ "constructor"; "__proto__"; "hasOwnProperty"; "isPrototypeOf";
    "propertyIsEnumerable"; "toLocaleString"; "toString"; "valueOf";
    "__defineGetter__"; "__defineSetter__"; "__lookupGetter__";
    "__lookupSetter__" ]%string.

Definition inherited (key : string) : bool :=
  existsb (String.eqb key) prototype_members.

(** What a property of the frequency object can hold: an integer count, or
    the string that [+ 1] makes of something that is not a number.
    [Text member ones] is the string form of [Object.prototype[member]]
    followed by [ones] characters ["1"].  The string form of a built-in
    function names the function and ends with a brace, so two such strings
    are equal exactly when [member] and [ones] are; none is empty and none
    reads as a number. *)
Inductive value : Type :=
| Count (n : Z)
| Text (member : string) (ones : nat).

(** What [o[key]] reads on a plain object. *)
Inductive property : Type :=
| Own (v : value)
| Inherited (member : string)
| Undefined.

(** [o[key]] on an object created by [{}]: the own property, else the member
    of [Object.prototype] of that name, else [undefined]. *)
Definition read (o : object value) (key : string) : property :=
  match lookup o key with
  | Some v => Own v
  | None => if inherited key then Inherited key else Undefined
  end.

(** [o[key] = v] on an object created by [{}], for a [v] that is a number
    or a string: the own property is defined, except under ["__proto__"],
    which is an accessor of [Object.prototype] whose setter ignores a value
    that is neither an object nor [null]. *)
Definition write (o : object value) (key : string) (v : value)
  : object value :=
  if String.eqb key "__proto__" then o else assign o key v.

(** [ToNumber] of a property value. *)
Definition number_of (v : value) : number :=
  match v with
  | Count n => of_Z n
  | Text _ _ => nan
  end.

(** [a === b] on property values. *)
Definition value_equals (a b : value) : bool :=
  match a, b with
  | Count x, Count y => (x =? y)%Z
  | Text m k, Text m' k' => String.eqb m m' && (k =? k')%nat
  | _, _ => false
  end.

(** The counts of the values, when all of them are numbers. *)
Fixpoint all_counts (values : list value) : option (list Z) :=
  match values with
  | [] => Some []
  | Count n :: rest =>
      match all_counts rest with
      | Some ns => Some (n :: ns)
      | None => None
      end
  | Text _ _ :: _ => None
  end.

(** [Math.max(...values)]: [NaN], here [None], as soon as one value is a
    string that does not read as a number. *)
Definition Math_max_value (values : list value) : option int_number :=
  match all_counts values with
  | Some ns => Some (Math_max_int ns)
  | None => None
  end.

(** [v === m] for a property value [v] and the number [m]. *)
Definition equals_number (v : value) (m : option int_number) : bool :=
  match v, m with
  | Count n, Some m => int_equals n m
  | _, _ => false
  end.

End Obj.

(* ================================================================== *)
(** * ResultsAnalyzer *)
(* ================================================================== *)

Module ResultsAnalyzer.

Import Criteria.

(** The [details] argument of [addRecommendation]. *)
Inductive Details : Type :=
| NoDetails
| Result (result : CriterionResult)
| Failure (error : string).

Module Recommendation.
Record t : Type :=
  { id : nat;
    criterion : string;
    strategy : string;
    type : string;
    details : Details;
    timestamp : string }.
End Recommendation.

Inductive Confidence : Type := high | medium | low.

Module FinalRecommendation.
(** [hasTie] and [alternatives] are absent from the object returned for
    an empty frequency map. *)
Record t : Type :=
  { strategy : option string;
    frequency : Obj.value;
    total : nat;
    percentage : number;
    confidence : Confidence;
    hasTie : option bool;
    alternatives : option (list string) }.
End FinalRecommendation.

Module Statistics.
Record t : Type :=
  { totalCriteria : nat;
    validRecommendations : nat;
    uniqueStrategies : nat;
    mostFrequent : FinalRecommendation.t;
    distribution : Obj.object Obj.value;
    analysisType : string;
    timestamp : string }.
End Statistics.

(** The fields of the class. *)
Record t : Type :=
  { recommendations : list Recommendation.t;
    timestamp : option string;
    analysisType : string }.

(** A method reads and may replace its receiver. *)
Definition method (A : Type) : Type := t -> A * t.

#[export] Instance method_monad : Monad method :=
  { ret := fun A a this => (a, this);
    mbind := fun A B m k this => let (a, this') := m this in k a this' }.

Definition this_ : method t := fun this => (this, this).
Definition set_this (new : t) : method unit := fun _ => (tt, new).

Definition result {A : Type} (call : method A) (this : t) : A :=
  fst (call this).
Definition after {A : Type} (call : method A) (this : t) : t :=
  snd (call this).

(** [new ResultsAnalyzer()] *)
Definition new : t :=
  {| recommendations := []; timestamp := None; analysisType := "" |}.

(** [strategy || 'Не определено'] *)
Definition strategy_or_undetermined (strategy : option string) : string :=
  or_undetermined strategy.

(** [now] stands for [new Date().toISOString()] at the time of the call. *)
Definition addRecommendation (now : string) (criterionName : string)
  (strategy : option string) (criterionType : string) (details : Details)
  : method unit :=
  this <- this_ ;;
  let recommendation :=
    {| Recommendation.id := List.length (recommendations this) + 1;
       Recommendation.criterion := criterionName;
       Recommendation.strategy := strategy_or_undetermined strategy;
       Recommendation.type := criterionType;
       Recommendation.details := details;
       Recommendation.timestamp := now |} in
  set_this {| recommendations := recommendations this ++ [recommendation];
              timestamp := timestamp this;
              analysisType := analysisType this |}.

(** [rec.strategy && rec.strategy !== 'Не определено'] *)
Definition is_valid (rec : Recommendation.t) : bool :=
  truthy_string (Recommendation.strategy rec)
  && negb (String.eqb (Recommendation.strategy rec) undetermined).

(** [(frequency[key] || 0) + 1] for what [frequency[key]] read: a count is
    incremented, [undefined] and 0 give 1, and anything else is truthy and
    not a number, so that [+] concatenates its string form with ["1"]. *)
Definition plus_one (read : Obj.property) : Obj.value :=
  match read with
  | Obj.Own (Obj.Count n) => Obj.Count ((if (n =? 0)%Z then 0 else n) + 1)
  | Obj.Own (Obj.Text member ones) => Obj.Text member (S ones)
  | Obj.Inherited member => Obj.Text member 1
  | Obj.Undefined => Obj.Count 1
  end.

(** The body of the [forEach] of [getFrequencyAnalysis]:
    [frequency[rec.strategy] = (frequency[rec.strategy] || 0) + 1]
    for a valid [rec]. *)
Definition tally (frequency : Obj.object Obj.value) (rec : Recommendation.t)
  : Obj.object Obj.value :=
  if is_valid rec then
    let key := Recommendation.strategy rec in
    Obj.write frequency key (plus_one (Obj.read frequency key))
  else frequency.

Definition getFrequencyAnalysis : method (Obj.object Obj.value) :=
  this <- this_ ;;
  ret (fold_left tally (recommendations this) []).

(** [(a, b) => b[1] - a[1]] as [sort] reads it: the difference of two
    counts, and [+0] for the [NaN] that a string that is no number gives.
    Among entries whose counts differ, one such string makes the comparator
    inconsistent and the order the engine's own; [Obj.sort] is the order of
    the engine for a consistent comparator only. *)
Definition by_count_descending (a b : string * Obj.value) : Z :=
  match snd a, snd b with
  | Obj.Count x, Obj.Count y => (y - x)%Z
  | _, _ => 0%Z
  end.

Definition getFinalRecommendation : method FinalRecommendation.t :=
  frequency <- getFrequencyAnalysis ;;
  this <- this_ ;;
  let entries := Obj.entries frequency in
  if (List.length entries =? 0)%nat then
    ret {| FinalRecommendation.strategy := None;
           FinalRecommendation.frequency := Obj.Count 0;
           FinalRecommendation.total := List.length (recommendations this);
           FinalRecommendation.percentage := 0%float;
           FinalRecommendation.confidence := low;
           FinalRecommendation.hasTie := None;
           FinalRecommendation.alternatives := None |}
  else
    let entries := Obj.sort by_count_descending entries in
    (* entries[0] exists: the array is not empty here *)
    let '(strategy, count) := nth 0 entries (EmptyString, Obj.Count 0) in
    let percentage :=
      (Obj.number_of count / of_nat (List.length (recommendations this))
       * 100)%float in
    let confidence := medium in
    let confidence := if ge percentage 70%float then high else confidence in
    let confidence := if le percentage 30%float then low else confidence in
    let hasTie :=
      (1 <? List.length entries)%nat
      && match nth_error entries 1 with
         | Some e => Obj.value_equals (snd e) count
         | None => false
         end in
    ret {| FinalRecommendation.strategy := Some strategy;
           FinalRecommendation.frequency := count;
           FinalRecommendation.total := List.length (recommendations this);
           FinalRecommendation.percentage := Math_round percentage;
           FinalRecommendation.confidence := confidence;
           FinalRecommendation.hasTie := Some hasTie;
           FinalRecommendation.alternatives :=
             Some (if hasTie
                   then map fst
                          (filter (fun e => Obj.value_equals (snd e) count)
                             entries)
                   else []) |}.

Definition getStatistics (now : string) : method Statistics.t :=
  this <- this_ ;;
  let validRecommendations := filter is_valid (recommendations this) in
  frequency <- getFrequencyAnalysis ;;
  let uniqueStrategies := Obj.keys frequency in
  mostFrequent <- getFinalRecommendation ;;
  ret {| Statistics.totalCriteria := List.length (recommendations this);
         Statistics.validRecommendations := List.length validRecommendations;
         Statistics.uniqueStrategies := List.length uniqueStrategies;
         Statistics.mostFrequent := mostFrequent;
         Statistics.distribution := frequency;
         Statistics.analysisType := analysisType this;
         Statistics.timestamp :=
           match timestamp this with
           | Some ts => if truthy_string ts then ts else now
           | None => now
           end |}.

Definition setAnalysisType (now : string) (type : string) : method unit :=
  this <- this_ ;;
  set_this {| recommendations := recommendations this;
              timestamp := Some now;
              analysisType := type |}.

Definition hasConflicts : method bool :=
  frequency <- getFrequencyAnalysis ;;
  let values := Obj.values frequency in
  let maxFreq := Obj.Math_max_value values in
  ret (1 <? List.length
              (filter (fun freq => Obj.equals_number freq maxFreq) values))%nat.

Definition clear : method unit :=
  set_this {| recommendations := []; timestamp := None; analysisType := "" |}.


End ResultsAnalyzer.

(* ================================================================== *)
(** * The analyzer over integer counts *)
(* ================================================================== *)

(** What the frequency methods compute while every property of the
    frequency object is an integer count, which is the case as long as no
    valid recommendation cites a strategy named like a member of
    [Object.prototype].  The section on ordinary names proves that the
    methods of [ResultsAnalyzer] agree with these on such states; the
    counting arguments are carried out here. *)
Module Counts.

Import Criteria ResultsAnalyzer.

Module FinalRecommendation.
Record t : Type :=
  { strategy : option string;
    frequency : Z;
    total : nat;
    percentage : number;
    confidence : Confidence;
    hasTie : option bool;
    alternatives : option (list string) }.
End FinalRecommendation.

Module Statistics.
Record t : Type :=
  { totalCriteria : nat;
    validRecommendations : nat;
    uniqueStrategies : nat;
    mostFrequent : FinalRecommendation.t;
    distribution : Obj.object Z;
    analysisType : string;
    timestamp : string }.
End Statistics.

(** [(count || 0) + 1] *)
Definition count_or_zero (count : option Z) : Z :=
  match count with
  | Some c => if (c =? 0)%Z then 0%Z else c
  | None => 0%Z
  end.

Definition tally (frequency : Obj.object Z) (rec : Recommendation.t)
  : Obj.object Z :=
  if is_valid rec then
    let key := Recommendation.strategy rec in
    Obj.assign frequency key
      (count_or_zero (Obj.lookup frequency key) + 1)%Z
  else frequency.

Definition getFrequencyAnalysis : method (Obj.object Z) :=
  this <- this_ ;;
  ret (fold_left tally (recommendations this) []).

Definition by_count_descending (a b : string * Z) : Z := (snd b - snd a)%Z.

Definition getFinalRecommendation : method FinalRecommendation.t :=
  frequency <- getFrequencyAnalysis ;;
  this <- this_ ;;
  let entries := Obj.entries frequency in
  if (List.length entries =? 0)%nat then
    ret {| FinalRecommendation.strategy := None;
           FinalRecommendation.frequency := 0%Z;
           FinalRecommendation.total := List.length (recommendations this);
           FinalRecommendation.percentage := 0%float;
           FinalRecommendation.confidence := low;
           FinalRecommendation.hasTie := None;
           FinalRecommendation.alternatives := None |}
  else
    let entries := Obj.sort by_count_descending entries in
    let '(strategy, count) := nth 0 entries (EmptyString, 0%Z) in
    let percentage :=
      (of_Z count / of_nat (List.length (recommendations this)) * 100)%float in
    let confidence := medium in
    let confidence := if ge percentage 70%float then high else confidence in
    let confidence := if le percentage 30%float then low else confidence in
    let hasTie :=
      (1 <? List.length entries)%nat
      && match nth_error entries 1 with
         | Some e => (snd e =? count)%Z
         | None => false
         end in
    ret {| FinalRecommendation.strategy := Some strategy;
           FinalRecommendation.frequency := count;
           FinalRecommendation.total := List.length (recommendations this);
           FinalRecommendation.percentage := Math_round percentage;
           FinalRecommendation.confidence := confidence;
           FinalRecommendation.hasTie := Some hasTie;
           FinalRecommendation.alternatives :=
             Some (if hasTie
                   then map fst (filter (fun e => (snd e =? count)%Z) entries)
                   else []) |}.

Definition getStatistics (now : string) : method Statistics.t :=
  this <- this_ ;;
  let validRecommendations := filter is_valid (recommendations this) in
  frequency <- getFrequencyAnalysis ;;
  let uniqueStrategies := Obj.keys frequency in
  mostFrequent <- getFinalRecommendation ;;
  ret {| Statistics.totalCriteria := List.length (recommendations this);
         Statistics.validRecommendations := List.length validRecommendations;
         Statistics.uniqueStrategies := List.length uniqueStrategies;
         Statistics.mostFrequent := mostFrequent;
         Statistics.distribution := frequency;
         Statistics.analysisType := analysisType this;
         Statistics.timestamp :=
           match timestamp this with
           | Some ts => if truthy_string ts then ts else now
           | None => now
           end |}.

Definition hasConflicts : method bool :=
  frequency <- getFrequencyAnalysis ;;
  let values := Obj.values frequency in
  let maxFreq := Obj.Math_max_int values in
  ret (1 <? List.length
              (filter (fun freq => Obj.int_equals freq maxFreq) values))%nat.

(** A frequency object of integer counts, as the object it is. *)
Definition lift (frequency : Obj.object Z) : Obj.object Obj.value :=
  map (fun entry => (fst entry, Obj.Count (snd entry))) frequency.

Definition lift_final (final : FinalRecommendation.t)
  : ResultsAnalyzer.FinalRecommendation.t :=
  {| ResultsAnalyzer.FinalRecommendation.strategy :=
       FinalRecommendation.strategy final;
     ResultsAnalyzer.FinalRecommendation.frequency :=
       Obj.Count (FinalRecommendation.frequency final);
     ResultsAnalyzer.FinalRecommendation.total :=
       FinalRecommendation.total final;
     ResultsAnalyzer.FinalRecommendation.percentage :=
       FinalRecommendation.percentage final;
     ResultsAnalyzer.FinalRecommendation.confidence :=
       FinalRecommendation.confidence final;
     ResultsAnalyzer.FinalRecommendation.hasTie :=
       FinalRecommendation.hasTie final;
     ResultsAnalyzer.FinalRecommendation.alternatives :=
       FinalRecommendation.alternatives final |}.

Definition lift_statistics (statistics : Statistics.t)
  : ResultsAnalyzer.Statistics.t :=
  {| ResultsAnalyzer.Statistics.totalCriteria :=
       Statistics.totalCriteria statistics;
     ResultsAnalyzer.Statistics.validRecommendations :=
       Statistics.validRecommendations statistics;
     ResultsAnalyzer.Statistics.uniqueStrategies :=
       Statistics.uniqueStrategies statistics;
     ResultsAnalyzer.Statistics.mostFrequent :=
       lift_final (Statistics.mostFrequent statistics);
     ResultsAnalyzer.Statistics.distribution :=
       lift (Statistics.distribution statistics);
     ResultsAnalyzer.Statistics.analysisType :=
       Statistics.analysisType statistics;
     ResultsAnalyzer.Statistics.timestamp :=
       Statistics.timestamp statistics |}.

End Counts.

(* ================================================================== *)
(** * Vocabulary of the statements, and the concrete inputs used below *)
(* ================================================================== *)

Module Props.

Import DecisionMatrix Criteria.

(** The soft outcome of a criterion: no score, [indexOf]'s [-1] for the
    index, the sentinel for the strategy. *)
Definition soft_undetermined (c : completion CriterionResult) : Prop :=
  exists r, c = Normal r
            /\ values r = []
            /\ optimalIndex r = (-1)%Z
            /\ strategy r = undetermined.

(** Some strategy within [strategiesCount] has no row, or a row with fewer
    than [statesCount] cells. *)
Definition not_fully_populated (matrix : DecisionMatrix.t) : Prop :=
  exists i, i < strategiesCount matrix
            /\ match nth_error (data matrix) i with
               | Some row => List.length row < statesCount matrix
               | None => True
               end.

(** No row of the matrix has a cell in column [j]. *)
Definition column_missing (matrix : DecisionMatrix.t) (j : nat) : Prop :=
  forall i row, nth_error (data matrix) i = Some row -> nth_error row j = None.

(** The score vector of a run, or its exception. *)
Definition scores (c : completion CriterionResult) : completion (list number) :=
  match c with
  | Normal r => Normal (values r)
  | Throw e => Throw e
  end.

(** The probability vector with every entry [1 / n]. *)
Definition uniform (n : nat) : list number :=
  repeat (1 / of_nat n)%float n.

(** The probability vector is [undefined] where an entry is needed, or
    shorter than [n]. *)
Definition lacks_entry (probabilities : option (list number)) (n : nat)
  : Prop :=
  match probabilities with
  | Some p => List.length p < n
  | None => 0 < n
  end.

(** The objective of a criterion over its scores: the minimum for Savage,
    the maximum for the five others. *)
Definition objective (criterion : Criterion) (values : list number) : number :=
  match criterion with
  | SavageCriterion => Math_min values
  | _ => Math_max values
  end.


(** Every row within [strategiesCount] exists, is not empty and holds
    finite numbers only. *)
Definition finite_rows (matrix : DecisionMatrix.t) : Prop :=
  forall i, i < strategiesCount matrix ->
    exists row, nth_error (data matrix) i = Some row
                /\ row <> []
                /\ Forall (fun x => is_finite x = true) row.

(** Two score vectors agree position by position under [===]. *)
Definition same_scores (a b : list number) : Prop :=
  Forall2 (fun x y => strict_equals x y = true) a b.

(** The sum of the counts of a frequency object. *)
Definition sum_counts (frequency : Obj.object Z) : Z :=
  fold_right Z.add 0%Z (map snd frequency).


(** The arguments of one call of [addRecommendation], with its time. *)
Record Call : Type :=
  { call_now : string;
    call_criterion : string;
    call_strategy : option string;
    call_type : string;
    call_details : ResultsAnalyzer.Details }.

(** The analyzer after a sequence of calls of [addRecommendation] on a new
    instance. *)
Definition recorded (calls : list Call) : ResultsAnalyzer.t :=
  fold_left
    (fun this c =>
       ResultsAnalyzer.after
         (ResultsAnalyzer.addRecommendation (call_now c) (call_criterion c)
            (call_strategy c) (call_type c) (call_details c)) this)
    calls ResultsAnalyzer.new.


(** Entries in descending order of their counts. *)
Definition descending (a b : string * Z) : Prop := (snd b <= snd a)%Z.

End Props.

Module Examples.

Import DecisionMatrix Criteria ResultsAnalyzer.

(** [new DecisionMatrix(0, 3)] *)
Definition no_strategy : DecisionMatrix.t :=
  {| strategiesCount := 0;
     statesCount := 3;
     data := [];
     strategies := [];
     states := ["Показатель 1"; "Показатель 2"; "Показатель 3"]%string |}.

(** [new DecisionMatrix(1, 0)] *)
Definition no_state : DecisionMatrix.t :=
  {| strategiesCount := 1;
     statesCount := 0;
     data := [[]];
     strategies := ["Регион A"]%string;
     states := [] |}.

(** One strategy, two states, and a row that holds one cell. *)
Definition short_row : DecisionMatrix.t :=
  {| strategiesCount := 1;
     statesCount := 2;
     data := [[5]]%float;
     strategies := ["Регион A"]%string;
     states := ["Показатель 1"; "Показатель 2"]%string |}.

(** One strategy, two states, fully populated. *)
Definition one_by_two : DecisionMatrix.t :=
  {| strategiesCount := 1;
     statesCount := 2;
     data := [[1; 2]]%float;
     strategies := ["Регион A"]%string;
     states := ["Показатель 1"; "Показатель 2"]%string |}.

(** One strategy whose second payoff was entered as [Infinity]
    ([parseFloat("Infinity")] in [updateValue]; [validate] accepts it). *)
Definition infinite_cell : DecisionMatrix.t :=
  {| strategiesCount := 1;
     statesCount := 2;
     data := [[1; infinity]]%float;
     strategies := ["Регион A"]%string;
     states := ["Показатель 1"; "Показатель 2"]%string |}.

(** The matrix of the demonstration data of the application. *)
Definition scenario : DecisionMatrix.t :=
  {| strategiesCount := 4;
     statesCount := 4;
     data := [ [320; 780; 640; 500];
               [900; 400; 300; 700];
               [600; 950; 200; 450];
               [500; 550; 850; 300] ]%float;
     strategies := ["Регион A"; "Регион B"; "Регион C"; "Регион D"]%string;
     states := ["Показатель 1"; "Показатель 2"; "Показатель 3";
                "Показатель 4"]%string |}.

(** Two strategies with the same worst and best case. *)
Definition tied : DecisionMatrix.t :=
  {| strategiesCount := 3;
     statesCount := 2;
     data := [[1; 4]; [2; 7]; [7; 2]]%float;
     strategies := ["Регион A"; "Регион B"; "Регион C"]%string;
     states := ["Показатель 1"; "Показатель 2"]%string |}.

(** What Wald returns on [tied]: strategies B and C both reach the best
    worst case, 2. *)
Definition tied_wald : CriterionResult :=
  {| values := [1; 2; 2]%float;
     optimalIndex := 1;
     optimalValue := 2%float;
     strategy := "Регион B";
     type := wald |}.

(** [n] calls of [addRecommendation] citing [strategy]. *)
Fixpoint cite (n : nat) (strategy : string) (this : ResultsAnalyzer.t)
  : ResultsAnalyzer.t :=
  match n with
  | 0 => this
  | S k =>
      cite k strategy
        (after (addRecommendation "2026-01-01T00:00:00.000Z" "criterion"
                  (Some strategy) "wald" NoDetails) this)
  end.

(** Sixteen criteria out of twenty-three for one strategy. *)
Definition sixteen_of_23 : ResultsAnalyzer.t :=
  cite 7 "Регион B" (cite 16 "Регион A" ResultsAnalyzer.new).

(** Three criteria out of four for one strategy. *)
Definition three_of_4 : ResultsAnalyzer.t :=
  cite 1 "Регион A" (cite 1 "Регион B" (cite 2 "Регион A" ResultsAnalyzer.new)).

(** Two strategies cited twice each, and one undetermined criterion. *)
Definition two_two : ResultsAnalyzer.t :=
  cite 1 "Не определено"
    (cite 2 "Регион B" (cite 2 "Регион A" ResultsAnalyzer.new)).

(** Only undetermined recommendations. *)
Definition all_undetermined : ResultsAnalyzer.t :=
  cite 3 "Не определено" ResultsAnalyzer.new.




End Examples.

(* ================================================================== *)
(** * DecisionMatrix: construction and editing *)
(* ================================================================== *)

Module MatrixEditing.

Import DecisionMatrix.

(** [String.fromCharCode(code)]: the UTF-16 code unit [code mod 2^16], in
    the UTF-8 bytes the string literals of this file are made of. *)
Definition fromCharCode (code : nat) : string :=
  let c := N.to_nat (N.of_nat code mod 65536)%N in
  if c <? 128 then String (ascii_of_nat c) EmptyString
  else if c <? 2048 then
    String (ascii_of_nat (192 + c / 64))
      (String (ascii_of_nat (128 + c mod 64)) EmptyString)
  else
    String (ascii_of_nat (224 + c / 4096))
      (String (ascii_of_nat (128 + (c / 64) mod 64))
         (String (ascii_of_nat (128 + c mod 64)) EmptyString)).

(** [`${n}`] for a count. *)
Definition decimal (n : nat) : string :=
  DecimalString.NilZero.string_of_uint (Nat.to_uint n).

(** [`Регион ${String.fromCharCode(65 + i)}`] *)
Definition strategy_name (i : nat) : string :=
  "Регион " ++ fromCharCode (65 + i).

(** [`Показатель ${j + 1}`] *)
Definition state_name (j : nat) : string :=
  "Показатель " ++ decimal (j + 1).

(** [Array(strategiesCount).fill().map(() => Array(statesCount).fill(0))] *)
Definition zeros (strategiesCount statesCount : nat) : list (list number) :=
  repeat (repeat 0%float statesCount) strategiesCount.

Definition initialize (this : t) : t :=
  {| strategiesCount := strategiesCount this;
     statesCount := statesCount this;
     data := zeros (strategiesCount this) (statesCount this);
     strategies := map strategy_name (seq 0 (strategiesCount this));
     states := map state_name (seq 0 (statesCount this)) |}.

(** [new DecisionMatrix(strategiesCount, statesCount)] *)
Definition create (strategiesCount statesCount : nat) : t :=
  initialize {| strategiesCount := strategiesCount;
                statesCount := statesCount;
                data := [];
                strategies := [];
                states := [] |}.

(** [new DecisionMatrix()] *)
Definition create_default : t := create 4 5.

Definition updateDimensions (strategiesCount statesCount : nat) (this : t)
  : t :=
  initialize {| strategiesCount := strategiesCount;
                statesCount := statesCount;
                data := data this;
                strategies := strategies this;
                states := states this |}.

Definition clear (this : t) : t :=
  {| strategiesCount := strategiesCount this;
     statesCount := statesCount this;
     data := zeros (strategiesCount this) (statesCount this);
     strategies := strategies this;
     states := states this |}.

(** [a[k] = x] on an array without holes: an element is replaced, or
    appended when [k] is the length.  Writing further out would leave holes,
    which the lists of this model do not have: [None]. *)
Fixpoint store {A : Type} (a : list A) (k : nat) (x : A) : option (list A) :=
  match a, k with
  | [], 0 => Some [x]
  | [], S _ => None
  | _ :: rest, 0 => Some (x :: rest)
  | y :: rest, S k' =>
      match store rest k' x with
      | Some rest' => Some (y :: rest')
      | None => None
      end
  end.

(** [isNaN(val) ? 0 : val] *)
Definition stored (val : number) : number :=
  if is_nan val then 0%float else val.

(** [updateValue(i, j, value)], from [val = parseFloat(value)] on:
    [if (!this.data[i]) this.data[i] = [];
     this.data[i][j] = isNaN(val) ? 0 : val;
     return this.data[i][j]]. *)
Definition updateValue (i j : nat) (val : number) (this : t)
  : option (number * t) :=
  let row :=
    match nth_error (data this) i with
    | Some row => row
    | None => []
    end in
  match store row j (stored val) with
  | None => None
  | Some row' =>
      match store (data this) i row' with
      | None => None
      | Some data' =>
          Some (stored val,
                {| strategiesCount := strategiesCount this;
                   statesCount := statesCount this;
                   data := data';
                   strategies := strategies this;
                   states := states this |})
      end
  end.

(** One edit of a cell, with the number [parseFloat] read. *)
Record Edit : Type :=
  { edit_row : nat;
    edit_column : nat;
    edit_value : number }.

(** The matrix after a sequence of edits; an edit that would leave a hole
    ends the sequence. *)
Fixpoint edited (edits : list Edit) (this : t) : option t :=
  match edits with
  | [] => Some this
  | e :: rest =>
      match updateValue (edit_row e) (edit_column e) (edit_value e) this with
      | Some (_, this') => edited rest this'
      | None => None
      end
  end.

End MatrixEditing.

(* ================================================================== *)
(** * The factory's catalogue and the names of the criteria *)
(* ================================================================== *)

Module Catalogue.

Import Criteria.

(** [CriteriaFactory.getAvailableCriteria()]: pairs of [type] and [name]. *)
Definition getAvailableCriteria : list (string * string) :=
  [ ("wald", "Критерий Вальда");
    ("maximax", "Критерий Максимакс");
    ("savage", "Критерий Сэвиджа");
    ("hurwitz", "Критерий Гурвица");
    ("bayes", "Критерий Байеса");
    ("laplace", "Критерий Лапласа") ]%string.

(** The string a result carries in its [type] field. *)
Definition type_string (type : criterion_type) : string :=
  match type with
  | wald => "wald"
  | maximax => "maximax"
  | savage => "savage"
  | hurwitz => "hurwitz"
  | bayes => "bayes"
  | laplace => "laplace"
  end.

(** The [name] each constructor hands to [DecisionCriterion], which
    [formatResult] copies into the result.  [toString] stands for the
    conversion of a number inside a template literal. *)
Definition name (toString : number -> string) (criterion : Criterion)
  : string :=
  match criterion with
  | WaldCriterion => "Критерий Вальда (максимин)"
  | MaximaxCriterion => "Критерий Максимакс"
  | SavageCriterion => "Критерий Сэвиджа (минимаксного риска)"
  | HurwitzCriterion alpha =>
      "Критерий Гурвица (α=" ++ toString alpha ++ ")"
  | BayesCriterion _ => "Критерий Байеса (максимум математического ожидания)"
  | LaplaceCriterion => "Критерий Лапласа (равновозможных событий)"
  end.

End Catalogue.

(* ================================================================== *)
(** * ResultsAnalyzer: the queries *)
(* ================================================================== *)

Module AnalyzerQueries.

Import ResultsAnalyzer.

(** [[...this.recommendations]] *)
Definition getAllRecommendations : method (list Recommendation.t) :=
  this <- this_ ;;
  ret (recommendations this).

(** [this.recommendations.filter(rec => rec.type === criterionType)] *)
Definition getRecommendationsByType (criterionType : string)
  : method (list Recommendation.t) :=
  this <- this_ ;;
  ret (filter (fun rec => String.eqb (Recommendation.type rec) criterionType)
         (recommendations this)).

End AnalyzerQueries.

(* ================================================================== *)
(** * DecisionAnalysisApp: running the criteria *)
(* ================================================================== *)

Module DecisionAnalysisApp.

Import DecisionMatrix Criteria ResultsAnalyzer.

(** What a run reads from outside the classes modelled here. *)
Record Environment : Type :=
  { (** the conversion of a number inside a template literal *)
    toString : number -> string;
    (** [CriteriaInfo[type]?.name], for a [CriteriaInfo] table that is
        defined: the table itself is not part of these sources *)
    CriteriaInfo : string -> option string;
    (** the [message] of the [TypeError] the engine throws *)
    TypeError_message : string;
    (** [new Date().toISOString()] at the k-th reading of the clock *)
    now : nat -> string }.

(** The fields of the application a run depends on. *)
Record t : Type :=
  { selectedCondition : string;
    probabilities : list number;
    alpha : number;
    matrix : DecisionMatrix.t;
    resultsAnalyzer : ResultsAnalyzer.t }.

Record Config : Type :=
  { type : string;
    params : Params }.

(** [error.message] *)
Definition message (env : Environment) (e : exception) : string :=
  match e with
  | TypeError => TypeError_message env
  | Error m => m
  end.

(** [CriteriaInfo[config.type]?.name || config.type] *)
Definition name_or_type (env : Environment) (type : string) : string :=
  match CriteriaInfo env type with
  | Some n => if truthy_string n then n else type
  | None => type
  end.

(** The callback of [criteriaConfig.forEach], at the k-th reading of the
    clock.  A result has no [strategyIndex] field, so
    [typeof result.strategyIndex === 'number'] is false and the strategy of
    the result is the one recorded. *)
Definition run_criterion (env : Environment) (matrix : DecisionMatrix.t)
  (k : nat) (config : Config) : method unit :=
  match (criterion <- createCriterion (type config) (params config) ;;
         result <- calculate criterion matrix ;;
         ret (criterion, result)) with
  | Normal (criterion, result) =>
      let strategyName := strategy result in
      addRecommendation (now env k)
        (Catalogue.name (toString env) criterion)
        (Some strategyName) (type config) (Result result)
  | Throw error =>
      addRecommendation (now env k)
        (name_or_type env (type config))
        (Some undetermined) (type config) (Failure (message env error))
  end.

(** [criteriaConfig.forEach(config => ...)], the clock being read for the
    k-th time at the first element. *)
Fixpoint forEach (body : nat -> Config -> method unit) (k : nat)
  (configs : list Config) : method unit :=
  match configs with
  | [] => ret tt
  | config :: rest => body k config ;;; forEach body (S k) rest
  end.

Definition uncertainty_config (alpha : number) : list Config :=
  [ {| type := "wald"; params := no_params |};
    {| type := "maximax"; params := no_params |};
    {| type := "savage"; params := no_params |};
    {| type := "hurwitz";
       params := {| Criteria.alpha := Some alpha;
                    Criteria.probabilities := None |} |} ].

Definition calculateUncertaintyResults (env : Environment) (k : nat)
  (this : t) : method unit :=
  forEach (run_criterion env (matrix this)) k
    (uncertainty_config (alpha this)).

(** [this.probabilities.reduce((a, b) => a + b, 0)] *)
Definition sumProb (probabilities : list number) : number :=
  fold_left (fun a b => (a + b)%float) probabilities 0%float.

(** [this.probabilities.map(p => p / sumProb)] *)
Definition normProbs (probabilities : list number) : list number :=
  map (fun p => (p / sumProb probabilities)%float) probabilities.

Definition risk_config (probabilities : list number) : list Config :=
  [ {| type := "bayes";
       params := {| Criteria.alpha := None;
                    Criteria.probabilities :=
                      Some (normProbs probabilities) |} |};
    {| type := "laplace"; params := no_params |} ].

Definition calculateRiskResults (env : Environment) (k : nat) (this : t)
  : method unit :=
  forEach (run_criterion env (matrix this)) k
    (risk_config (probabilities this)).

(** [calculateResults], up to the display of the results: the analyzer is
    cleared, told the kind of analysis, and fed by the criteria of that
    kind. *)
Definition calculateResults (env : Environment) (this : t) : t :=
  let run :=
    ResultsAnalyzer.clear ;;;
    setAnalysisType (now env 0) (selectedCondition this) ;;;
    if String.eqb (selectedCondition this) "uncertainty"
    then calculateUncertaintyResults env 1 this
    else calculateRiskResults env 1 this in
  {| selectedCondition := selectedCondition this;
     probabilities := probabilities this;
     alpha := alpha this;
     matrix := matrix this;
     resultsAnalyzer := after run (resultsAnalyzer this) |}.

End DecisionAnalysisApp.

(* ================================================================== *)
(** * Vocabulary of the further statements *)
(* ================================================================== *)

Module Terms.

Import DecisionMatrix Criteria ResultsAnalyzer.

(** The number of valid recommendations that cite [strategy]. *)
Definition citations (strategy : string) (recs : list Recommendation.t)
  : nat :=
  List.length
    (filter (fun rec =>
               is_valid rec && String.eqb (Recommendation.strategy rec) strategy)
       recs).

(** The cell of row [i] and column [j], when the matrix holds one. *)
Definition cell (matrix : DecisionMatrix.t) (i j : nat) : option number :=
  match nth_error (data matrix) i with
  | Some row => nth_error row j
  | None => None
  end.

(** [data] holds exactly [strategiesCount] rows of [statesCount] cells. *)
Definition rectangular (matrix : DecisionMatrix.t) : Prop :=
  List.length (data matrix) = strategiesCount matrix
  /\ Forall (fun row => List.length row = statesCount matrix) (data matrix).

(** Every cell is a finite number. *)
Definition finite_cells (matrix : DecisionMatrix.t) : Prop :=
  Forall (Forall (fun x => is_finite x = true)) (data matrix).

(** An edit inside the declared dimensions of the matrix. *)
Definition in_range (matrix : DecisionMatrix.t) (e : MatrixEditing.Edit)
  : Prop :=
  MatrixEditing.edit_row e < strategiesCount matrix
  /\ MatrixEditing.edit_column e < statesCount matrix.

(** The class a criterion is an instance of, as its results name it. *)
Definition kind (criterion : Criterion) : criterion_type :=
  match criterion with
  | WaldCriterion => wald
  | MaximaxCriterion => maximax
  | SavageCriterion => savage
  | HurwitzCriterion _ => hurwitz
  | BayesCriterion _ => bayes
  | LaplaceCriterion => laplace
  end.

(** The outcome of creating and running the criterion of a configuration. *)
Definition outcome (config : DecisionAnalysisApp.Config)
  (matrix : DecisionMatrix.t) : completion (Criterion * CriterionResult) :=
  criterion <- createCriterion (DecisionAnalysisApp.type config)
                 (DecisionAnalysisApp.params config) ;;
  result <- calculate criterion matrix ;;
  ret (criterion, result).

(** The recommendation records the outcome of the configuration: the
    strategy and the name of the result, or the sentinel and the message of
    the error that was thrown. *)
Definition records (env : DecisionAnalysisApp.Environment)
  (matrix : DecisionMatrix.t) (config : DecisionAnalysisApp.Config)
  (rec : Recommendation.t) : Prop :=
  Recommendation.type rec = DecisionAnalysisApp.type config
  /\ match outcome config matrix with
     | Normal (criterion, r) =>
         Recommendation.details rec = Result r
         /\ Recommendation.strategy rec = strategy r
         /\ Recommendation.criterion rec
            = Catalogue.name (DecisionAnalysisApp.toString env) criterion
     | Throw e =>
         Recommendation.details rec
         = Failure (DecisionAnalysisApp.message env e)
         /\ Recommendation.strategy rec = undetermined
         /\ Recommendation.criterion rec
            = DecisionAnalysisApp.name_or_type env
                (DecisionAnalysisApp.type config)
     end.

(** A float that is zero or above: a zero of either sign, a positive
    finite number or [+Infinity]. *)
Definition at_least_zero (x : spec_float) : Prop :=
  match x with
  | S754_zero _ => True
  | S754_infinity s | S754_finite s _ _ => s = false
  | S754_nan => False
  end.

(** No valid recommendation cites a strategy named like a member of
    [Object.prototype]. *)
Definition ordinary (recs : list Recommendation.t) : bool :=
  forallb
    (fun rec =>
       negb (is_valid rec && Obj.inherited (Recommendation.strategy rec)))
    recs.

(** The frequency object holds the count [c] for the strategy [s]. *)
Definition counted (frequency : Obj.object Obj.value) (s : string) (c : Z)
  : Prop :=
  Obj.lookup frequency s = Some (Obj.Count c).


(** The recommendation came from a result, not from a failure. *)
Definition succeeded (rec : Recommendation.t) : Prop :=
  exists r, Recommendation.details rec = Result r.

End Terms.

Module Sessions.

Import DecisionAnalysisApp.

(** An environment of a run: how the engine prints a number and words its
    [TypeError], an empty [CriteriaInfo] table, a clock. *)
Definition environment : Environment :=
  {| toString := fun _ => "0.5"%string;
     CriteriaInfo := fun _ => None;
     TypeError_message := "Cannot read properties of undefined";
     now := fun _ => "2026-01-01T00:00:00.000Z"%string |}.

(** The application under risk, on the demonstration matrix, with an
    analyzer that still holds an earlier run. *)
Definition at_risk : DecisionAnalysisApp.t :=
  {| selectedCondition := "risk";
     probabilities := [0.25; 0.25; 0.25; 0.25]%float;
     alpha := 0.5%float;
     matrix := Examples.scenario;
     resultsAnalyzer := Examples.two_two |}.

(** The application under uncertainty, on a matrix whose declared second
    strategy has no row. *)
Definition missing_row : DecisionAnalysisApp.t :=
  {| selectedCondition := "uncertainty";
     probabilities := [];
     alpha := 0.5%float;
     matrix := {| DecisionMatrix.strategiesCount := 2;
                  DecisionMatrix.statesCount := 2;
                  DecisionMatrix.data := [[1; 2]]%float;
                  DecisionMatrix.strategies := ["Регион A"; "Регион B"]%string;
                  DecisionMatrix.states :=
                    ["Показатель 1"; "Показатель 2"]%string |};
     resultsAnalyzer := ResultsAnalyzer.new |}.

End Sessions.

(* ================================================================== *)
(** * Loops and completions *)
(* ================================================================== *)

Section Loops.

Context {A B Acc : Type}.

Lemma collect_normal (body : A -> completion B) (indices : list A) :
  (forall i, In i indices -> exists v, body i = Normal v) ->
  exists vs, collect body indices = Normal vs
             /\ List.length vs = List.length indices.
Proof.
  induction indices as [|i rest IH]; intros Hbody.
  - exists []. split; reflexivity.
  - destruct (Hbody i (or_introl eq_refl)) as [v Hv].
    destruct IH as [vs [Hvs Hlen]].
    + intros k Hk. apply Hbody. now right.
    + exists (v :: vs). simpl. rewrite Hv. simpl. rewrite Hvs. simpl.
      split; [reflexivity | now rewrite Hlen].
Qed.

Lemma collect_ext (body1 body2 : A -> completion B) (indices : list A) :
  (forall i, In i indices -> body1 i = body2 i) ->
  collect body1 indices = collect body2 indices.
Proof.
  induction indices as [|i rest IH]; intros Hext; simpl.
  - reflexivity.
  - rewrite (Hext i (or_introl eq_refl)), IH; [reflexivity|].
    intros k Hk. apply Hext. now right.
Qed.

Lemma collect_map (f : A -> B) (indices : list A) :
  collect (fun i => Normal (f i)) indices = Normal (map f indices).
Proof.
  induction indices as [|i rest IH]; simpl; [reflexivity|].
  now rewrite IH.
Qed.

Lemma for_push_first_throw (body : nat -> completion B) (n : nat)
  (e : exception) :
  body 0 = Throw e -> for_push (S n) body = Throw e.
Proof. intros H. unfold for_push. simpl. now rewrite H. Qed.

Lemma for_fold_ext (body1 body2 : Acc -> A -> completion Acc) (indices : list A) :
  (forall acc i, In i indices -> body1 acc i = body2 acc i) ->
  forall acc, for_fold body1 indices acc = for_fold body2 indices acc.
Proof.
  induction indices as [|i rest IH]; intros Hext acc; simpl.
  - reflexivity.
  - rewrite (Hext acc i (or_introl eq_refl)).
    destruct (body2 acc i) as [acc'|e]; simpl; [|reflexivity].
    apply IH. intros a k Hk. apply Hext. now right.
Qed.

Lemma for_fold_normal (body : Acc -> A -> completion Acc) (indices : list A) :
  (forall acc i, In i indices -> exists acc', body acc i = Normal acc') ->
  forall acc, exists out, for_fold body indices acc = Normal out.
Proof.
  induction indices as [|i rest IH]; intros Hbody acc; simpl.
  - now exists acc.
  - destruct (Hbody acc i (or_introl eq_refl)) as [acc' Hacc].
    rewrite Hacc. simpl. apply IH. intros a k Hk. apply Hbody. now right.
Qed.

(** A loop whose steps can only throw [e], and one of whose turns always
    throws, ends in [e]. *)
Lemma for_fold_throw (body : Acc -> A -> completion Acc) (e : exception)
  (indices : list A) (j : A) :
  (forall acc i, body acc i = Throw e \/ exists acc', body acc i = Normal acc') ->
  In j indices ->
  (forall acc, body acc j = Throw e) ->
  forall acc, for_fold body indices acc = Throw e.
Proof.
  intros Hstep. induction indices as [|i rest IH]; intros Hin Hj acc.
  - destruct Hin.
  - simpl. destruct (Hstep acc i) as [Hthrow | [acc' Hacc]].
    + now rewrite Hthrow.
    + rewrite Hacc. simpl. destruct Hin as [-> | Hin].
      * rewrite Hj in Hacc. discriminate.
      * now apply IH.
Qed.

End Loops.

(* ================================================================== *)
(** * Degenerate matrices *)
(* ================================================================== *)

Section Degenerate.

Import DecisionMatrix Criteria Props.

Lemma zero_strategies_soft (matrix : DecisionMatrix.t) (criterion : Criterion) :
  strategiesCount matrix = 0 ->
  soft_undetermined (calculate criterion matrix).
Proof.
  intros Hzero. unfold soft_undetermined.
  destruct criterion; simpl;
    unfold calculate_wald, calculate_maximax, calculate_savage,
      calculate_hurwitz, calculate_bayes, calculate_laplace;
    rewrite Hzero; simpl; eexists; (split; [reflexivity|]);
    repeat split; reflexivity.
Qed.

Lemma missing_row_defaults (matrix : DecisionMatrix.t) (i : nat) :
  has_row matrix i = false ->
  getRowMin matrix i = 0%float /\ getRowMax matrix i = 0%float.
Proof.
  unfold has_row, getRowMin, getRowMax.
  destruct (nth_error (data matrix) i); [discriminate | now split].
Qed.

Lemma column_scan_untouched (matrix : DecisionMatrix.t) (j : nat)
  (rows : list nat) :
  column_missing matrix j ->
  fold_left (column_step matrix j) rows neg_infinity = neg_infinity.
Proof.
  intros Hmissing. induction rows as [|i rest IH]; simpl; [reflexivity|].
  replace (column_step matrix j neg_infinity i) with neg_infinity; [exact IH|].
  unfold column_step.
  destruct (nth_error (data matrix) i) as [row|] eqn:Hrow; [|reflexivity].
  now rewrite (Hmissing i row Hrow).
Qed.

Lemma missing_column_default (matrix : DecisionMatrix.t) (j : nat) :
  column_missing matrix j -> getColumnMax matrix j = 0%float.
Proof.
  intros Hmissing. unfold getColumnMax.
  now rewrite column_scan_untouched.
Qed.

(** C1 (amended).  With zero strategies every criterion returns, without
    throwing, no score, the index [-1] and the undetermined sentinel.
    Reading a row that does not exist through [getRowMin] or [getRowMax],
    or a column that no row holds through [getColumnMax], is no fault
    either: the getter returns [0]. *)
Theorem degenerate_matrix_policy (matrix : DecisionMatrix.t) :
  (strategiesCount matrix = 0 ->
   forall criterion, soft_undetermined (calculate criterion matrix))
  /\ (forall i, has_row matrix i = false ->
                getRowMin matrix i = 0%float /\ getRowMax matrix i = 0%float)
  /\ (forall j, column_missing matrix j -> getColumnMax matrix j = 0%float).
Proof.
  split; [|split].
  - intros Hzero criterion. now apply zero_strategies_soft.
  - apply missing_row_defaults.
  - apply missing_column_default.
Qed.

Lemma degenerate_matrix_policy_witness :
  soft_undetermined (calculate SavageCriterion Examples.no_strategy)
  /\ getRowMin Examples.no_strategy 0 = 0%float
  /\ getColumnMax Examples.no_strategy 5 = 0%float.
Proof.
  destruct (degenerate_matrix_policy Examples.no_strategy) as [Hsoft [Hrow Hcol]].
  split; [|split].
  - apply Hsoft. reflexivity.
  - apply (Hrow 0). reflexivity.
  - apply (Hcol 5). intros i row Hrow'. destruct i; discriminate.
Defined.

(** C1 as stated fails: a matrix whose only row is not fully populated
    gets a score and a recommended strategy from Wald, and reading its
    missing second row returns [0]. *)
Lemma short_row_is_scored :
  not_fully_populated Examples.short_row
  /\ calculate WaldCriterion Examples.short_row
     = Normal {| values := [5%float];
                 optimalIndex := 0;
                 optimalValue := 5%float;
                 strategy := "Регион A";
                 type := wald |}
  /\ ~ soft_undetermined (calculate WaldCriterion Examples.short_row)
  /\ has_row Examples.short_row 1 = false
  /\ getRowMin Examples.short_row 1 = 0%float.
Proof.
  split; [|split; [|split; [|split]]].
  - exists 0. simpl. split; lia.
  - vm_compute. reflexivity.
  - intros [r [Hr [Hvalues _]]]. vm_compute in Hr.
    injection Hr as <-. discriminate.
  - reflexivity.
  - reflexivity.
Qed.

End Degenerate.

(* ================================================================== *)
(** * Bayes and its probability vector *)
(* ================================================================== *)

Section BayesFaults.

Import DecisionMatrix Criteria Props.

Lemma bayes_step_cases (probabilities : option (list number))
  (matrix : DecisionMatrix.t) (i : nat) (expected : number) (j : nat) :
  bayes_step probabilities matrix i expected j = Throw TypeError
  \/ exists expected', bayes_step probabilities matrix i expected j
                       = Normal expected'.
Proof.
  unfold bayes_step, read_cell, read_probability, toFixed.
  destruct (nth_error (data matrix) i); simpl; [|now left].
  destruct probabilities as [p|]; simpl; [|now left].
  destruct (nth_error p j); simpl; [right; eauto | now left].
Qed.

Lemma bayes_step_throws (probabilities : option (list number))
  (matrix : DecisionMatrix.t) (i : nat) (expected : number) (j : nat) :
  match probabilities with
  | Some p => nth_error p j = None
  | None => True
  end ->
  bayes_step probabilities matrix i expected j = Throw TypeError.
Proof.
  unfold bayes_step, read_cell, read_probability, toFixed.
  destruct (nth_error (data matrix) i); simpl; [|reflexivity].
  destruct probabilities as [p|]; simpl; [|reflexivity].
  now intros ->.
Qed.

Lemma bayes_step_normal (p : list number) (matrix : DecisionMatrix.t)
  (i : nat) (expected : number) (j : nat) :
  has_row matrix i = true ->
  j < List.length p ->
  exists expected', bayes_step (Some p) matrix i expected j = Normal expected'.
Proof.
  unfold has_row, bayes_step, read_cell, read_probability, toFixed.
  intros Hrow Hj.
  destruct (nth_error (data matrix) i); [simpl | discriminate].
  destruct (nth_error p j) eqn:Hp; simpl; [eauto|].
  apply nth_error_None in Hp. lia.
Qed.

Lemma bayes_throws (probabilities : option (list number))
  (matrix : DecisionMatrix.t) :
  0 < strategiesCount matrix ->
  lacks_entry probabilities (statesCount matrix) ->
  calculate (BayesCriterion probabilities) matrix = Throw TypeError.
Proof.
  intros Hrows Hlacks. simpl. unfold calculate_bayes.
  destruct (strategiesCount matrix) as [|count]; [lia|].
  rewrite for_push_first_throw with (e := TypeError); [reflexivity|].
  set (j := match probabilities with Some p => List.length p | None => 0 end).
  apply for_fold_throw with (j := j).
  - intros acc k. apply bayes_step_cases.
  - apply in_seq. unfold lacks_entry in Hlacks. subst j.
    destruct probabilities; lia.
  - intros acc. apply bayes_step_throws. subst j.
    destruct probabilities as [p|]; [|exact I].
    now apply nth_error_None.
Qed.

Lemma bayes_returns (p : list number) (matrix : DecisionMatrix.t) :
  statesCount matrix <= List.length p ->
  (forall i, i < strategiesCount matrix -> has_row matrix i = true) ->
  exists r, calculate (BayesCriterion (Some p)) matrix = Normal r
            /\ List.length (values r) = strategiesCount matrix.
Proof.
  intros Hlen Hrows. simpl. unfold calculate_bayes, for_push.
  destruct (collect_normal
              (fun i => for_fold (bayes_step (Some p) matrix i)
                          (seq 0 (statesCount matrix)) 0%float)
              (seq 0 (strategiesCount matrix))) as [vs [Hvs Hcount]].
  - intros i Hi. apply in_seq in Hi. apply for_fold_normal.
    intros acc j Hj. apply in_seq in Hj.
    apply bayes_step_normal; [apply Hrows|]; lia.
  - rewrite Hvs. simpl. eexists. split; [reflexivity|].
    simpl. now rewrite Hcount, length_seq.
Qed.

(** C2 (amended).  [calculate] of Bayes throws (a [TypeError]) when the
    matrix has at least one strategy and the probability vector is missing
    with at least one state, or is shorter than the number of states.  It
    does not throw when the vector has at least [N] entries, more than [N]
    included, and every row exists.  With zero strategies it returns the
    undetermined result whatever the vector is.  The factory throws when
    [params.probabilities] is absent. *)
Theorem bayes_vector_policy (probabilities : option (list number))
  (matrix : DecisionMatrix.t) :
  (0 < strategiesCount matrix ->
   lacks_entry probabilities (statesCount matrix) ->
   calculate (BayesCriterion probabilities) matrix = Throw TypeError)
  /\ (forall p, probabilities = Some p ->
        statesCount matrix <= List.length p ->
        (forall i, i < strategiesCount matrix -> has_row matrix i = true) ->
        exists r, calculate (BayesCriterion probabilities) matrix = Normal r
                  /\ List.length (values r) = strategiesCount matrix)
  /\ (strategiesCount matrix = 0 ->
      soft_undetermined (calculate (BayesCriterion probabilities) matrix))
  /\ (forall a, createCriterion "bayes" {| alpha := a; probabilities := None |}
                = Throw (Error "Probabilities required for Bayes criterion")).
Proof.
  split; [|split; [|split]].
  - apply bayes_throws.
  - intros p -> Hlen Hrows. now apply bayes_returns.
  - apply zero_strategies_soft.
  - reflexivity.
Qed.

Lemma bayes_vector_policy_witness :
  calculate (BayesCriterion (Some [1%float])) Examples.one_by_two
    = Throw TypeError
  /\ (exists r, calculate (BayesCriterion (Some [1%float])) Examples.no_state
                = Normal r
                /\ List.length (values r) = 1)
  /\ soft_undetermined (calculate (BayesCriterion None) Examples.no_strategy).
Proof.
  split; [|split].
  - apply (bayes_vector_policy (Some [1%float]) Examples.one_by_two);
      simpl; lia.
  - apply (bayes_vector_policy (Some [1%float]) Examples.no_state)
      with (p := [1%float]); [reflexivity | simpl; lia |].
    intros i Hi. simpl in Hi. destruct i; [reflexivity | lia].
  - apply (bayes_vector_policy None Examples.no_strategy). reflexivity.
Defined.

(** C2 as stated fails: a vector of three probabilities for two states is
    accepted, and its third entry is never read. *)
Lemma longer_vector_accepted :
  List.length [0.5; 0.25; 0.25]%float <> statesCount Examples.one_by_two
  /\ calculate (BayesCriterion (Some [0.5; 0.25; 0.25]%float))
       Examples.one_by_two
     = Normal {| values := [1%float];
                 optimalIndex := 0;
                 optimalValue := 1%float;
                 strategy := "Регион A";
                 type := bayes |}
  /\ ~ throws (calculate (BayesCriterion (Some [0.5; 0.25; 0.25]%float))
                 Examples.one_by_two).
Proof.
  split; [|split].
  - simpl. lia.
  - vm_compute. reflexivity.
  - intros [e He]. vm_compute in He. discriminate.
Qed.

End BayesFaults.

(* ================================================================== *)
(** * Laplace against Bayes *)
(* ================================================================== *)

Section LaplaceBayes.

Import DecisionMatrix Criteria Props.

Lemma uniform_entry (n j : nat) :
  j < n -> nth_error (uniform n) j = Some (1 / of_nat n)%float.
Proof.
  unfold uniform. generalize (1 / of_nat n)%float as x.
  intros x. revert j. induction n as [|n IH]; intros j Hj; [lia|].
  destruct j as [|j]; simpl; [reflexivity|]. apply IH. lia.
Qed.

Lemma bayes_step_uniform (matrix : DecisionMatrix.t) (i j : nat)
  (expected : number) :
  j < statesCount matrix ->
  bayes_step (Some (uniform (statesCount matrix))) matrix i expected j
  = laplace_step (1 / of_nat (statesCount matrix))%float matrix i expected j.
Proof.
  intros Hj. unfold bayes_step, laplace_step, read_probability.
  destruct (read_cell matrix i j) as [cell|e]; simpl; [|reflexivity].
  now rewrite uniform_entry.
Qed.

(** C6.  The score vector of Laplace is the score vector of Bayes run with
    the uniform vector whose entries are all [1 / N]: both runs perform the
    same floating-point operations in the same order, so the scores are the
    same binary64 values (and the two runs throw on the same matrices). *)
Theorem laplace_is_uniform_bayes (matrix : DecisionMatrix.t) :
  scores (calculate LaplaceCriterion matrix)
  = scores (calculate
              (BayesCriterion (Some (uniform (statesCount matrix)))) matrix).
Proof.
  simpl. unfold calculate_laplace, calculate_bayes, for_push.
  rewrite collect_ext with
    (body1 := fun i =>
       for_fold (bayes_step (Some (uniform (statesCount matrix))) matrix i)
         (seq 0 (statesCount matrix)) 0%float)
    (body2 := fun i =>
       for_fold (laplace_step (1 / of_nat (statesCount matrix))%float matrix i)
         (seq 0 (statesCount matrix)) 0%float).
  - destruct (collect _ _); reflexivity.
  - intros i _. apply for_fold_ext. intros acc j Hj.
    apply bayes_step_uniform. apply in_seq in Hj. lia.
Qed.

End LaplaceBayes.

(* ================================================================== *)
(** * Binary64 facts *)
(* ================================================================== *)

Section Binary64.

Lemma finite_not_nan (x : number) : is_finite x = true -> is_nan x = false.
Proof.
  unfold is_finite. destruct (is_nan x); [discriminate | reflexivity].
Qed.

(** A finite number is a zero or a bounded mantissa and exponent. *)
Lemma finite_cases (x : number) :
  is_finite x = true ->
  (exists s, Prim2SF x = S754_zero s)
  \/ (exists s m e, Prim2SF x = S754_finite s m e
                    /\ bounded prec emax m e = true).
Proof.
  intros Hfin. pose proof (Prim2SF_valid x) as Hvalid.
  unfold is_finite, is_nan, is_infinity in Hfin.
  rewrite !FloatAxioms.eqb_spec, abs_spec in Hfin.
  destruct (Prim2SF x) as [s|s| |s m e].
  - left. now exists s.
  - destruct s; discriminate.
  - discriminate.
  - right. exists s, m, e. now split.
Qed.

Lemma not_nan_spec (x : number) :
  is_nan x = false -> Prim2SF x <> S754_nan.
Proof.
  unfold is_nan. rewrite FloatAxioms.eqb_spec. intros H Hnan. rewrite Hnan in H.
  discriminate.
Qed.

Lemma SFcompare_refl (x : spec_float) :
  x <> S754_nan -> SFcompare x x = Some Eq.
Proof.
  destruct x as [s|s| |s m e]; intros Hx; simpl.
  - reflexivity.
  - now destruct s.
  - now destruct Hx.
  - destruct s; rewrite Z.compare_refl;
      change (Pos.compare_cont Eq m m) with (Pos.compare m m);
      now rewrite Pos.compare_refl.
Qed.

Lemma iter_xO_digits (m : positive) (n : nat) :
  Zpos (digits2_pos (Nat.iter n xO m))
  = (Zpos (digits2_pos m) + Z.of_nat n)%Z.
Proof.
  induction n as [|n IH].
  - simpl. lia.
  - rewrite Nat2Z.inj_succ. simpl Nat.iter. simpl digits2_pos.
    rewrite Pos2Z.inj_succ, IH. lia.
Qed.

Lemma shift_out_zeros (m : positive) :
  SpecFloat.iter_pos shr_1 52
    (shr_record_of_loc (Zpos (Nat.iter 52 xO m)) loc_Exact)
  = {| shr_m := Zpos m; shr_r := false; shr_s := false |}.
Proof. reflexivity. Qed.

(** Rounding the exact product of [2^52 * 2^-52] and a representable
    mantissa gives the mantissa back. *)
Lemma round_times_one (s : bool) (m : positive) (e : Z) :
  bounded prec emax m e = true ->
  binary_round_aux prec emax s (Zpos (4503599627370496 * m)) (-52 + e) loc_Exact
  = S754_finite s m e.
Proof.
  intros Hbounded. unfold bounded in Hbounded.
  apply andb_prop in Hbounded. destruct Hbounded as [Hcanon Hmax].
  unfold canonical_mantissa in Hcanon. apply Z.eqb_eq in Hcanon.
  change (4503599627370496 * m)%positive with (Nat.iter 52 xO m).
  unfold binary_round_aux, shr_fexp. unfold Zdigits2.
  rewrite iter_xO_digits.
  replace (Zpos (digits2_pos m) + Z.of_nat 52 + (-52 + e))%Z
    with (Zpos (digits2_pos m) + e)%Z by lia.
  rewrite Hcanon.
  replace (e - (-52 + e))%Z with 52%Z by lia.
  unfold shr at 1.
  rewrite shift_out_zeros.
  cbn [shr_m loc_of_shr_record round_nearest_even shr_record_of_loc].
  replace (-52 + e + 52)%Z with e by lia.
  rewrite Hcanon, Z.sub_diag.
  cbn [shr shr_m]. now rewrite Hmax.
Qed.

Lemma mul_one_l (x : number) : (1 * x)%float = x.
Proof.
  apply Prim2SF_inj. rewrite mul_spec.
  pose proof (Prim2SF_valid x) as Hvalid.
  change (Prim2SF 1) with (S754_finite false 4503599627370496 (-52)).
  destruct (Prim2SF x) as [s|s| |s m e]; try reflexivity.
  unfold SF64mul, SFmul. simpl xorb.
  now apply round_times_one.
Qed.

Lemma mul_zero_l (x : number) :
  is_finite x = true -> exists s, Prim2SF (0 * x) = S754_zero s.
Proof.
  intros Hfin. rewrite mul_spec.
  change (Prim2SF 0) with (S754_zero false).
  destruct (finite_cases x Hfin) as [[s ->] | [s [m [e [-> _]]]]];
    simpl; eauto.
Qed.

Lemma add_zero_l (z y : number) (s : bool) :
  Prim2SF z = S754_zero s ->
  is_nan y = false ->
  strict_equals (z + y)%float y = true.
Proof.
  intros Hz Hy. apply not_nan_spec in Hy.
  unfold strict_equals. rewrite FloatAxioms.eqb_spec, add_spec, Hz.
  destruct (Prim2SF y) as [sy|sy| |sy m e] eqn:Hsf.
  - destruct s, sy; reflexivity.
  - destruct sy; reflexivity.
  - now destruct Hy.
  - unfold SF64add, SFadd, SFeqb. now rewrite SFcompare_refl.
Qed.

Lemma add_zero_r (y z : number) (s : bool) :
  Prim2SF z = S754_zero s ->
  is_nan y = false ->
  strict_equals (y + z)%float y = true.
Proof.
  intros Hz Hy. apply not_nan_spec in Hy.
  unfold strict_equals. rewrite FloatAxioms.eqb_spec, add_spec, Hz.
  destruct (Prim2SF y) as [sy|sy| |sy m e] eqn:Hsf.
  - destruct s, sy; reflexivity.
  - destruct sy; reflexivity.
  - now destruct Hy.
  - unfold SF64add, SFadd, SFeqb. now rewrite SFcompare_refl.
Qed.

Lemma below_finite (x : number) :
  is_finite x = true -> (neg_infinity <? x)%float = true.
Proof.
  intros Hfin. rewrite FloatAxioms.ltb_spec.
  change (Prim2SF neg_infinity) with (S754_infinity true).
  destruct (finite_cases x Hfin) as [[s ->] | [s [m [e [-> _]]]]];
    reflexivity.
Qed.

Lemma above_finite (x : number) :
  is_finite x = true -> (x <? infinity)%float = true.
Proof.
  intros Hfin. rewrite FloatAxioms.ltb_spec.
  change (Prim2SF infinity) with (S754_infinity false).
  destruct (finite_cases x Hfin) as [[s ->] | [s [m [e [-> _]]]]];
    reflexivity.
Qed.

Lemma max_from_finite (args : list number) :
  Forall (fun x => is_finite x = true) args ->
  forall highest,
    (is_finite highest = true
     \/ (highest = neg_infinity /\ args <> [])) ->
    is_finite (max_from highest args) = true.
Proof.
  induction 1 as [|x rest Hx Hrest IH]; intros highest Hhigh; simpl.
  - destruct Hhigh as [H | [_ H]]; [exact H | now destruct H].
  - rewrite (finite_not_nan x Hx). apply IH. left.
    destruct (is_pos_zero x && is_neg_zero highest); [exact Hx|].
    destruct Hhigh as [H | [-> _]].
    + now destruct (highest <? x)%float.
    + now rewrite below_finite.
Qed.

Lemma min_from_finite (args : list number) :
  Forall (fun x => is_finite x = true) args ->
  forall lowest,
    (is_finite lowest = true
     \/ (lowest = infinity /\ args <> [])) ->
    is_finite (min_from lowest args) = true.
Proof.
  induction 1 as [|x rest Hx Hrest IH]; intros lowest Hlow; simpl.
  - destruct Hlow as [H | [_ H]]; [exact H | now destruct H].
  - rewrite (finite_not_nan x Hx). apply IH. left.
    destruct (is_neg_zero x && is_pos_zero lowest); [exact Hx|].
    destruct Hlow as [H | [-> _]].
    + now destruct (x <? lowest)%float.
    + now rewrite above_finite.
Qed.

End Binary64.

(* ================================================================== *)
(** * The order of binary64 numbers *)
(* ================================================================== *)

Section Order.

Ltac compare_cases :=
repeat match goal with
  | H : context [Z.compare ?x ?y] |- _ =>
      destruct (Z.compare_spec x y); try discriminate H
  | |- context [Z.compare ?x ?y] => destruct (Z.compare_spec x y)
  | H : context [Pos.compare_cont Eq ?x ?y] |- _ =>
      change (Pos.compare_cont Eq x y) with (Pos.compare x y) in H;
      destruct (Pos.compare_spec x y); try discriminate H
  | |- context [Pos.compare_cont Eq ?x ?y] =>
      change (Pos.compare_cont Eq x y) with (Pos.compare x y);
      destruct (Pos.compare_spec x y)
  end.

Lemma SFleb_trans (a b c : spec_float) :
SFleb a b = true -> SFleb b c = true -> SFleb a c = true.
Proof.
unfold SFleb, SFcompare.
destruct a as [sa|sa| |sa ma ea], b as [sb|sb| |sb mb eb],
  c as [sc|sc| |sc mc ec];
  try destruct sa; try destruct sb; try destruct sc;
  simpl; intros H1 H2; try discriminate; try reflexivity;
  compare_cases; simpl in *; subst; try reflexivity; try discriminate;
  lia.
Qed.

Lemma SFltb_total (a b : spec_float) :
a <> S754_nan -> b <> S754_nan -> SFltb a b = false -> SFleb b a = true.
Proof.
unfold SFleb, SFltb, SFcompare.
destruct a as [sa|sa| |sa ma ea], b as [sb|sb| |sb mb eb];
  try destruct sa; try destruct sb;
  simpl; intros Ha Hb H; try discriminate; try reflexivity;
  try (now destruct Ha); try (now destruct Hb);
  compare_cases; simpl in *; subst; try reflexivity; try discriminate;
  lia.
Qed.

Lemma le_trans (x y z : number) :
le x y = true -> le y z = true -> le x z = true.
Proof.
unfold le. rewrite !FloatAxioms.leb_spec. apply SFleb_trans.
Qed.

Lemma le_refl (x : number) : is_nan x = false -> le x x = true.
Proof.
intros Hx. unfold le. rewrite FloatAxioms.leb_spec. unfold SFleb.
now rewrite SFcompare_refl by now apply not_nan_spec.
Qed.

Lemma lt_le (x y : number) : (x <? y)%float = true -> le x y = true.
Proof.
unfold le. rewrite FloatAxioms.ltb_spec, FloatAxioms.leb_spec.
unfold SFltb, SFleb. now destruct (SFcompare _ _) as [[| |]|].
Qed.

Lemma not_lt_le (x y : number) :
is_nan x = false -> is_nan y = false ->
(x <? y)%float = false -> le y x = true.
Proof.
intros Hx Hy. unfold le.
rewrite FloatAxioms.ltb_spec, FloatAxioms.leb_spec.
apply SFltb_total; now apply not_nan_spec.
Qed.

Lemma zeros_le (x y : number) :
is_neg_zero x = true -> is_pos_zero y = true -> le x y = true.
Proof.
unfold is_neg_zero, is_pos_zero, le.
rewrite !classify_spec, FloatAxioms.leb_spec.
unfold SF64classify, SFclassify.
destruct (Prim2SF x) as [sx|sx| |sx mx ex], (Prim2SF y) as [sy|sy| |sy my ey];
  try destruct sx; try destruct sy; try discriminate; try reflexivity;
  repeat match goal with
    | |- context [if ?b then _ else _] => destruct b
    end; discriminate.
Qed.

(** Without a [NaN] among its arguments, [Math.max] returns a number that
  no argument exceeds. *)
Lemma max_from_bound (args : list number) :
Forall (fun x => is_nan x = false) args ->
forall highest,
  is_nan highest = false ->
  is_nan (max_from highest args) = false
  /\ le highest (max_from highest args) = true
  /\ Forall (fun x => le x (max_from highest args) = true) args.
Proof.
induction 1 as [|x rest Hx Hrest IH]; intros highest Hh; simpl.
- repeat split; [exact Hh | now apply le_refl | constructor].
- rewrite Hx.
  set (next := if is_pos_zero x && is_neg_zero highest then x
               else if (highest <? x)%float then x else highest).
  assert (Hnext : is_nan next = false
                  /\ le highest next = true /\ le x next = true).
  { subst next.
    destruct (is_pos_zero x && is_neg_zero highest) eqn:Hzero.
    - apply andb_prop in Hzero. destruct Hzero as [Hpos Hneg].
      repeat split; [exact Hx | now apply zeros_le | now apply le_refl].
    - destruct (highest <? x)%float eqn:Hlt.
      + repeat split; [exact Hx | now apply lt_le | now apply le_refl].
      + repeat split; [exact Hh | now apply le_refl | now apply not_lt_le]. }
  destruct Hnext as [Hnan [Hhigh Hxn]].
  destruct (IH next Hnan) as [Hr [Hle Hall]].
  repeat split.
  + exact Hr.
  + now apply le_trans with (y := next).
  + constructor; [now apply le_trans with (y := next) | exact Hall].
Qed.

Lemma min_from_bound (args : list number) :
Forall (fun x => is_nan x = false) args ->
forall lowest,
  is_nan lowest = false ->
  is_nan (min_from lowest args) = false
  /\ le (min_from lowest args) lowest = true
  /\ Forall (fun x => le (min_from lowest args) x = true) args.
Proof.
induction 1 as [|x rest Hx Hrest IH]; intros lowest Hl; simpl.
- repeat split; [exact Hl | now apply le_refl | constructor].
- rewrite Hx.
  set (next := if is_neg_zero x && is_pos_zero lowest then x
               else if (x <? lowest)%float then x else lowest).
  assert (Hnext : is_nan next = false
                  /\ le next lowest = true /\ le next x = true).
  { subst next.
    destruct (is_neg_zero x && is_pos_zero lowest) eqn:Hzero.
    - apply andb_prop in Hzero. destruct Hzero as [Hneg Hpos].
      repeat split; [exact Hx | now apply zeros_le | now apply le_refl].
    - destruct (x <? lowest)%float eqn:Hlt.
      + repeat split; [exact Hx | now apply lt_le | now apply le_refl].
      + repeat split; [exact Hl | now apply le_refl | now apply not_lt_le]. }
  destruct Hnext as [Hnan [Hlow Hxn]].
  destruct (IH next Hnan) as [Hr [Hle Hall]].
  repeat split.
  + exact Hr.
  + now apply le_trans with (y := next).
  + constructor; [now apply le_trans with (y := next) | exact Hall].
Qed.

End Order.

(* ================================================================== *)
(** * The tie-break *)
(* ================================================================== *)

Section TieBreak.

Import DecisionMatrix Criteria Props.

Lemma indexOf_from_first (l : list number) (x : number) (start : Z) (k : nat)
  (v : number) :
  nth_error l k = Some v ->
  strict_equals v x = true ->
  exists first,
    indexOf_from start l x = (start + Z.of_nat first)%Z
    /\ first <= k
    /\ (exists v0, nth_error l first = Some v0 /\ strict_equals v0 x = true)
    /\ (forall j w, j < first -> nth_error l j = Some w ->
                    strict_equals w x = false).
Proof.
  revert start k. induction l as [|y rest IH]; intros start k Hk Hv.
  - destruct k; discriminate.
  - simpl. destruct (strict_equals y x) eqn:Hy.
    + exists 0. repeat split.
      * lia.
      * lia.
      * exists y. now split.
      * intros j w Hj. lia.
    + destruct k as [|k].
      * simpl in Hk. injection Hk as ->. congruence.
      * destruct (IH (start + 1)%Z k Hk Hv) as [first [Hidx [Hle [Hat Hbefore]]]].
        exists (S first). repeat split.
        -- rewrite Hidx. lia.
        -- lia.
        -- exact Hat.
        -- intros j w Hj Hw. destruct j as [|j].
           ++ simpl in Hw. injection Hw as <-. exact Hy.
           ++ apply (Hbefore j w); [lia | exact Hw].
Qed.

Lemma calculate_shape (criterion : Criterion) (matrix : DecisionMatrix.t)
  (r : CriterionResult) :
  calculate criterion matrix = Normal r ->
  optimalValue r = objective criterion (values r)
  /\ optimalIndex r = indexOf (values r) (optimalValue r)
  /\ strategy r = or_undetermined (get (strategies matrix) (optimalIndex r)).
Proof.
  destruct criterion; simpl;
    unfold calculate_wald, calculate_maximax, calculate_savage,
      calculate_hurwitz, calculate_bayes, calculate_laplace;
    unfold mbind, ret; simpl;
    match goal with
    | |- JS.bind ?c _ = _ -> _ => destruct c as [vs|e]
    end; simpl; intros H; try discriminate;
    injection H as <-; simpl; repeat split; reflexivity.
Qed.




End TieBreak.


(* ================================================================== *)
(** * Hurwitz at the ends of its range *)
(* ================================================================== *)

Section HurwitzEnds.

Import DecisionMatrix Criteria Props.

Lemma hurwitz_at_zero (lo hi : number) :
  is_finite lo = true -> is_finite hi = true ->
  strict_equals (0 * hi + (1 - 0) * lo)%float lo = true.
Proof.
  intros Hlo Hhi.
  change (1 - 0)%float with 1%float. rewrite mul_one_l.
  destruct (mul_zero_l hi Hhi) as [s Hzero].
  apply add_zero_l with (s := s); [exact Hzero | now apply finite_not_nan].
Qed.

Lemma hurwitz_at_one (lo hi : number) :
  is_finite lo = true -> is_finite hi = true ->
  strict_equals (1 * hi + (1 - 1) * lo)%float hi = true.
Proof.
  intros Hlo Hhi.
  change (1 - 1)%float with 0%float. rewrite mul_one_l.
  destruct (mul_zero_l lo Hlo) as [s Hzero].
  apply add_zero_r with (s := s); [exact Hzero | now apply finite_not_nan].
Qed.

Lemma finite_row_extremes (matrix : DecisionMatrix.t) (i : nat) :
  finite_rows matrix ->
  i < strategiesCount matrix ->
  is_finite (getRowMin matrix i) = true
  /\ is_finite (getRowMax matrix i) = true
  /\ join_row matrix i = Normal tt.
Proof.
  intros Hrows Hi. destruct (Hrows i Hi) as [row [Hrow [Hne Hfin]]].
  unfold getRowMin, getRowMax, join_row. rewrite Hrow.
  repeat split.
  - apply min_from_finite; [exact Hfin | now right].
  - apply max_from_finite; [exact Hfin | now right].
Qed.

Lemma same_scores_map (f g : nat -> number) (indices : list nat) :
  (forall i, In i indices -> strict_equals (f i) (g i) = true) ->
  same_scores (map f indices) (map g indices).
Proof.
  induction indices as [|i rest IH]; intros H; simpl; constructor.
  - apply H. now left.
  - apply IH. intros k Hk. apply H. now right.
Qed.

Lemma wald_scores (matrix : DecisionMatrix.t) :
  finite_rows matrix ->
  scores (calculate WaldCriterion matrix)
  = Normal (map (getRowMin matrix) (seq 0 (strategiesCount matrix))).
Proof.
  intros Hrows. simpl. unfold calculate_wald, for_push.
  rewrite collect_ext with (body2 := fun i => Normal (getRowMin matrix i)).
  - now rewrite collect_map.
  - intros i Hi. apply in_seq in Hi.
    destruct (@finite_row_extremes matrix i Hrows) as [_ [_ Hjoin]]; [lia|].
    simpl. now rewrite Hjoin.
Qed.

Lemma maximax_scores (matrix : DecisionMatrix.t) :
  finite_rows matrix ->
  scores (calculate MaximaxCriterion matrix)
  = Normal (map (getRowMax matrix) (seq 0 (strategiesCount matrix))).
Proof.
  intros Hrows. simpl. unfold calculate_maximax, for_push.
  rewrite collect_ext with (body2 := fun i => Normal (getRowMax matrix i)).
  - now rewrite collect_map.
  - intros i Hi. apply in_seq in Hi.
    destruct (@finite_row_extremes matrix i Hrows) as [_ [_ Hjoin]]; [lia|].
    simpl. now rewrite Hjoin.
Qed.

Lemma hurwitz_scores (alpha : number) (matrix : DecisionMatrix.t) :
  scores (calculate (HurwitzCriterion alpha) matrix)
  = Normal (map (fun i => (alpha * getRowMax matrix i
                           + (1 - alpha) * getRowMin matrix i)%float)
              (seq 0 (strategiesCount matrix))).
Proof.
  simpl. unfold calculate_hurwitz, for_push. simpl.
  now rewrite collect_map.
Qed.

(** C5 (amended).  On every matrix whose rows (one per strategy) exist,
    are not empty and hold finite numbers only, the four criteria return,
    the scores of Hurwitz with [alpha = 0] are [===] to the scores of Wald
    and the scores of Hurwitz with [alpha = 1] are [===] to the scores of
    Maximax, strategy by strategy. *)
Theorem hurwitz_ends (matrix : DecisionMatrix.t) :
  finite_rows matrix ->
  exists w x h0 h1,
    scores (calculate WaldCriterion matrix) = Normal w
    /\ scores (calculate MaximaxCriterion matrix) = Normal x
    /\ scores (calculate (HurwitzCriterion 0%float) matrix) = Normal h0
    /\ scores (calculate (HurwitzCriterion 1%float) matrix) = Normal h1
    /\ same_scores h0 w
    /\ same_scores h1 x.
Proof.
  intros Hrows.
  do 4 eexists.
  split; [now apply wald_scores|].
  split; [now apply maximax_scores|].
  split; [apply hurwitz_scores|].
  split; [apply hurwitz_scores|].
  split; apply same_scores_map; intros i Hi; apply in_seq in Hi;
    destruct (@finite_row_extremes matrix i Hrows) as [Hlo [Hhi _]];
    try lia.
  - now apply hurwitz_at_zero.
  - now apply hurwitz_at_one.
Qed.

Lemma scenario_rows_finite : finite_rows Examples.scenario.
Proof.
  intros i Hi. simpl in Hi.
  do 4 (destruct i as [|i];
        [eexists; split; [reflexivity|];
         split; [discriminate | repeat constructor] |]).
  lia.
Qed.

Lemma hurwitz_ends_witness :
  exists w x h0 h1,
    scores (calculate WaldCriterion Examples.scenario) = Normal w
    /\ scores (calculate MaximaxCriterion Examples.scenario) = Normal x
    /\ scores (calculate (HurwitzCriterion 0%float) Examples.scenario)
       = Normal h0
    /\ scores (calculate (HurwitzCriterion 1%float) Examples.scenario)
       = Normal h1
    /\ same_scores h0 w
    /\ same_scores h1 x.
Proof. exact (hurwitz_ends Examples.scenario scenario_rows_finite). Defined.

(** C5 as stated fails on [new DecisionMatrix(1, 0)]: the minimum of the
    empty row is [Infinity], its maximum [-Infinity], and Hurwitz with
    [alpha = 0] computes [0 * -Infinity + 1 * Infinity], which is [NaN]. *)
Lemma hurwitz_zero_differs_without_states :
  scores (calculate WaldCriterion Examples.no_state) = Normal [infinity]
  /\ scores (calculate (HurwitzCriterion 0%float) Examples.no_state)
     = Normal [nan]
  /\ ~ same_scores [nan] [infinity].
Proof.
  split; [|split].
  - vm_compute. reflexivity.
  - vm_compute. reflexivity.
  - intros H. inversion H as [|a b la lb Hab Hrest]; subst.
    vm_compute in Hab. discriminate.
Qed.

(** An infinite payoff has the same effect: [0 * Infinity] is [NaN]. *)
Example hurwitz_zero_differs_on_infinite_cell :
  validate Examples.infinite_cell = true
  /\ scores (calculate WaldCriterion Examples.infinite_cell)
     = Normal [1%float]
  /\ scores (calculate (HurwitzCriterion 0%float) Examples.infinite_cell)
     = Normal [nan].
Proof. repeat split; vm_compute; reflexivity. Qed.

End HurwitzEnds.

(* ================================================================== *)
(** * The factory and Hurwitz' alpha *)
(* ================================================================== *)

Section Factory.

Import DecisionMatrix Criteria Props.

Lemma hurwitz_from_params (params : Params) :
  createCriterion "hurwitz" params
  = Normal (HurwitzCriterion (alpha_or_default (alpha params))).
Proof. reflexivity. Qed.

Lemma truthy_alpha_kept (a : number) :
  truthy_number a = true -> alpha_or_default (Some a) = a.
Proof. intros H. simpl. now rewrite H. Qed.

Lemma absent_alpha_default : alpha_or_default None = 0.5%float.
Proof. reflexivity. Qed.

(** C8 at [params = {alpha: 0}]: the factory builds Hurwitz with
    [alpha = 0.5], because [0] is falsy in [params.alpha || 0.5]; on the
    demonstration matrix the criterion built this way returns the scores
    of [alpha = 0.5], not the scores of Wald. *)
Theorem hurwitz_alpha_zero_replaced :
  createCriterion "hurwitz" {| alpha := Some 0%float; probabilities := None |}
  = Normal (HurwitzCriterion 0.5%float)
  /\ scores (calculate (HurwitzCriterion 0.5%float) Examples.scenario)
     = Normal [550; 600; 575; 575]%float
  /\ scores (calculate WaldCriterion Examples.scenario)
     = Normal [320; 300; 200; 300]%float.
Proof. repeat split; vm_compute; reflexivity. Qed.

End Factory.

(* ================================================================== *)
(** * The frequency object *)
(* ================================================================== *)

Section Frequency.

Import Criteria ResultsAnalyzer Counts Props.

Lemma lookup_In (o : Obj.object Z) (key : string) (c : Z) :
  Obj.lookup o key = Some c -> In (key, c) o.
Proof.
  induction o as [|[k w] rest IH]; simpl; [discriminate|].
  destruct (String.eqb k key) eqn:Hk.
  - apply String.eqb_eq in Hk. intros [= ->]. left. now subst.
  - intros H. right. now apply IH.
Qed.

Lemma In_lookup (o : Obj.object Z) (key : string) (c : Z) :
  NoDup (map fst o) -> In (key, c) o -> Obj.lookup o key = Some c.
Proof.
  induction o as [|[k w] rest IH]; simpl; intros Hnd Hin; [destruct Hin|].
  inversion Hnd as [|? ? Hnotin Hnd']; subst.
  destruct Hin as [[= -> ->] | Hin].
  - now rewrite String.eqb_refl.
  - destruct (String.eqb k key) eqn:Hk.
    + apply String.eqb_eq in Hk. subst k. destruct Hnotin.
      change key with (fst (key, c)). now apply in_map.
    + now apply IH.
Qed.

Lemma lookup_None (o : Obj.object Z) (key : string) :
  Obj.lookup o key = None -> ~ In key (map fst o).
Proof.
  induction o as [|[k w] rest IH]; simpl; intros H; [tauto|].
  destruct (String.eqb k key) eqn:Hk; [discriminate|].
  apply String.eqb_neq in Hk. intros [Heq | Hin]; [contradiction|].
  now apply IH.
Qed.

Lemma assign_keys (o : Obj.object Z) (key : string) (v : Z) :
  map fst (Obj.assign o key v)
  = match Obj.lookup o key with
    | Some _ => map fst o
    | None => map fst o ++ [key]
    end.
Proof.
  induction o as [|[k w] rest IH]; simpl; [reflexivity|].
  destruct (String.eqb k key) eqn:Hk; simpl; [reflexivity|].
  rewrite IH. now destruct (Obj.lookup rest key).
Qed.

Lemma assign_NoDup (o : Obj.object Z) (key : string) (v : Z) :
  NoDup (map fst o) -> NoDup (map fst (Obj.assign o key v)).
Proof.
  intros Hnd. rewrite assign_keys.
  destruct (Obj.lookup o key) eqn:Hlook; [exact Hnd|].
  apply lookup_None in Hlook.
  pose proof (Add_app key (map fst o) []) as Hadd.
  rewrite app_nil_r in Hadd.
  apply (NoDup_Add Hadd). now split.
Qed.

Lemma assign_sum (o : Obj.object Z) (key : string) :
  sum_counts (Obj.assign o key (count_or_zero (Obj.lookup o key) + 1)%Z)
  = (sum_counts o + 1)%Z.
Proof.
  unfold sum_counts.
  induction o as [|[k w] rest IH]; simpl; [reflexivity|].
  destruct (String.eqb k key) eqn:Hk; simpl.
  - destruct (Z.eqb_spec w 0); lia.
  - rewrite IH. lia.
Qed.

Lemma assign_positive (o : Obj.object Z) (key : string) :
  Forall (fun entry => (1 <= snd entry)%Z) o ->
  Forall (fun entry => (1 <= snd entry)%Z)
    (Obj.assign o key (count_or_zero (Obj.lookup o key) + 1)%Z).
Proof.
  induction 1 as [|[k w] rest Hw Hrest IH]; simpl.
  - constructor; [simpl; lia | constructor].
  - destruct (String.eqb k key) eqn:Hk.
    + constructor; [|exact Hrest]. simpl in *.
      destruct (Z.eqb_spec w 0); lia.
    + constructor; assumption.
Qed.

(** What the [forEach] of [getFrequencyAnalysis] maintains. *)
Lemma tally_invariant (recs : list Recommendation.t) (o : Obj.object Z) :
  NoDup (map fst o) ->
  Forall (fun entry => (1 <= snd entry)%Z) o ->
  let o' := fold_left tally recs o in
  NoDup (map fst o')
  /\ Forall (fun entry => (1 <= snd entry)%Z) o'
  /\ sum_counts o'
     = (sum_counts o + Z.of_nat (List.length (filter is_valid recs)))%Z.
Proof.
  revert o. induction recs as [|rec rest IH]; intros o Hnd Hpos; simpl.
  - repeat split; try assumption. lia.
  - unfold tally at 2 4 6. destruct (is_valid rec) eqn:Hvalid.
    + destruct (IH _ (assign_NoDup _ (Recommendation.strategy rec) _ Hnd)
                  (assign_positive _ (Recommendation.strategy rec) Hpos))
        as [Hnd' [Hpos' Hsum]].
      repeat split; try assumption.
      rewrite Hsum, assign_sum. simpl List.length. lia.
    + now apply IH.
Qed.

Lemma filter_split_length {A : Type} (f : A -> bool) (l : list A) :
  List.length (filter f l) + List.length (filter (fun x => negb (f x)) l)
  = List.length l.
Proof.
  induction l as [|x rest IH]; simpl; [reflexivity|].
  destruct (f x); simpl; lia.
Qed.


Lemma or_undetermined_truthy (strategy : option string) :
  truthy_string (or_undetermined strategy) = true.
Proof.
  destruct strategy as [s|]; simpl; [|reflexivity].
  now destruct (truthy_string s) eqn:Hs.
Qed.




Lemma no_valid_no_entry (recs : list Recommendation.t) :
  (forall rec, In rec recs -> is_valid rec = false) ->
  fold_left tally recs [] = [].
Proof.
  induction recs as [|rec rest IH]; intros Hall; simpl; [reflexivity|].
  unfold tally at 2. rewrite (Hall rec (or_introl eq_refl)).
  apply IH. intros r Hr. apply Hall. now right.
Qed.

Lemma undetermined_is_invalid (rec : Recommendation.t) :
  Recommendation.strategy rec = undetermined -> is_valid rec = false.
Proof. unfold is_valid. now intros ->. Qed.

End Frequency.

(* ================================================================== *)
(** * Entries, their sort and the largest count *)
(* ================================================================== *)

Section Entries.

Import Props.

Lemma filter_partition_perm {A : Type} (f : A -> bool) (l : list A) :
  Permutation (filter f l ++ filter (fun x => negb (f x)) l) l.
Proof.
  induction l as [|x rest IH]; simpl; [constructor|].
  destruct (f x); simpl.
  - now constructor.
  - apply Permutation_sym, Permutation_cons_app. now apply Permutation_sym.
Qed.

Lemma insert_index_perm {V : Type} (p : string * V) (l : list (string * V)) :
  Permutation (Obj.insert_index p l) (p :: l).
Proof.
  induction l as [|q rest IH]; simpl; [constructor; constructor|].
  destruct (Obj.index_of p <=? Obj.index_of q)%N; [apply Permutation_refl|].
  eapply perm_trans; [apply perm_skip, IH | apply perm_swap].
Qed.

Lemma entries_perm {V : Type} (o : Obj.object V) :
  Permutation (Obj.entries o) o.
Proof.
  unfold Obj.entries.
  eapply perm_trans; [|apply (filter_partition_perm Obj.is_index)].
  apply Permutation_app_tail.
  induction (filter Obj.is_index o) as [|p rest IH]; simpl; [constructor|].
  eapply perm_trans; [apply insert_index_perm | now constructor].
Qed.

Lemma sort_insert_perm {A : Type} (compare : A -> A -> Z) (x : A)
  (l : list A) :
  Permutation (Obj.sort_insert compare x l) (x :: l).
Proof.
  induction l as [|y rest IH]; simpl; [constructor; constructor|].
  destruct (0 <? compare x y)%Z; [|apply Permutation_refl].
  eapply perm_trans; [apply perm_skip, IH | apply perm_swap].
Qed.

Lemma sort_perm {A : Type} (compare : A -> A -> Z) (l : list A) :
  Permutation (Obj.sort compare l) l.
Proof.
  induction l as [|x rest IH]; simpl; [constructor|].
  eapply perm_trans; [apply sort_insert_perm | now constructor].
Qed.

Lemma sort_insert_descending (x : string * Z) (l : list (string * Z)) :
  StronglySorted descending l ->
  StronglySorted descending
    (Obj.sort_insert Counts.by_count_descending x l).
Proof.
  induction 1 as [|y rest Hsorted IH Hall]; simpl.
  - constructor; constructor.
  - unfold Counts.by_count_descending at 1.
    destruct (Z.ltb_spec 0 (snd y - snd x)) as [Hlt | Hge].
    + constructor; [exact IH|].
      apply Forall_forall. intros z Hz.
      apply (Permutation_in _ (sort_insert_perm _ x rest)) in Hz.
      destruct Hz as [<- | Hz].
      * unfold descending. lia.
      * rewrite Forall_forall in Hall. now apply Hall.
    + constructor; [now constructor|].
      constructor; [unfold descending; lia|].
      apply Forall_forall. intros z Hz.
      rewrite Forall_forall in Hall. specialize (Hall z Hz).
      unfold descending in *. lia.
Qed.

Lemma sort_descending (l : list (string * Z)) :
  StronglySorted descending
    (Obj.sort Counts.by_count_descending l).
Proof.
  induction l as [|x rest IH]; simpl; [constructor|].
  now apply sort_insert_descending.
Qed.







End Entries.

(* ================================================================== *)
(** * Conflicts and ties *)
(* ================================================================== *)

Section Conflicts.

Import Criteria ResultsAnalyzer Counts Props.


Lemma final_on_entries (this : ResultsAnalyzer.t) (a : string * Z)
  (rest : list (string * Z)) :
  Obj.sort by_count_descending
    (Obj.entries (fold_left tally (recommendations this) [])) = a :: rest ->
  let total := List.length (recommendations this) in
  let exact := (of_Z (snd a) / of_nat total * 100)%float in
  let hasTie :=
    (1 <? List.length (a :: rest))%nat
    && match nth_error (a :: rest) 1 with
       | Some e => (snd e =? snd a)%Z
       | None => false
       end in
  getFinalRecommendation this
  = ({| FinalRecommendation.strategy := Some (fst a);
        FinalRecommendation.frequency := snd a;
        FinalRecommendation.total := total;
        FinalRecommendation.percentage := Math_round exact;
        FinalRecommendation.confidence :=
          if le exact 30%float then low
          else if ge exact 70%float then high else medium;
        FinalRecommendation.hasTie := Some hasTie;
        FinalRecommendation.alternatives :=
          Some (if hasTie
                then map fst (filter (fun e => (snd e =? snd a)%Z) (a :: rest))
                else []) |}, this).
Proof.
  intros Hsort. unfold getFinalRecommendation. simpl.
  pose proof (sort_perm by_count_descending
                (Obj.entries (fold_left tally (recommendations this) [])))
    as Hperm.
  rewrite Hsort in *.
  destruct (Obj.entries (fold_left tally (recommendations this) []))
    as [|e es] eqn:Hes.
  - apply Permutation_sym, Permutation_nil in Hperm. discriminate.
  - simpl. destruct a as [strategy count]. reflexivity.
Qed.

Lemma final_on_empty (this : ResultsAnalyzer.t) :
  Obj.entries (fold_left tally (recommendations this) []) = [] ->
  getFinalRecommendation this
  = ({| FinalRecommendation.strategy := None;
        FinalRecommendation.frequency := 0%Z;
        FinalRecommendation.total := List.length (recommendations this);
        FinalRecommendation.percentage := 0%float;
        FinalRecommendation.confidence := low;
        FinalRecommendation.hasTie := None;
        FinalRecommendation.alternatives := None |}, this).
Proof.
  intros Hes. unfold getFinalRecommendation. simpl. now rewrite Hes.
Qed.



Lemma NoDup_keys_filter (f : string * Z -> bool) (l : list (string * Z)) :
  NoDup (map fst l) -> NoDup (map fst (filter f l)).
Proof.
  induction l as [|x rest IH]; simpl; intros Hnd; [constructor|].
  inversion Hnd as [|? ? Hnotin Hnd']; subst.
  destruct (f x); simpl; [|now apply IH].
  constructor; [|now apply IH].
  intros Hin. apply Hnotin. apply in_map_iff in Hin.
  destruct Hin as [y [Hy Hin]]. apply filter_In in Hin.
  apply in_map_iff. exists y. tauto.
Qed.



End Conflicts.

(* ================================================================== *)
(** * Integers in binary64 and [Math.round] *)
(* ================================================================== *)

Section Rounding.

Lemma digits_upper (m : positive) : (Zpos m < 2 ^ Zpos (digits2_pos m))%Z.
Proof.
  induction m as [m IH|m IH|]; simpl digits2_pos.
  - rewrite Pos2Z.inj_succ, Z.pow_succ_r by lia. lia.
  - rewrite Pos2Z.inj_succ, Z.pow_succ_r by lia. lia.
  - reflexivity.
Qed.

Lemma digits_lower (m : positive) : (2 ^ (Zpos (digits2_pos m) - 1) <= Zpos m)%Z.
Proof.
  induction m as [m IH|m IH|]; simpl digits2_pos.
  - rewrite Pos2Z.inj_succ.
    replace (Z.succ (Zpos (digits2_pos m)) - 1)%Z
      with (Z.succ (Zpos (digits2_pos m) - 1)) by lia.
    rewrite Z.pow_succ_r by lia. lia.
  - rewrite Pos2Z.inj_succ.
    replace (Z.succ (Zpos (digits2_pos m)) - 1)%Z
      with (Z.succ (Zpos (digits2_pos m) - 1)) by lia.
    rewrite Z.pow_succ_r by lia. lia.
  - simpl. lia.
Qed.

Lemma bounded_digits (m : positive) (e : Z) :
  bounded prec emax m e = true ->
  (Zpos (digits2_pos m) <= 53)%Z
  /\ ((-1074 < e)%Z -> Zpos (digits2_pos m) = 53%Z).
Proof.
  unfold bounded, canonical_mantissa, fexp, SpecFloat.emin, prec, emax.
  intros H. apply andb_prop in H. destruct H as [H _].
  apply Z.eqb_eq in H. lia.
Qed.

Lemma bounded_mantissa (m : positive) (e : Z) :
  bounded prec emax m e = true ->
  (Zpos m < 2 ^ 53)%Z /\ ((-1074 < e)%Z -> (2 ^ 52 <= Zpos m)%Z).
Proof.
  intros H. destruct (bounded_digits m e H) as [Hle Hnormal].
  pose proof (digits_upper m) as Hup. pose proof (digits_lower m) as Hlow.
  split.
  - apply Z.lt_le_trans with (1 := Hup). apply Z.pow_le_mono_r; lia.
  - intros He. rewrite (Hnormal He) in Hlow. exact Hlow.
Qed.



Lemma compare_cont_cases (p q : positive) :
  match Pos.compare_cont Eq p q with
  | Eq => p = q
  | Lt => (Zpos p < Zpos q)%Z
  | Gt => (Zpos q < Zpos p)%Z
  end.
Proof.
  change (Pos.compare_cont Eq p q) with (Pos.compare p q).
  destruct (Pos.compare_spec p q); [assumption | | ]; lia.
Qed.

Lemma iter_xO_shift (p n : positive) :
  Zpos (digits2_pos (Pos.iter xO p n)) = (Zpos (digits2_pos p) + Zpos n)%Z
  /\ Zpos (Pos.iter xO p n) = (Zpos p * 2 ^ Zpos n)%Z.
Proof.
  induction n as [|n [IHd IHv]] using Pos.peano_ind.
  - simpl. split; [rewrite Pos2Z.inj_succ|]; lia.
  - rewrite Pos.iter_succ. simpl digits2_pos.
    rewrite !Pos2Z.inj_succ, IHd, Z.pow_succ_r by lia.
    rewrite Pos2Z.inj_xO, IHv. split; lia.
Qed.

(** An integer below 2^53 is represented exactly: its mantissa is the
    integer shifted to 53 bits. *)
Lemma normalize_integer (p : positive) :
  (Zpos (digits2_pos p) <= 53)%Z ->
  exists mz,
    binary_normalize prec emax (Zpos p) 0 false
    = S754_finite false mz (Zpos (digits2_pos p) - 53)
    /\ Zpos mz = (Zpos p * 2 ^ (53 - Zpos (digits2_pos p)))%Z.
Proof.
  intros Hd. set (d := Zpos (digits2_pos p)) in *.
  assert (Hd1 : (1 <= d)%Z) by (subst d; lia).
  unfold binary_normalize, binary_round.
  assert (Hfexp : fexp prec emax (Zpos (digits2_pos p) + 0) = (d - 53)%Z).
  { unfold fexp, SpecFloat.emin, prec, emax. fold d. lia. }
  rewrite Hfexp. unfold shl_align.
  assert (Haux : forall mz,
             Zpos (digits2_pos mz) = 53%Z ->
             binary_round_aux prec emax false (Zpos mz) (d - 53) loc_Exact
             = S754_finite false mz (d - 53)).
  { intros mz Hmz. unfold binary_round_aux, shr_fexp. unfold Zdigits2.
    rewrite Hmz.
    assert (Hf : fexp prec emax (53 + (d - 53)) = (d - 53)%Z).
    { unfold fexp, SpecFloat.emin, prec, emax. lia. }
    rewrite Hf, Z.sub_diag.
    cbn [shr shr_record_of_loc shr_m loc_of_shr_record round_nearest_even].
    rewrite Hmz, Hf, Z.sub_diag.
    cbn [shr shr_record_of_loc shr_m].
    replace (d - 53 <=? emax - prec)%Z with true; [reflexivity|].
    symmetry. apply Z.leb_le. unfold emax, prec. lia. }
  destruct (d - 53 - 0)%Z as [|q|q] eqn:Hshift.
  - exists p. assert (Hd53 : d = 53%Z) by lia.
    replace 0%Z with (d - 53)%Z at 1 by lia.
    rewrite Haux by (fold d; exact Hd53).
    split; [reflexivity|]. rewrite Hd53. simpl. lia.
  - lia.
  - destruct (iter_xO_shift p q) as [Hdigits Hvalue].
    exists (Pos.iter xO p q).
    rewrite Haux by (rewrite Hdigits; fold d; lia).
    split; [reflexivity|]. rewrite Hvalue. f_equal. f_equal. lia.
Qed.

Lemma of_Z_positive (k : Z) :
  (0 < k < 2 ^ 53)%Z ->
  exists mz e,
    Prim2SF (of_Z k) = S754_finite false mz e
    /\ Zpos mz = (k * 2 ^ (- e))%Z
    /\ (-52 <= e <= 0)%Z
    /\ (2 ^ (52 + e) <= k < 2 ^ (53 + e))%Z.
Proof.
  intros Hk. destruct k as [|p|p]; try lia.
  unfold of_Z. rewrite of_uint63_spec.
  rewrite Uint63.of_Z_spec, Z.mod_small.
  2:{ split; [lia|]. apply Z.lt_trans with (2 ^ 53)%Z; [lia | reflexivity]. }
  pose proof (digits_upper p) as Hup. pose proof (digits_lower p) as Hlow.
  assert (Hd : (Zpos (digits2_pos p) <= 53)%Z).
  { destruct (Z.le_gt_cases (Zpos (digits2_pos p)) 53) as [H | H]; [exact H|].
    assert (2 ^ 53 <= 2 ^ (Zpos (digits2_pos p) - 1))%Z
      by (apply Z.pow_le_mono_r; lia).
    lia. }
  destruct (normalize_integer p Hd) as [mz [Hsf Hmz]].
  exists mz, (Zpos (digits2_pos p) - 53)%Z.
  split; [exact Hsf|]. split; [|split; [lia|]].
  - rewrite Hmz. f_equal. f_equal. lia.
  - replace (52 + (Zpos (digits2_pos p) - 53))%Z
      with (Zpos (digits2_pos p) - 1)%Z by lia.
    replace (53 + (Zpos (digits2_pos p) - 53))%Z
      with (Zpos (digits2_pos p)) by lia.
    lia.
Qed.



Lemma round_sign (m e : Z) (l : location) :
  match binary_round_aux prec emax false m e l with
  | S754_zero s | S754_infinity s | S754_finite s _ _ => s = false
  | S754_nan => True
  end.
Proof.
  unfold binary_round_aux.
  destruct (shr_fexp prec emax m e l) as [mrs' e'].
  destruct (shr_fexp prec emax _ e' loc_Exact) as [mrs'' e''].
  destruct (shr_m mrs''); [reflexivity | | exact I].
  now destruct (e'' <=? emax - prec)%Z.
Qed.

(** The opposite of a converted natural number is not [>= 31]. *)
Lemma of_Z_negative (q : positive) : ge (of_Z (Zneg q)) 31%float = false.
Proof.
  unfold ge, of_Z.
  rewrite FloatAxioms.leb_spec, opp_spec, of_uint63_spec.
  let v := eval vm_compute in (Prim2SF 31) in change (Prim2SF 31) with v.
  pose proof (Uint63.to_Z_bounded (Uint63.of_Z (Zpos q))) as Hbound.
  destruct (Uint63.to_Z (Uint63.of_Z (Zpos q))) as [|p|p]; [reflexivity | | lia].
  unfold binary_normalize, binary_round.
  destruct (shl_align p 0 _) as [mz ez].
  pose proof (round_sign (Zpos mz) ez loc_Exact) as Hsign.
  destruct (binary_round_aux prec emax false (Zpos mz) ez loc_Exact)
    as [s|s| |s m' e']; try subst s; reflexivity.
Qed.

Lemma pow2_lt_exponent (a b : Z) :
  (0 <= a)%Z -> (0 <= b)%Z -> (2 ^ a < 2 ^ b)%Z -> (a < b)%Z.
Proof.
  intros Ha Hb H. destruct (Z.lt_ge_cases a b) as [Hlt | Hge]; [exact Hlt|].
  assert (2 ^ b <= 2 ^ a)%Z by (apply Z.pow_le_mono_r; lia). lia.
Qed.

Lemma of_Z_low (k : Z) :
  (0 < k <= 30)%Z -> ge (of_Z k) 31%float = false.
Proof.
  intros Hk.
  destruct (of_Z_positive k) as [mz [e [Hsf [Hmz [He Hrange]]]]].
  { split; [lia|]. apply Z.le_lt_trans with 30%Z; [lia | reflexivity]. }
  unfold ge. rewrite FloatAxioms.leb_spec, Hsf.
  let v := eval vm_compute in (Prim2SF 31) in change (Prim2SF 31) with v.
  assert (Hexp : (52 + e < 5)%Z).
  { apply pow2_lt_exponent; lia. }
  unfold SFleb, SFcompare.
  destruct (Z.compare_spec (-48) e) as [Heq | Hlt | Hgt]; [|lia|reflexivity].
  subst e. change (- -48)%Z with 48%Z in Hmz.
  change (2 ^ 48)%Z with 281474976710656%Z in Hmz.
  pose proof (compare_cont_cases 8725724278030336 mz) as Hc.
  destruct (Pos.compare_cont Eq 8725724278030336 mz);
    [exfalso; lia | exfalso; lia | reflexivity].
Qed.

Lemma of_Z_high (k : Z) :
  (70 <= k < 2 ^ 53)%Z -> le (of_Z k) 69%float = false.
Proof.
  intros Hk.
  destruct (of_Z_positive k) as [mz [e [Hsf [Hmz [He Hrange]]]]]; [lia|].
  unfold le. rewrite FloatAxioms.leb_spec, Hsf.
  let v := eval vm_compute in (Prim2SF 69) in change (Prim2SF 69) with v.
  assert (Hexp : (6 < 53 + e)%Z).
  { apply pow2_lt_exponent; lia. }
  unfold SFleb, SFcompare.
  destruct (Z.compare_spec e (-46)) as [Heq | Hlt | Hgt]; [|lia|reflexivity].
  subst e. change (- -46)%Z with 46%Z in Hmz.
  change (2 ^ 46)%Z with 70368744177664%Z in Hmz.
  pose proof (compare_cont_cases mz 4855443348258816) as Hc.
  destruct (Pos.compare_cont Eq mz 4855443348258816);
    [exfalso; lia | exfalso; lia | reflexivity].
Qed.



Lemma low_self (x : number) :
  le x 30%float = true -> ge x 31%float = false.
Proof.
  intros Hlow. destruct (ge x 31%float) eqn:Hge; [|reflexivity].
  pose proof (le_trans 31%float x 30%float Hge Hlow) as H.
  vm_compute in H. discriminate.
Qed.

Lemma high_self (x : number) :
  ge x 70%float = true -> le x 69%float = false.
Proof.
  intros Hhigh. destruct (le x 69%float) eqn:Hle; [|reflexivity].
  pose proof (le_trans 70%float x 69%float Hhigh Hle) as H.
  vm_compute in H. discriminate.
Qed.

(** The integer of [Math.round] for a negative exponent:
    [floor ((2 m + 2^-e) / 2^(1 - e))]. *)
Lemma round_quotient (twice e : Z) :
  (e < 0)%Z ->
  Z.shiftr (twice + Z.shiftl 1 (- e)) (1 - e)
  = ((twice + 2 ^ (- e)) / (2 * 2 ^ (- e)))%Z.
Proof.
  intros He. rewrite Z.shiftr_div_pow2 by lia.
  rewrite Z.shiftl_1_l.
  replace (1 - e)%Z with (Z.succ (- e)) by lia.
  now rewrite Z.pow_succ_r by lia.
Qed.

Lemma round_low (x : number) :
  le x 30%float = true -> ge (Math_round x) 31%float = false.
Proof.
  intros Hlow. pose proof (low_self x Hlow) as Hself.
  pose proof (Prim2SF_valid x) as Hvalid.
  unfold le in Hlow. rewrite FloatAxioms.leb_spec in Hlow.
  unfold Math_round.
  destruct (Prim2SF x) as [s|s| |s m e]; try exact Hself.
  destruct (0 <=? e)%Z eqn:He; [exact Hself|].
  apply Z.leb_gt in He.
  rewrite round_quotient by exact He.
  destruct (bounded_mantissa m e Hvalid) as [Hm _].
  assert (HP : (2 <= 2 ^ (- e))%Z).
  { change 2%Z with (2 ^ 1)%Z at 1. apply Z.pow_le_mono_r; lia. }
  set (P := (2 ^ (- e))%Z) in *.
  set (k := ((_ + P) / (2 * P))%Z).
  destruct (Z.eqb_spec k 0) as [Hk0 | Hk0]; [now destruct s|].
  destruct (Z.lt_trichotomy k 0) as [Hneg | [Hzero | Hpos]]; [|contradiction|].
  - destruct k as [|p|q]; try lia. apply of_Z_negative.
  - apply of_Z_low. split; [exact Hpos|].
    destruct s.
    + exfalso. assert (k < 1)%Z; [|lia].
      subst k. apply Z.div_lt_upper_bound; [lia|].
      change (Zneg m~0) with (- (2 * Zpos m))%Z. lia.
    + let v := eval vm_compute in (Prim2SF 30) in
        change (Prim2SF 30) with v in Hlow.
      unfold SFleb, SFcompare in Hlow.
      assert (k < 31)%Z; [|lia].
      subst k. apply Z.div_lt_upper_bound; [lia|].
      change (Zpos m~0) with (2 * Zpos m)%Z.
      destruct (Z.compare_spec e (-48)) as [Heq | Hlt | Hgt];
        [| |discriminate].
      * assert (Zpos m <= 8444249301319680)%Z.
        { pose proof (compare_cont_cases m 8444249301319680) as Hc.
          destruct (Pos.compare_cont Eq m 8444249301319680);
            [lia | lia | discriminate]. }
        subst P e. change (2 ^ (- -48))%Z with 281474976710656%Z. lia.
      * assert (2 ^ 49 <= P)%Z by (subst P; apply Z.pow_le_mono_r; lia).
        change (2 ^ 53)%Z with 9007199254740992%Z in Hm.
        change (2 ^ 49)%Z with 562949953421312%Z in *. lia.
Qed.

Lemma round_high (x : number) :
  ge x 70%float = true -> le (Math_round x) 69%float = false.
Proof.
  intros Hhigh. pose proof (high_self x Hhigh) as Hself.
  pose proof (Prim2SF_valid x) as Hvalid.
  unfold ge in Hhigh. rewrite FloatAxioms.leb_spec in Hhigh.
  unfold Math_round.
  destruct (Prim2SF x) as [s|s| |s m e]; try exact Hself.
  destruct (0 <=? e)%Z eqn:He; [exact Hself|].
  apply Z.leb_gt in He.
  let v := eval vm_compute in (Prim2SF 70) in
    change (Prim2SF 70) with v in Hhigh.
  unfold SFleb, SFcompare in Hhigh.
  destruct s; [discriminate|].
  rewrite round_quotient by exact He.
  assert (Hexp : (-46 <= e)%Z).
  { destruct (Z.compare_spec (-46) e); first [lia | discriminate]. }
  destruct (bounded_mantissa m e Hvalid) as [Hm Hnormal].
  specialize (Hnormal ltac:(lia)).
  assert (HP : (2 <= 2 ^ (- e))%Z).
  { change 2%Z with (2 ^ 1)%Z at 1. apply Z.pow_le_mono_r; lia. }
  assert (HP' : (2 ^ (- e) <= 2 ^ 46)%Z) by (apply Z.pow_le_mono_r; lia).
  change (Zpos m~0) with (2 * Zpos m)%Z.
  change (2 ^ 53)%Z with 9007199254740992%Z in Hm.
  change (2 ^ 52)%Z with 4503599627370496%Z in Hnormal.
  change (2 ^ 46)%Z with 70368744177664%Z in HP'.
  assert (Hk : (70 <= (2 * Zpos m + 2 ^ (- e)) / (2 * 2 ^ (- e))
                < 9007199254740992)%Z).
  { split.
    - apply Z.div_le_lower_bound; [lia|].
      destruct (Z.compare_spec (-46) e) as [Heq | Hlt | Hgt];
        [| |discriminate].
      + assert (4925812092436480 <= Zpos m)%Z.
        { pose proof (compare_cont_cases 4925812092436480 m) as Hc.
          destruct (Pos.compare_cont Eq 4925812092436480 m);
            [lia | lia | discriminate]. }
        subst e. change (2 ^ (- -46))%Z with 70368744177664%Z. lia.
      + assert (2 ^ (- e) <= 2 ^ 45)%Z by (apply Z.pow_le_mono_r; lia).
        change (2 ^ 45)%Z with 35184372088832%Z in *. lia.
    - apply Z.div_lt_upper_bound; lia. }
  set (k := ((2 * Zpos m + 2 ^ (- e)) / (2 * 2 ^ (- e)))%Z) in *.
  destruct (Z.eqb_spec k 0) as [Hk0 | Hk0]; [lia|].
  apply of_Z_high. change (2 ^ 53)%Z with 9007199254740992%Z. exact Hk.
Qed.

(** A reported percentage between 31 and 69 comes from a value that is
    neither [<= 30] nor [>= 70]. *)
Lemma rounded_band (x : number) :
  ge (Math_round x) 31%float = true ->
  le (Math_round x) 69%float = true ->
  le x 30%float = false /\ ge x 70%float = false.
Proof.
  intros Hlow Hhigh. split.
  - destruct (le x 30%float) eqn:H; [|reflexivity].
    rewrite (round_low x H) in Hlow. discriminate.
  - destruct (ge x 70%float) eqn:H; [|reflexivity].
    rewrite (round_high x H) in Hhigh. discriminate.
Qed.

End Rounding.

(* ================================================================== *)
(** * Percentage and confidence *)
(* ================================================================== *)

Section Confidence.

Import Criteria ResultsAnalyzer Counts Props.

(** No number is both [>= 70] and [<= 30]: the two tests of
    [getFinalRecommendation] never both succeed. *)
Lemma high_excludes_low (x : number) :
  ge x 70%float = true -> le x 30%float = true -> False.
Proof.
  unfold ge, le. rewrite !FloatAxioms.leb_spec.
  let v := eval vm_compute in (Prim2SF 70) in change (Prim2SF 70) with v.
  let v := eval vm_compute in (Prim2SF 30) in change (Prim2SF 30) with v.
  unfold SFleb, SFcompare.
  destruct (Prim2SF x) as [s|s| |s m e]; try destruct s; try discriminate.
  destruct (Z.compare_spec (-46) e), (Z.compare_spec e (-48));
    try discriminate; lia.
Qed.

Lemma confidence_order (x : number) :
  (if le x 30%float then low
   else if ge x 70%float then high else medium)
  = (if ge x 70%float then high
     else if le x 30%float then low else medium).
Proof.
  destruct (ge x 70%float) eqn:Hhigh, (le x 30%float) eqn:Hlow;
    try reflexivity.
  destruct (high_excludes_low x Hhigh Hlow).
Qed.

(** Over integer counts: the winner, its percentage and the confidence. *)
Lemma counts_percentage_and_confidence (this : ResultsAnalyzer.t) :
  result getFrequencyAnalysis this <> [] ->
  let frequency := result getFrequencyAnalysis this in
  let final := result getFinalRecommendation this in
  let total := List.length (recommendations this) in
  let winnerCount := FinalRecommendation.frequency final in
  let exact := (of_Z winnerCount / of_nat total * 100)%float in
  (exists winner,
      FinalRecommendation.strategy final = Some winner
      /\ Obj.lookup frequency winner = Some winnerCount)
  /\ (forall s c, Obj.lookup frequency s = Some c -> (c <= winnerCount)%Z)
  /\ FinalRecommendation.total final = total
  /\ FinalRecommendation.percentage final = Math_round exact
  /\ FinalRecommendation.confidence final
     = (if ge exact 70%float then high
        else if le exact 30%float then low else medium)
  /\ (ge (FinalRecommendation.percentage final) 31%float = true ->
      le (FinalRecommendation.percentage final) 69%float = true ->
      FinalRecommendation.confidence final = medium).
Proof.
  intros Hne. unfold result in *. simpl in Hne.
  set (fr := fold_left tally (recommendations this) []) in *.
  pose proof (entries_perm fr) as Hentries.
  pose proof (sort_perm by_count_descending (Obj.entries fr)) as Hperm.
  pose proof (sort_descending (Obj.entries fr)) as Hsorted.
  assert (Hnd : NoDup (map fst fr)).
  { now destruct (@tally_invariant (recommendations this) [])
      as [Hnd _]; [constructor | constructor |]. }
  destruct (Obj.sort by_count_descending (Obj.entries fr))
    as [|a rest] eqn:Hsort.
  - apply Permutation_nil in Hperm. rewrite Hperm in Hentries.
    apply Permutation_nil in Hentries. contradiction.
  - rewrite (final_on_entries this a rest Hsort). simpl.
    split; [|split; [|split; [|split; [|split]]]]; try reflexivity.
    + exists (fst a). split; [reflexivity|].
      apply In_lookup; [exact Hnd|].
      apply (Permutation_in _ Hentries), (Permutation_in _ Hperm).
      destruct a. now left.
    + intros s c Hs. apply lookup_In in Hs.
      apply (Permutation_in _ (Permutation_sym Hentries)) in Hs.
      apply (Permutation_in _ (Permutation_sym Hperm)) in Hs.
      destruct Hs as [-> | Hs]; [simpl; lia|].
      inversion Hsorted as [|? ? _ Hall]; subst.
      rewrite Forall_forall in Hall. exact (Hall (s, c) Hs).
    + apply confidence_order.
    + intros Hlow Hhigh.
      destruct (rounded_band _ Hlow Hhigh) as [Hnot_low Hnot_high].
      now rewrite Hnot_low, Hnot_high.
Qed.

End Confidence.

(* ================================================================== *)
(** * The model on the demonstration data *)
(* ================================================================== *)

Section Scenarios.

Import DecisionMatrix Criteria ResultsAnalyzer Props.

Example wald_on_scenario :
  calculate WaldCriterion Examples.scenario
  = Normal {| values := [320; 300; 200; 300]%float;
              optimalIndex := 0;
              optimalValue := 320%float;
              strategy := "Регион A";
              type := wald |}.
Proof. vm_compute. reflexivity. Qed.

Example maximax_on_scenario :
  calculate MaximaxCriterion Examples.scenario
  = Normal {| values := [780; 900; 950; 850]%float;
              optimalIndex := 2;
              optimalValue := 950%float;
              strategy := "Регион C";
              type := maximax |}.
Proof. vm_compute. reflexivity. Qed.

Example savage_on_scenario :
  calculate SavageCriterion Examples.scenario
  = Normal {| values := [580; 550; 650; 400]%float;
              optimalIndex := 3;
              optimalValue := 400%float;
              strategy := "Регион D";
              type := savage |}.
Proof. vm_compute. reflexivity. Qed.

Example hurwitz_on_scenario :
  calculate (HurwitzCriterion 0.5%float) Examples.scenario
  = Normal {| values := [550; 600; 575; 575]%float;
              optimalIndex := 1;
              optimalValue := 600%float;
              strategy := "Регион B";
              type := hurwitz |}.
Proof. vm_compute. reflexivity. Qed.

Example bayes_quarter_on_scenario :
  scores (calculate (BayesCriterion (Some [0.25; 0.25; 0.25; 0.25]%float))
            Examples.scenario)
  = Normal [560; 575; 550; 550]%float
  /\ scores (calculate LaplaceCriterion Examples.scenario)
     = Normal [560; 575; 550; 550]%float.
Proof. split; vm_compute; reflexivity. Qed.

Example three_of_four_is_high :
  result getFrequencyAnalysis Examples.three_of_4
  = [("Регион A"%string, Obj.Count 3); ("Регион B"%string, Obj.Count 1)]
  /\ result getFinalRecommendation Examples.three_of_4
     = {| FinalRecommendation.strategy := Some "Регион A"%string;
          FinalRecommendation.frequency := Obj.Count 3;
          FinalRecommendation.total := 4;
          FinalRecommendation.percentage := 75%float;
          FinalRecommendation.confidence := high;
          FinalRecommendation.hasTie := Some false;
          FinalRecommendation.alternatives := Some [] |}.
Proof. split; vm_compute; reflexivity. Qed.

Example two_two_is_a_tie :
  result hasConflicts Examples.two_two = true
  /\ FinalRecommendation.hasTie
       (result getFinalRecommendation Examples.two_two) = Some true
  /\ FinalRecommendation.alternatives
       (result getFinalRecommendation Examples.two_two)
     = Some ["Регион A"%string; "Регион B"%string]
  /\ FinalRecommendation.percentage
       (result getFinalRecommendation Examples.two_two) = 40%float.
Proof. repeat split; vm_compute; reflexivity. Qed.

(** Binary64 rounding shows in the reported percentage: 29 recommendations
    out of 200 give [29 / 200 * 100 = 14.499999999999998], reported as 14. *)
Example twenty_nine_of_200 :
  (of_Z 29 / of_nat 200 * 100)%float = 0x1.cffffffffffffp+3%float
  /\ Math_round (of_Z 29 / of_nat 200 * 100)%float = 14%float.
Proof. split; vm_compute; reflexivity. Qed.

End Scenarios.

(* ================================================================== *)
(** * More on binary64 comparisons *)
(* ================================================================== *)

Section Comparisons.

Lemma nan_spec (x : number) : is_nan x = true -> Prim2SF x = S754_nan.
Proof.
  unfold is_nan. rewrite FloatAxioms.eqb_spec. unfold SFeqb.
  destruct (Prim2SF x) as [s|s| |s m e] eqn:Hx; try reflexivity;
    rewrite SFcompare_refl by discriminate; discriminate.
Qed.

Lemma equals_refl (x : number) : is_nan x = false -> strict_equals x x = true.
Proof.
  intros Hx. unfold strict_equals. rewrite FloatAxioms.eqb_spec. unfold SFeqb.
  now rewrite SFcompare_refl by now apply not_nan_spec.
Qed.

Lemma equals_nan (x y : number) :
  is_nan y = true -> strict_equals x y = false.
Proof.
  intros Hy. unfold strict_equals. rewrite FloatAxioms.eqb_spec.
  rewrite (nan_spec y Hy). unfold SFeqb.
  now destruct (Prim2SF x) as [s|s| |s m e].
Qed.

Lemma equals_le (x y : number) : strict_equals x y = true -> le x y = true.
Proof.
  unfold strict_equals, le.
  rewrite FloatAxioms.eqb_spec, FloatAxioms.leb_spec.
  unfold SFeqb, SFleb. now destruct (SFcompare _ _) as [[| |]|].
Qed.

Lemma le_numbers (x y : number) :
  le x y = true -> is_nan x = false /\ is_nan y = false.
Proof.
  unfold le. rewrite FloatAxioms.leb_spec. intros H.
  split.
  - destruct (is_nan x) eqn:Hx; [|reflexivity].
    rewrite (nan_spec x Hx) in H. discriminate.
  - destruct (is_nan y) eqn:Hy; [|reflexivity].
    rewrite (nan_spec y Hy) in H. unfold SFleb in H.
    now destruct (Prim2SF x) as [s|s| |s m e].
Qed.

Lemma le_neg_infinity (x : number) :
  le x neg_infinity = true -> strict_equals x neg_infinity = true.
Proof.
  unfold le, strict_equals.
  rewrite FloatAxioms.leb_spec, FloatAxioms.eqb_spec.
  replace (Prim2SF neg_infinity) with (S754_infinity true)
    by (vm_compute; reflexivity).
  destruct (Prim2SF x) as [s|s| |s m e]; try destruct s; simpl;
    intros H; try discriminate; reflexivity.
Qed.

Lemma infinity_le (x : number) :
  le infinity x = true -> strict_equals x infinity = true.
Proof.
  unfold le, strict_equals.
  rewrite FloatAxioms.leb_spec, FloatAxioms.eqb_spec.
  replace (Prim2SF infinity) with (S754_infinity false)
    by (vm_compute; reflexivity).
  destruct (Prim2SF x) as [s|s| |s m e]; try destruct s; simpl;
    intros H; try discriminate; reflexivity.
Qed.

(** [Math.max] and [Math.min] return [NaN] as soon as one argument is. *)
Lemma max_from_nan (args : list number) :
  Exists (fun x => is_nan x = true) args ->
  forall highest, is_nan (max_from highest args) = true.
Proof.
  induction args as [|x rest IH]; intros Hex highest.
  - inversion Hex.
  - simpl. destruct (is_nan x) eqn:Hx; [reflexivity|].
    apply IH. inversion Hex as [? ? H|? ? H]; subst; [congruence | exact H].
Qed.

Lemma min_from_nan (args : list number) :
  Exists (fun x => is_nan x = true) args ->
  forall lowest, is_nan (min_from lowest args) = true.
Proof.
  induction args as [|x rest IH]; intros Hex lowest.
  - inversion Hex.
  - simpl. destruct (is_nan x) eqn:Hx; [reflexivity|].
    apply IH. inversion Hex as [? ? H|? ? H]; subst; [congruence | exact H].
Qed.

(** Without a [NaN], what they return is the start value or one of the
    arguments. *)
Lemma max_from_attained (args : list number) :
  Forall (fun x => is_nan x = false) args ->
  forall highest,
    max_from highest args = highest \/ In (max_from highest args) args.
Proof.
  induction 1 as [|x rest Hx Hrest IH]; intros highest; simpl.
  - now left.
  - rewrite Hx.
    destruct (is_pos_zero x && is_neg_zero highest).
    + destruct (IH x) as [-> | Hin]; [right; now left | right; now right].
    + destruct (highest <? x)%float.
      * destruct (IH x) as [-> | Hin]; [right; now left | right; now right].
      * destruct (IH highest) as [-> | Hin]; [now left | right; now right].
Qed.

Lemma min_from_attained (args : list number) :
  Forall (fun x => is_nan x = false) args ->
  forall lowest,
    min_from lowest args = lowest \/ In (min_from lowest args) args.
Proof.
  induction 1 as [|x rest Hx Hrest IH]; intros lowest; simpl.
  - now left.
  - rewrite Hx.
    destruct (is_neg_zero x && is_pos_zero lowest).
    + destruct (IH x) as [-> | Hin]; [right; now left | right; now right].
    + destruct (x <? lowest)%float.
      * destruct (IH x) as [-> | Hin]; [right; now left | right; now right].
      * destruct (IH lowest) as [-> | Hin]; [now left | right; now right].
Qed.

(** Some argument is [===] to the maximum of a non-empty list of numbers. *)
Lemma Math_max_attained (x : number) (rest : list number) :
  Forall (fun v => is_nan v = false) (x :: rest) ->
  exists v, In v (x :: rest)
            /\ strict_equals v (Math_max (x :: rest)) = true.
Proof.
  intros Hnum.
  destruct (max_from_bound (x :: rest) Hnum neg_infinity eq_refl)
    as [Hres [_ Hall]].
  destruct (max_from_attained (x :: rest) Hnum neg_infinity) as [Heq | Hin].
  - exists x. split; [now left|].
    inversion Hall as [|? ? Hx _]; subst.
    unfold Math_max. rewrite Heq in *. now apply le_neg_infinity.
  - exists (Math_max (x :: rest)). split; [exact Hin|].
    now apply equals_refl.
Qed.

Lemma Math_min_attained (x : number) (rest : list number) :
  Forall (fun v => is_nan v = false) (x :: rest) ->
  exists v, In v (x :: rest)
            /\ strict_equals v (Math_min (x :: rest)) = true.
Proof.
  intros Hnum.
  destruct (min_from_bound (x :: rest) Hnum infinity eq_refl)
    as [Hres [_ Hall]].
  destruct (min_from_attained (x :: rest) Hnum infinity) as [Heq | Hin].
  - exists x. split; [now left|].
    inversion Hall as [|? ? Hx _]; subst.
    unfold Math_min. rewrite Heq in *. now apply infinity_le.
  - exists (Math_min (x :: rest)). split; [exact Hin|].
    now apply equals_refl.
Qed.

Lemma indexOf_from_range (l : list number) (x : number) (start : Z) :
  indexOf_from start l x = (-1)%Z
  \/ (start <= indexOf_from start l x < start + Z.of_nat (List.length l))%Z.
Proof.
  revert start. induction l as [|y rest IH]; intros start; simpl.
  - now left.
  - destruct (strict_equals y x).
    + right. lia.
    + destruct (IH (start + 1)%Z) as [-> | H]; [now left | right; lia].
Qed.

Lemma indexOf_from_missing (l : list number) (x : number) (start : Z) :
  (forall v, In v l -> strict_equals v x = false) ->
  indexOf_from start l x = (-1)%Z.
Proof.
  revert start. induction l as [|y rest IH]; intros start Hno; simpl.
  - reflexivity.
  - rewrite (Hno y) by now left. apply IH. intros v Hv. apply Hno. now right.
Qed.

Lemma exists_nan_dec (l : list number) :
  Exists (fun v => is_nan v = true) l \/ Forall (fun v => is_nan v = false) l.
Proof.
  induction l as [|x rest [IH | IH]].
  - right. constructor.
  - left. now right.
  - destruct (is_nan x) eqn:Hx.
    + left. now left.
    + right. now constructor.
Qed.

End Comparisons.

(* ================================================================== *)
(** * The shape of a result *)
(* ================================================================== *)

Section ResultShape.

Import DecisionMatrix Criteria Props.

Lemma collect_length {A B : Type} (body : A -> completion B)
  (indices : list A) (vs : list B) :
  collect body indices = Normal vs -> List.length vs = List.length indices.
Proof.
  revert vs. induction indices as [|i rest IH]; intros vs; simpl.
  - intros H. injection H as <-. reflexivity.
  - destruct (body i) as [v|e]; simpl; [|discriminate].
    destruct (collect body rest) as [ws|e]; simpl; [|discriminate].
    intros H. injection H as <-. simpl. f_equal. now apply IH.
Qed.

Lemma for_push_length {B : Type} (n : nat) (body : nat -> completion B)
  (vs : list B) :
  for_push n body = Normal vs -> List.length vs = n.
Proof.
  unfold for_push. intros H. apply collect_length in H.
  now rewrite length_seq in H.
Qed.

Lemma calculate_length (criterion : Criterion) (matrix : DecisionMatrix.t)
  (r : CriterionResult) :
  calculate criterion matrix = Normal r ->
  List.length (values r) = strategiesCount matrix.
Proof.
  destruct criterion; simpl;
    unfold calculate_wald, calculate_maximax, calculate_savage,
      calculate_hurwitz, calculate_bayes, calculate_laplace;
    unfold mbind, ret; simpl;
    match goal with
    | |- JS.bind ?c _ = _ -> _ => destruct c as [vs|e] eqn:Hvs
    end; simpl; intros H; try discriminate;
    injection H as <-; simpl; now apply for_push_length in Hvs.
Qed.

Lemma objective_nan (criterion : Criterion) (values : list number) :
  Exists (fun v => is_nan v = true) values ->
  is_nan (objective criterion values) = true.
Proof.
  intros Hex.
  destruct criterion; simpl;
    solve [ now apply max_from_nan | now apply min_from_nan ].
Qed.

Lemma objective_attained (criterion : Criterion) (x : number)
  (rest : list number) :
  Forall (fun v => is_nan v = false) (x :: rest) ->
  exists v, In v (x :: rest)
            /\ strict_equals v (objective criterion (x :: rest)) = true.
Proof.
  intros Hnum.
  destruct criterion; simpl;
    solve [ now apply Math_max_attained | now apply Math_min_attained ].
Qed.

(** X1.  Whenever a criterion returns, it reports one score per declared
    strategy, and its optimal index is [-1] or the position of one of those
    scores; the index is [-1] exactly when, with at least one strategy, some
    score is [NaN], and then the recommendation is the undetermined
    sentinel. *)
Theorem index_undetermined_iff_nan_score (criterion : Criterion)
  (matrix : DecisionMatrix.t) (r : CriterionResult) :
  calculate criterion matrix = Normal r ->
  List.length (values r) = strategiesCount matrix
  /\ (optimalIndex r = (-1)%Z
      \/ (0 <= optimalIndex r < Z.of_nat (strategiesCount matrix))%Z)
  /\ (optimalIndex r = (-1)%Z -> strategy r = undetermined)
  /\ (0 < strategiesCount matrix ->
      (optimalIndex r = (-1)%Z
       <-> Exists (fun v => is_nan v = true) (values r))).
Proof.
  intros Hrun.
  pose proof (calculate_length criterion matrix r Hrun) as Hlen.
  destruct (calculate_shape criterion matrix r Hrun) as [Hvalue [Hindex Hname]].
  split; [exact Hlen|].
  assert (Hrange : optimalIndex r = (-1)%Z
                   \/ (0 <= optimalIndex r
                       < Z.of_nat (strategiesCount matrix))%Z).
  { rewrite Hindex, <- Hlen. unfold indexOf.
    destruct (indexOf_from_range (values r) (optimalValue r) 0) as [H | H];
      [now left | right; lia]. }
  split; [exact Hrange|].
  split.
  { intros Hminus. rewrite Hname, Hminus. reflexivity. }
  intros Hpos. split.
  - intros Hminus.
    destruct (exists_nan_dec (values r)) as [Hex | Hnum]; [exact Hex|].
    exfalso.
    destruct (values r) as [|x rest] eqn:Hvs; [simpl in Hlen; lia|].
    destruct (objective_attained criterion x rest Hnum) as [v [Hin Heq]].
    rewrite <- Hvalue in Heq.
    destruct (In_nth_error _ _ Hin) as [k Hk].
    destruct (indexOf_from_first (x :: rest) (optimalValue r) 0 k v Hk Heq)
      as [first [Hidx _]].
    fold (indexOf (x :: rest) (optimalValue r)) in Hidx.
    rewrite <- Hindex in Hidx. lia.
  - intros Hex. rewrite Hindex. apply indexOf_from_missing.
    intros v _. apply equals_nan. rewrite Hvalue.
    now apply objective_nan.
Qed.

Lemma index_undetermined_iff_nan_score_witness :
  List.length (values Examples.tied_wald) = 3
  /\ (optimalIndex Examples.tied_wald = (-1)%Z
      \/ (0 <= optimalIndex Examples.tied_wald < 3)%Z).
Proof.
  destruct (index_undetermined_iff_nan_score WaldCriterion Examples.tied
              Examples.tied_wald) as [Hlen [Hrange _]].
  - vm_compute. reflexivity.
  - split; [exact Hlen | exact Hrange].
Defined.

End ResultShape.

(* ================================================================== *)
(** * Rows and columns *)
(* ================================================================== *)

Section RowsAndColumns.

Import DecisionMatrix Criteria Props Terms.

Lemma extremes_bound (row : list number) :
  Forall (fun x => is_nan x = false) row ->
  is_nan (Math_min row) = false
  /\ is_nan (Math_max row) = false
  /\ Forall (fun x => le (Math_min row) x = true /\ le x (Math_max row) = true)
       row.
Proof.
  intros Hnum.
  destruct (min_from_bound row Hnum infinity eq_refl) as [Hmin [_ Hlow]].
  destruct (max_from_bound row Hnum neg_infinity eq_refl) as [Hmax [_ Hhigh]].
  repeat split; try assumption.
  rewrite Forall_forall in *. intros x Hx. split; [now apply Hlow | now apply Hhigh].
Qed.

Lemma validate_row (matrix : DecisionMatrix.t) (i : nat) (row : list number) :
  validate matrix = true ->
  nth_error (data matrix) i = Some row ->
  Forall (fun x => is_nan x = false) row.
Proof.
  unfold validate. rewrite forallb_forall. intros Hall Hrow.
  apply nth_error_In in Hrow. specialize (Hall row Hrow).
  rewrite forallb_forall in Hall. rewrite Forall_forall. intros x Hx.
  specialize (Hall x Hx). now destruct (is_nan x).
Qed.

Lemma rectangular_row (matrix : DecisionMatrix.t) (i : nat) :
  rectangular matrix ->
  i < strategiesCount matrix ->
  exists row, nth_error (data matrix) i = Some row
              /\ List.length row = statesCount matrix.
Proof.
  intros [Hrows Hcols] Hi.
  destruct (nth_error (data matrix) i) as [row|] eqn:Hrow.
  - exists row. split; [reflexivity|].
    rewrite Forall_forall in Hcols. apply Hcols.
    now apply nth_error_In in Hrow.
  - apply nth_error_None in Hrow. lia.
Qed.

(** X2.  On a matrix that holds exactly its declared rows and columns,
    every cell of them present (no row has a hole), and that [validate]
    accepts, [getRowMin] and [getRowMax] of a declared strategy are
    numbers, every cell of its row lies between them, and with at least
    one state the minimum is not above the maximum. *)
Theorem row_extremes_bound_cells (matrix : DecisionMatrix.t) (i : nat) :
  rectangular matrix ->
  validate matrix = true ->
  i < strategiesCount matrix ->
  is_nan (getRowMin matrix i) = false
  /\ is_nan (getRowMax matrix i) = false
  /\ (forall j, j < statesCount matrix ->
        exists x, cell matrix i j = Some x
                  /\ le (getRowMin matrix i) x = true
                  /\ le x (getRowMax matrix i) = true)
  /\ (0 < statesCount matrix ->
      le (getRowMin matrix i) (getRowMax matrix i) = true).
Proof.
  intros Hrect Hvalid Hi.
  destruct (rectangular_row matrix i Hrect Hi) as [row [Hrow Hlen]].
  pose proof (validate_row matrix i row Hvalid Hrow) as Hnum.
  destruct (extremes_bound row Hnum) as [Hmin [Hmax Hall]].
  rewrite Forall_forall in Hall.
  unfold cell, getRowMin, getRowMax. rewrite Hrow.
  assert (Hcell : forall j, j < statesCount matrix ->
            exists x, nth_error row j = Some x
                      /\ le (Math_min row) x = true
                      /\ le x (Math_max row) = true).
  { intros j Hj. destruct (nth_error row j) as [x|] eqn:Hx.
    - exists x. split; [reflexivity|].
      apply Hall. now apply nth_error_In in Hx.
    - apply nth_error_None in Hx. lia. }
  split; [exact Hmin|]. split; [exact Hmax|]. split; [exact Hcell|].
  intros HN. destruct (Hcell 0 HN) as [x [_ [Hlow Hhigh]]].
  now apply le_trans with (y := x).
Qed.

Lemma row_extremes_bound_cells_witness :
  is_nan (getRowMin Examples.scenario 1) = false
  /\ is_nan (getRowMax Examples.scenario 1) = false
  /\ le (getRowMin Examples.scenario 1) (getRowMax Examples.scenario 1)
     = true.
Proof.
  destruct (row_extremes_bound_cells Examples.scenario 1)
    as [Hmin [Hmax [_ Horder]]].
  - split; [reflexivity|]. repeat constructor.
  - reflexivity.
  - simpl. lia.
  - split; [exact Hmin|]. split; [exact Hmax|]. apply Horder. simpl. lia.
Defined.

Lemma collect_Forall2 {A B C : Type} (R : B -> C -> Prop)
  (body1 : A -> completion B) (body2 : A -> completion C)
  (indices : list A) (vs : list B) (ws : list C) :
  (forall i v w, In i indices -> body1 i = Normal v -> body2 i = Normal w ->
                 R v w) ->
  collect body1 indices = Normal vs ->
  collect body2 indices = Normal ws ->
  Forall2 R vs ws.
Proof.
  revert vs ws. induction indices as [|i rest IH]; intros vs ws Hbody; simpl.
  - intros H1 H2. injection H1 as <-. injection H2 as <-. constructor.
  - destruct (body1 i) as [v|e] eqn:H1; simpl; [|discriminate].
    destruct (collect body1 rest) as [vs'|e]; simpl; [|discriminate].
    destruct (body2 i) as [w|e] eqn:H2; simpl; [|discriminate].
    destruct (collect body2 rest) as [ws'|e]; simpl; [|discriminate].
    intros Hv Hw. injection Hv as <-. injection Hw as <-.
    constructor.
    + apply (Hbody i); [now left | exact H1 | exact H2].
    + apply IH; try reflexivity.
      intros k v' w' Hk. apply Hbody. now right.
Qed.

(** X3.  On a matrix that holds exactly its declared rows and columns,
    every cell of them present (no row has a hole) and at least one state
    among them, and that [validate] accepts, the score Wald gives a
    strategy is never above the score Maximax gives it. *)
Theorem wald_score_below_maximax (matrix : DecisionMatrix.t)
  (pessimist optimist : CriterionResult) :
  rectangular matrix ->
  validate matrix = true ->
  0 < statesCount matrix ->
  calculate WaldCriterion matrix = Normal pessimist ->
  calculate MaximaxCriterion matrix = Normal optimist ->
  Forall2 (fun low high => le low high = true)
    (values pessimist) (values optimist).
Proof.
  intros Hrect Hvalid HN.
  assert (Hcells : forall row, In row (data matrix) -> row <> []).
  { destruct Hrect as [_ Hcols]. rewrite Forall_forall in Hcols.
    intros row Hrow ->. specialize (Hcols [] Hrow). simpl in Hcols. lia. }
  simpl.
  unfold calculate_wald, calculate_maximax, mbind, ret; simpl.
  match goal with
  | |- JS.bind ?c _ = _ -> _ => destruct c as [lows|e] eqn:Hlows
  end; simpl; [|discriminate].
  intros H. injection H as <-.
  match goal with
  | |- JS.bind ?c _ = _ -> _ => destruct c as [highs|e] eqn:Hhighs
  end; simpl; [|discriminate].
  intros H. injection H as <-. simpl.
  unfold for_push in *.
  refine (collect_Forall2 _ _ _ _ _ _ _ Hlows Hhighs).
  intros i v w _. unfold join_row.
  destruct (nth_error (data matrix) i) as [row|] eqn:Hrow; simpl;
    [|discriminate].
  intros Hv Hw. injection Hv as <-. injection Hw as <-.
  destruct row as [|x rest].
  - exfalso. apply (Hcells []); [|reflexivity].
    now apply nth_error_In in Hrow.
  - pose proof (validate_row matrix i (x :: rest) Hvalid Hrow) as Hnum.
    destruct (extremes_bound (x :: rest) Hnum) as [_ [_ Hall]].
    inversion Hall as [|? ? [Hlow Hhigh] _]; subst.
    unfold getRowMin, getRowMax. rewrite Hrow.
    now apply le_trans with (y := x).
Qed.

Lemma wald_score_below_maximax_witness :
  exists pessimist optimist,
    calculate WaldCriterion Examples.tied = Normal pessimist
    /\ calculate MaximaxCriterion Examples.tied = Normal optimist
    /\ Forall2 (fun low high => le low high = true)
         (values pessimist) (values optimist).
Proof.
  eexists. eexists.
  split; [vm_compute; reflexivity|].
  split; [vm_compute; reflexivity|].
  apply (wald_score_below_maximax Examples.tied).
  - split; [reflexivity|]. repeat constructor.
  - reflexivity.
  - simpl. lia.
  - vm_compute. reflexivity.
  - vm_compute. reflexivity.
Defined.

Lemma column_step_bound (matrix : DecisionMatrix.t) (j : nat) (max : number)
  (i : nat) :
  is_nan max = false ->
  is_nan (column_step matrix j max i) = false
  /\ le max (column_step matrix j max i) = true
  /\ (forall x, cell matrix i j = Some x -> is_nan x = false ->
                le x (column_step matrix j max i) = true).
Proof.
  intros Hmax. unfold column_step, cell.
  destruct (nth_error (data matrix) i) as [row|].
  - cbv zeta. unfold gt.
    destruct (max <? ToNumber (nth_error row j))%float eqn:Hlt.
    + pose proof (lt_le _ _ Hlt) as Hle.
      destruct (le_numbers _ _ Hle) as [_ Hv].
      repeat split; try assumption.
      intros x Hx _. rewrite Hx in *. simpl in *. now apply le_refl.
    + repeat split; [exact Hmax | now apply le_refl |].
      intros x Hx Hnum. rewrite Hx in Hlt. simpl in Hlt.
      now apply not_lt_le.
  - repeat split; [exact Hmax | now apply le_refl | discriminate].
Qed.

Lemma column_fold_bound (matrix : DecisionMatrix.t) (j : nat)
  (rows : list nat) :
  forall max,
    is_nan max = false ->
    is_nan (fold_left (column_step matrix j) rows max) = false
    /\ le max (fold_left (column_step matrix j) rows max) = true
    /\ (forall i x, In i rows -> cell matrix i j = Some x ->
                    is_nan x = false ->
                    le x (fold_left (column_step matrix j) rows max) = true).
Proof.
  induction rows as [|k rest IH]; intros max Hmax; simpl.
  - repeat split; [exact Hmax | now apply le_refl | intros i x []].
  - destruct (column_step_bound matrix j max k Hmax) as [Hnext [Hle Hcell]].
    destruct (IH _ Hnext) as [Hres [Hup Hall]].
    repeat split.
    + exact Hres.
    + now apply le_trans with (y := column_step matrix j max k).
    + intros i x [<- | Hin] Hx Hnum.
      * apply le_trans with (y := column_step matrix j max k);
          [now apply Hcell | exact Hup].
      * now apply (Hall i x).
Qed.

(** X4.  [getColumnMax] never returns [NaN], whatever the matrix holds,
    and no cell of the column that holds a number, in a row within
    [strategiesCount], is above it: [NaN] cells and missing rows are
    skipped by the scan. *)
Theorem column_max_bounds_cells (matrix : DecisionMatrix.t) (j : nat) :
  is_nan (getColumnMax matrix j) = false
  /\ forall i x,
       i < strategiesCount matrix ->
       cell matrix i j = Some x ->
       is_nan x = false ->
       le x (getColumnMax matrix j) = true.
Proof.
  unfold getColumnMax. cbv zeta.
  destruct (column_fold_bound matrix j (seq 0 (strategiesCount matrix))
              neg_infinity eq_refl) as [Hres [_ Hall]].
  split.
  - now destruct (strict_equals _ neg_infinity).
  - intros i x Hi Hx Hnum.
    assert (Hbound : le x (fold_left (column_step matrix j)
                             (seq 0 (strategiesCount matrix)) neg_infinity)
                     = true).
    { apply (Hall i x); try assumption. apply in_seq. lia. }
    destruct (strict_equals _ neg_infinity) eqn:Hempty; [|exact Hbound].
    apply le_trans with (y := neg_infinity); [|reflexivity].
    eapply le_trans; [exact Hbound | now apply equals_le].
Qed.

Lemma column_max_bounds_cells_witness :
  is_nan (getColumnMax Examples.scenario 0) = false
  /\ le 900%float (getColumnMax Examples.scenario 0) = true.
Proof.
  destruct (column_max_bounds_cells Examples.scenario 0) as [Hnumber Hbound].
  split; [exact Hnumber|].
  apply (Hbound 1 900%float); [simpl; lia | reflexivity | reflexivity].
Defined.

End RowsAndColumns.

(* ================================================================== *)
(** * The factory and its catalogue *)
(* ================================================================== *)

Section FactoryCatalogue.

Import DecisionMatrix Criteria Props Terms.

Lemma calculate_type (criterion : Criterion) (matrix : DecisionMatrix.t)
  (r : CriterionResult) :
  calculate criterion matrix = Normal r -> type r = kind criterion.
Proof.
  destruct criterion; simpl;
    unfold calculate_wald, calculate_maximax, calculate_savage,
      calculate_hurwitz, calculate_bayes, calculate_laplace;
    unfold mbind, ret; simpl;
    match goal with
    | |- JS.bind ?c _ = _ -> _ => destruct c as [vs|e]
    end; simpl; intros H; try discriminate;
    injection H as <-; reflexivity.
Qed.

Lemma eqb_cases (s t : string) :
  (String.eqb s t = true /\ s = t) \/ String.eqb s t = false.
Proof.
  destruct (String.eqb s t) eqn:H; [left | now right].
  split; [reflexivity | now apply String.eqb_eq].
Qed.

(** X5.  The factory builds a criterion exactly for the six identifiers of
    [getAvailableCriteria], whatever their letter case, Bayes needing its
    probabilities; a result of the instance carries, as its [type], the
    identifier the instance was asked by.  Any other identifier is refused
    with an [Error] that quotes it. *)
Theorem factory_accepts_the_catalogue (type : string) (params : Params) :
  (In (toLowerCase type) (map fst Catalogue.getAvailableCriteria)
   /\ (toLowerCase type = "bayes"%string -> probabilities params <> None)
   -> exists criterion,
        createCriterion type params = Normal criterion
        /\ Catalogue.type_string (kind criterion) = toLowerCase type
        /\ forall matrix r, calculate criterion matrix = Normal r ->
             Catalogue.type_string (Criteria.type r) = toLowerCase type)
  /\ (~ In (toLowerCase type) (map fst Catalogue.getAvailableCriteria)
      -> createCriterion type params
         = Throw (Error ("Unknown criterion type: " ++ type)))
  /\ (toLowerCase type = "bayes"%string -> probabilities params = None
      -> createCriterion type params
         = Throw (Error "Probabilities required for Bayes criterion")).
Proof.
  unfold createCriterion. cbv zeta.
  split; [|split].
  - intros [Hin Hbayes].
    assert (Hdone : forall criterion,
              Catalogue.type_string (kind criterion) = toLowerCase type ->
              exists c, Normal criterion = Normal c
                /\ Catalogue.type_string (kind c) = toLowerCase type
                /\ forall matrix r, calculate c matrix = Normal r ->
                     Catalogue.type_string (Criteria.type r)
                     = toLowerCase type).
    { intros criterion Hkind. exists criterion.
      repeat split; [exact Hkind|].
      intros matrix r Hrun.
      now rewrite (calculate_type criterion matrix r Hrun). }
    simpl in Hin.
    destruct Hin as [H | [H | [H | [H | [H | [H | []]]]]]];
      rewrite <- H in *; simpl; try (apply Hdone; reflexivity).
    destruct (probabilities params) as [p|].
    + simpl. apply Hdone. reflexivity.
    + now destruct Hbayes.
  - intros Hout. simpl in Hout.
    repeat match goal with
      | |- context [String.eqb ?s ?t] =>
          destruct (eqb_cases s t) as [[_ H] | ->];
          [exfalso; apply Hout; rewrite H; simpl; tauto|]
      end.
    reflexivity.
  - intros -> ->. reflexivity.
Qed.

Lemma factory_accepts_the_catalogue_witness :
  (exists criterion,
     createCriterion "Hurwitz" no_params = Normal criterion
     /\ Catalogue.type_string (kind criterion) = "hurwitz"%string)
  /\ createCriterion "minimax" no_params
     = Throw (Error "Unknown criterion type: minimax")
  /\ createCriterion "BAYES" no_params
     = Throw (Error "Probabilities required for Bayes criterion").
Proof.
  destruct (factory_accepts_the_catalogue "Hurwitz" no_params)
    as [Hyes _].
  destruct (factory_accepts_the_catalogue "minimax" no_params)
    as [_ [Hno _]].
  destruct (factory_accepts_the_catalogue "BAYES" no_params)
    as [_ [_ Hbayes]].
  split; [|split].
  - destruct Hyes as [criterion [Hmade [Hkind _]]].
    + split; [simpl; tauto | discriminate].
    + exists criterion. now split.
  - apply Hno. simpl. intros H.
    repeat (destruct H as [H | H]; [discriminate|]). exact H.
  - apply Hbayes; reflexivity.
Defined.

End FactoryCatalogue.

(* ================================================================== *)
(** * Editing the matrix *)
(* ================================================================== *)

Section Editing.

Import DecisionMatrix Criteria Props Terms MatrixEditing.

Lemma store_inside {A : Type} (a : list A) (k : nat) (x : A) :
  k < List.length a ->
  exists a', store a k x = Some a'
             /\ List.length a' = List.length a
             /\ nth_error a' k = Some x
             /\ (forall k', k' <> k -> nth_error a' k' = nth_error a k').
Proof.
  revert k. induction a as [|y rest IH]; intros k Hk; simpl in Hk; [lia|].
  destruct k as [|k]; simpl.
  - exists (x :: rest). repeat split. intros [|k'] Hne; [lia | reflexivity].
  - destruct (IH k ltac:(lia)) as [rest' [-> [Hlen [Hat Hframe]]]].
    exists (y :: rest'). repeat split.
    + simpl. now rewrite Hlen.
    + exact Hat.
    + intros [|k'] Hne; [reflexivity|]. simpl. apply Hframe. lia.
Qed.

Lemma store_In {A : Type} (a a' : list A) (k : nat) (x : A) :
  store a k x = Some a' -> forall y, In y a' -> y = x \/ In y a.
Proof.
  revert k a'. induction a as [|z rest IH]; intros k a'; simpl.
  - destruct k; [|discriminate]. intros H. injection H as <-.
    intros y [<- | []]. now left.
  - destruct k as [|k].
    + intros H. injection H as <-. intros y [<- | Hin]; [now left|].
      right. now right.
    + destruct (store rest k x) as [rest'|] eqn:Hrest; [|discriminate].
      intros H. injection H as <-. intros y [<- | Hin].
      * right. now left.
      * destruct (IH k rest' Hrest y Hin) as [-> | Hold];
          [now left | right; now right].
Qed.

Lemma stored_number (val : number) : is_nan (stored val) = false.
Proof.
  unfold stored. destruct (is_nan val) eqn:H; [reflexivity | exact H].
Qed.

(** X6.  On a matrix that holds its declared rows and columns,
    [updateValue] inside the dimensions returns the number it stores (the
    parsed value, or 0 for [NaN]), writes that cell and no other, and
    leaves the dimensions and the names alone. *)
Theorem updateValue_writes_one_cell (matrix : DecisionMatrix.t) (i j : nat)
  (val : number) :
  rectangular matrix ->
  i < strategiesCount matrix ->
  j < statesCount matrix ->
  exists matrix',
    updateValue i j val matrix = Some (stored val, matrix')
    /\ cell matrix' i j = Some (stored val)
    /\ (forall i' j', (i', j') <> (i, j) ->
          cell matrix' i' j' = cell matrix i' j')
    /\ rectangular matrix'
    /\ strategiesCount matrix' = strategiesCount matrix
    /\ statesCount matrix' = statesCount matrix
    /\ strategies matrix' = strategies matrix
    /\ states matrix' = states matrix.
Proof.
  intros Hrect Hi Hj.
  destruct (rectangular_row matrix i Hrect Hi) as [row [Hrow Hlen]].
  destruct Hrect as [Hrows Hcols].
  unfold updateValue. rewrite Hrow.
  destruct (store_inside row j (stored val) ltac:(lia))
    as [row' [-> [Hlen' [Hat Hframe]]]].
  destruct (store_inside (data matrix) i row' ltac:(lia))
    as [data' [-> [Hrows' [Hat' Hframe']]]].
  eexists. split; [reflexivity|].
  unfold cell, rectangular. simpl.
  split; [now rewrite Hat'|].
  split.
  { intros i' j' Hne. destruct (Nat.eq_dec i' i) as [-> | Hrow'].
    - rewrite Hat', Hrow. apply Hframe. intros ->. now apply Hne.
    - now rewrite Hframe'. }
  split; [|repeat split].
  split; [lia|].
  rewrite Forall_forall in *. intros r Hr.
  destruct (In_nth_error _ _ Hr) as [k Hk].
  destruct (Nat.eq_dec k i) as [-> | Hne].
  - rewrite Hat' in Hk. injection Hk as <-. lia.
  - rewrite Hframe' in Hk by exact Hne. apply Hcols.
    now apply nth_error_In in Hk.
Qed.

Lemma updateValue_writes_one_cell_witness :
  exists matrix',
    updateValue 0 1 nan Examples.one_by_two = Some (0%float, matrix')
    /\ cell matrix' 0 1 = Some 0%float
    /\ cell matrix' 0 0 = Some 1%float.
Proof.
  destruct (updateValue_writes_one_cell Examples.one_by_two 0 1 nan)
    as [matrix' [Hcall [Hcell [Hframe _]]]].
  - split; [reflexivity|]. repeat constructor.
  - simpl. lia.
  - simpl. lia.
  - exists matrix'. split; [exact Hcall|]. split; [exact Hcell|].
    rewrite (Hframe 0 0); [reflexivity | discriminate].
Defined.

Lemma store_keeps_numbers (data data' : list (list number))
  (row row' : list number) (i j : nat) (val : number) :
  In row data \/ row = [] ->
  store row j (stored val) = Some row' ->
  store data i row' = Some data' ->
  forallb (fun r => forallb (fun x => negb (is_nan x)) r) data = true ->
  forallb (fun r => forallb (fun x => negb (is_nan x)) r) data' = true.
Proof.
  intros Hold Hrow' Hdata'. rewrite !forallb_forall. intros Hvalid r Hr.
  destruct (store_In _ _ _ _ Hdata' r Hr) as [-> | Hin];
    [|now apply Hvalid].
  rewrite forallb_forall. intros x Hx.
  destruct (store_In _ _ _ _ Hrow' x Hx) as [-> | Hin].
  - now rewrite stored_number.
  - destruct Hold as [Hold | Hold].
    + specialize (Hvalid row Hold). rewrite forallb_forall in Hvalid.
      now apply Hvalid.
    + rewrite Hold in Hin. destruct Hin.
Qed.

(** An edit inside the dimensions succeeds and keeps the matrix
    rectangular, validated and named as it was. *)
Lemma updateValue_inside (matrix : DecisionMatrix.t) (i j : nat)
  (val : number) :
  rectangular matrix ->
  i < strategiesCount matrix ->
  j < statesCount matrix ->
  exists matrix',
    updateValue i j val matrix = Some (stored val, matrix')
    /\ rectangular matrix'
    /\ (validate matrix = true -> validate matrix' = true)
    /\ strategiesCount matrix' = strategiesCount matrix
    /\ statesCount matrix' = statesCount matrix
    /\ strategies matrix' = strategies matrix.
Proof.
  intros Hrect Hi Hj.
  destruct (rectangular_row matrix i Hrect Hi) as [row [Hrow Hlen]].
  destruct Hrect as [Hrows Hcols].
  unfold updateValue. rewrite Hrow.
  destruct (store_inside row j (stored val) ltac:(lia))
    as [row' [Hrow' [Hlen' _]]].
  destruct (store_inside (data matrix) i row' ltac:(lia))
    as [data' [Hdata' [Hrows' [Hat' Hframe']]]].
  rewrite Hrow', Hdata'.
  eexists. split; [reflexivity|].
  unfold rectangular, validate. simpl.
  split; [|split; [|repeat split]].
  - split; [lia|].
    rewrite Forall_forall in *. intros r Hr.
    destruct (In_nth_error _ _ Hr) as [k Hk].
    destruct (Nat.eq_dec k i) as [-> | Hne].
    + rewrite Hat' in Hk. injection Hk as <-. lia.
    + rewrite Hframe' in Hk by exact Hne. apply Hcols.
      now apply nth_error_In in Hk.
  - apply (store_keeps_numbers _ _ row row' i j val); try assumption.
    left. now apply nth_error_In in Hrow.
Qed.

(** X7.  Whatever the indices, a call of [updateValue] that leaves no hole
    returns a number that is not [NaN], and a matrix that [validate]
    accepted is still accepted after it. *)
Theorem updateValue_keeps_matrix_valid (matrix matrix' : DecisionMatrix.t)
  (i j : nat) (val w : number) :
  updateValue i j val matrix = Some (w, matrix') ->
  is_nan w = false
  /\ (validate matrix = true -> validate matrix' = true).
Proof.
  unfold updateValue.
  set (row := match nth_error (data matrix) i with
              | Some row => row
              | None => []
              end).
  destruct (store row j (stored val)) as [row'|] eqn:Hrow'; [|discriminate].
  destruct (store (data matrix) i row') as [data'|] eqn:Hdata';
    [|discriminate].
  intros H. injection H as <- <-.
  split; [apply stored_number|].
  unfold validate. simpl.
  apply (store_keeps_numbers _ _ row row' i j val); try assumption.
  subst row. destruct (nth_error (data matrix) i) as [r0|] eqn:Hr0.
  - left. now apply nth_error_In in Hr0.
  - now right.
Qed.

Lemma updateValue_keeps_matrix_valid_witness :
  exists matrix',
    updateValue 1 0 nan Examples.one_by_two = Some (0%float, matrix')
    /\ validate matrix' = true.
Proof.
  eexists. split; [vm_compute; reflexivity|].
  eapply (updateValue_keeps_matrix_valid Examples.one_by_two _ 1 0 nan).
  - vm_compute. reflexivity.
  - reflexivity.
Defined.

Lemma repeat_Forall {A : Type} (P : A -> Prop) (x : A) (n : nat) :
  P x -> Forall P (repeat x n).
Proof.
  intros Hx. induction n as [|n IH]; simpl; now constructor.
Qed.

Lemma forallb_repeat {A : Type} (f : A -> bool) (x : A) (n : nat) :
  f x = true -> forallb f (repeat x n) = true.
Proof.
  intros Hx. induction n as [|n IH]; simpl; [reflexivity|].
  now rewrite Hx.
Qed.

Lemma initialize_sound (this : DecisionMatrix.t) :
  rectangular (initialize this)
  /\ validate (initialize this) = true
  /\ strategiesCount (initialize this) = strategiesCount this
  /\ statesCount (initialize this) = statesCount this
  /\ strategies (initialize this)
     = map strategy_name (seq 0 (strategiesCount this)).
Proof.
  unfold rectangular, validate, initialize, zeros. simpl.
  repeat split.
  - apply repeat_length.
  - apply repeat_Forall. apply repeat_length.
  - apply forallb_repeat. now apply forallb_repeat.
Qed.

Lemma edited_sound (edits : list Edit) :
  forall matrix,
    rectangular matrix ->
    validate matrix = true ->
    Forall (in_range matrix) edits ->
    exists matrix',
      edited edits matrix = Some matrix'
      /\ rectangular matrix'
      /\ validate matrix' = true
      /\ strategiesCount matrix' = strategiesCount matrix
      /\ statesCount matrix' = statesCount matrix
      /\ strategies matrix' = strategies matrix.
Proof.
  induction edits as [|e rest IH]; intros matrix Hrect Hvalid Hrange; simpl.
  - exists matrix. split; [reflexivity|]. split; [exact Hrect|].
    split; [exact Hvalid|]. now repeat split.
  - inversion Hrange as [|? ? [Hi Hj] Hrest]; subst.
    destruct (updateValue_inside matrix (edit_row e) (edit_column e)
                (edit_value e) Hrect Hi Hj)
      as [next [Hcall [Hrect' [Hkeep [HS [HN Hnames]]]]]].
    rewrite Hcall.
    destruct (IH next Hrect' (Hkeep Hvalid))
      as [final [Hrun [Hr [Hv [H1 [H2 H3]]]]]].
    + rewrite Forall_forall in *. intros e' He'. unfold in_range.
      rewrite HS, HN. now apply Hrest.
    + exists final. split; [exact Hrun|]. split; [exact Hr|].
      split; [exact Hv|]. repeat split; congruence.
Qed.

(** X8.  A matrix made by the constructor and then edited, every edit
    falling inside the dimensions, holds exactly its declared rows and
    columns, passes [validate], and keeps the names the constructor
    generated. *)
Theorem edits_in_range_keep_matrix_sound (strategiesCount statesCount : nat)
  (edits : list Edit) :
  Forall (in_range (create strategiesCount statesCount)) edits ->
  exists matrix,
    edited edits (create strategiesCount statesCount) = Some matrix
    /\ rectangular matrix
    /\ validate matrix = true
    /\ DecisionMatrix.strategiesCount matrix = strategiesCount
    /\ DecisionMatrix.statesCount matrix = statesCount
    /\ strategies matrix = map strategy_name (seq 0 strategiesCount).
Proof.
  intros Hrange. unfold create in *.
  set (blank := {| DecisionMatrix.strategiesCount := strategiesCount;
                   DecisionMatrix.statesCount := statesCount;
                   data := [];
                   strategies := [];
                   states := [] |}) in *.
  destruct (initialize_sound blank) as [Hrect [Hvalid [HS [HN Hnames]]]].
  destruct (edited_sound edits (initialize blank) Hrect Hvalid Hrange)
    as [matrix [Hrun [Hr [Hv [H1 [H2 H3]]]]]].
  exists matrix. split; [exact Hrun|]. split; [exact Hr|].
  split; [exact Hv|]. subst blank. simpl in *. repeat split; congruence.
Qed.

Lemma edits_in_range_keep_matrix_sound_witness :
  exists matrix,
    edited [ {| edit_row := 1; edit_column := 0; edit_value := 7%float |};
             {| edit_row := 0; edit_column := 2; edit_value := nan |} ]
      (create 2 3) = Some matrix
    /\ rectangular matrix
    /\ validate matrix = true.
Proof.
  destruct (edits_in_range_keep_matrix_sound 2 3
              [ {| edit_row := 1; edit_column := 0; edit_value := 7%float |};
                {| edit_row := 0; edit_column := 2; edit_value := nan |} ])
    as [matrix [Hrun [Hrect [Hvalid _]]]].
  - repeat constructor.
  - exists matrix. split; [exact Hrun|]. split; [exact Hrect | exact Hvalid].
Defined.

Lemma strategy_name_valid (k : nat) :
  or_undetermined (Some (strategy_name k)) = strategy_name k
  /\ strategy_name k <> undetermined.
Proof.
  unfold or_undetermined, strategy_name, undetermined, truthy_string.
  split; [reflexivity|]. simpl. discriminate.
Qed.

Lemma determined_index (criterion : Criterion) (matrix : DecisionMatrix.t)
  (r : CriterionResult) :
  calculate criterion matrix = Normal r ->
  0 < strategiesCount matrix ->
  Forall (fun v => is_nan v = false) (values r) ->
  exists k, k < strategiesCount matrix
            /\ optimalIndex r = Z.of_nat k
            /\ strategy r = or_undetermined (nth_error (strategies matrix) k).
Proof.
  intros Hrun Hpos Hnum.
  pose proof (calculate_length criterion matrix r Hrun) as Hlen.
  destruct (calculate_shape criterion matrix r Hrun) as [Hvalue [Hindex Hname]].
  destruct (values r) as [|x rest] eqn:Hvs; [simpl in Hlen; lia|].
  destruct (objective_attained criterion x rest Hnum) as [v [Hin Heq]].
  rewrite <- Hvalue in Heq.
  destruct (In_nth_error _ _ Hin) as [k Hk].
  destruct (indexOf_from_first (x :: rest) (optimalValue r) 0 k v Hk Heq)
    as [first [Hidx [Hle _]]].
  fold (indexOf (x :: rest) (optimalValue r)) in Hidx.
  rewrite <- Hindex in Hidx. simpl in Hidx.
  assert (Hk' : k < List.length (x :: rest)).
  { apply nth_error_Some. congruence. }
  exists first. split; [lia|]. split; [exact Hidx|].
  rewrite Hname, Hidx. unfold get.
  destruct (Z.of_nat first <? 0)%Z eqn:Hneg; [lia|].
  now rewrite Nat2Z.id.
Qed.

Lemma extreme_scores (matrix : DecisionMatrix.t) (criterion : Criterion) :
  rectangular matrix ->
  criterion = WaldCriterion \/ criterion = MaximaxCriterion ->
  exists r,
    calculate criterion matrix = Normal r
    /\ values r
       = map (match criterion with
              | WaldCriterion => getRowMin matrix
              | _ => getRowMax matrix
              end) (seq 0 (strategiesCount matrix)).
Proof.
  intros Hrect Hkind.
  assert (Hjoin : forall i, In i (seq 0 (strategiesCount matrix)) ->
                            join_row matrix i = Normal tt).
  { intros i Hi. apply in_seq in Hi.
    destruct (rectangular_row matrix i Hrect ltac:(lia)) as [row [Hrow _]].
    unfold join_row. now rewrite Hrow. }
  destruct Hkind as [-> | ->]; simpl;
    unfold calculate_wald, calculate_maximax, for_push, mbind, ret; simpl.
  - rewrite (collect_ext _ (fun i => Normal (getRowMin matrix i))).
    + rewrite collect_map. simpl. eexists. split; reflexivity.
    + intros i Hi. now rewrite (Hjoin i Hi).
  - rewrite (collect_ext _ (fun i => Normal (getRowMax matrix i))).
    + rewrite collect_map. simpl. eexists. split; reflexivity.
    + intros i Hi. now rewrite (Hjoin i Hi).
Qed.

(** X9.  On a matrix that holds its declared rows and columns, at least
    one of each, that passes [validate] and carries the generated names,
    Wald and Maximax always return, with an optimal index inside the
    matrix and the name of that strategy, never the undetermined
    sentinel. *)
Theorem wald_and_maximax_always_recommend (matrix : DecisionMatrix.t)
  (criterion : Criterion) :
  rectangular matrix ->
  validate matrix = true ->
  0 < strategiesCount matrix ->
  0 < statesCount matrix ->
  strategies matrix = map strategy_name (seq 0 (strategiesCount matrix)) ->
  criterion = WaldCriterion \/ criterion = MaximaxCriterion ->
  exists r k,
    calculate criterion matrix = Normal r
    /\ k < strategiesCount matrix
    /\ optimalIndex r = Z.of_nat k
    /\ strategy r = strategy_name k
    /\ strategy r <> undetermined.
Proof.
  intros Hrect Hvalid HS HN Hnames Hkind.
  destruct (extreme_scores matrix criterion Hrect Hkind)
    as [r [Hrun Hvalues]].
  assert (Hnum : Forall (fun v => is_nan v = false) (values r)).
  { rewrite Hvalues, Forall_forall. intros v Hv.
    apply in_map_iff in Hv. destruct Hv as [i [<- Hi]]. apply in_seq in Hi.
    destruct (rectangular_row matrix i Hrect ltac:(lia)) as [row [Hrow _]].
    pose proof (validate_row matrix i row Hvalid Hrow) as Hcells.
    destruct (extremes_bound row Hcells) as [Hmin [Hmax _]].
    unfold getRowMin, getRowMax.
    destruct Hkind as [-> | ->]; now rewrite Hrow. }
  destruct (determined_index criterion matrix r Hrun HS Hnum)
    as [k [Hk [Hidx Hname]]].
  exists r, k. split; [exact Hrun|]. split; [exact Hk|].
  split; [exact Hidx|].
  assert (Hat : nth_error (strategies matrix) k = Some (strategy_name k)).
  { rewrite Hnames. rewrite nth_error_map.
    rewrite nth_error_nth' with (d := 0) by now rewrite length_seq.
    now rewrite seq_nth. }
  rewrite Hname, Hat.
  destruct (strategy_name_valid k) as [-> Hne]. now split.
Qed.

Lemma wald_and_maximax_always_recommend_witness :
  exists r k,
    calculate MaximaxCriterion Examples.scenario = Normal r
    /\ k < 4
    /\ optimalIndex r = Z.of_nat k
    /\ strategy r = strategy_name k
    /\ strategy r <> undetermined.
Proof.
  apply (wald_and_maximax_always_recommend Examples.scenario
           MaximaxCriterion).
  - split; [reflexivity|]. repeat constructor.
  - reflexivity.
  - simpl. lia.
  - simpl. lia.
  - reflexivity.
  - now right.
Defined.

End Editing.

(* ================================================================== *)
(** * What the analyzer counts *)
(* ================================================================== *)

Section Counting.

Import Criteria ResultsAnalyzer Counts Props Terms.

Lemma recorded_ids_from (calls : list Call) :
  forall start,
    map Recommendation.id (recommendations start)
    = seq 1 (List.length (recommendations start)) ->
    let final :=
      fold_left
        (fun this c =>
           after (addRecommendation (call_now c) (call_criterion c)
                    (call_strategy c) (call_type c) (call_details c)) this)
        calls start in
    map Recommendation.id (recommendations final)
    = seq 1 (List.length (recommendations start) + List.length calls)
    /\ map Recommendation.type (recommendations final)
       = map Recommendation.type (recommendations start)
         ++ map call_type calls.
Proof.
  induction calls as [|c rest IH]; intros start Hstart; simpl.
  - rewrite Nat.add_0_r, app_nil_r. now split.
  - destruct (IH (after (addRecommendation (call_now c) (call_criterion c)
                           (call_strategy c) (call_type c) (call_details c))
                    start)) as [Hids Htypes].
    + unfold after. simpl. rewrite map_app, length_app, Hstart. simpl.
      rewrite !Nat.add_1_r, seq_S. reflexivity.
    + split.
      * rewrite Hids. unfold after. simpl. rewrite length_app. simpl.
        f_equal. lia.
      * rewrite Htypes. unfold after. simpl. rewrite map_app. simpl.
        now rewrite <- app_assoc.
Qed.

(** X10.  The recommendations of an analyzer fed by [addRecommendation]
    carry the ids 1, 2, ... in the order of the calls, one recommendation
    per call, each under the criterion type it was recorded with. *)
Theorem ids_number_the_calls (calls : list Call) :
  map Recommendation.id (recommendations (recorded calls))
  = seq 1 (List.length calls)
  /\ map Recommendation.type (recommendations (recorded calls))
     = map call_type calls.
Proof.
  unfold recorded.
  destruct (recorded_ids_from calls ResultsAnalyzer.new eq_refl)
    as [Hids Htypes].
  split; [exact Hids | exact Htypes].
Qed.

Lemma lookup_assign (o : Obj.object Z) (key : string) (v : Z) (s : string) :
  Obj.lookup (Obj.assign o key v) s
  = if String.eqb key s then Some v else Obj.lookup o s.
Proof.
  induction o as [|[k w] rest IH]; simpl.
  - reflexivity.
  - destruct (String.eqb k key) eqn:Hk; simpl.
    + apply String.eqb_eq in Hk. subst k.
      now destruct (String.eqb key s).
    + rewrite IH. destruct (String.eqb k s) eqn:Hs; [|reflexivity].
      apply String.eqb_eq in Hs. subst k. now rewrite String.eqb_sym, Hk.
Qed.

Lemma count_or_zero_spec (count : option Z) :
  count_or_zero count = match count with Some c => c | None => 0%Z end.
Proof.
  destruct count as [c|]; [|reflexivity]. simpl.
  destruct (c =? 0)%Z eqn:H; [|reflexivity].
  apply Z.eqb_eq in H. now subst c.
Qed.

Lemma tally_lookup_one (o : Obj.object Z) (rec : Recommendation.t)
  (s : string) :
  Obj.lookup (tally o rec) s
  = if is_valid rec && String.eqb (Recommendation.strategy rec) s
    then Some (count_or_zero (Obj.lookup o s) + 1)%Z
    else Obj.lookup o s.
Proof.
  unfold tally. destruct (is_valid rec); simpl; [|reflexivity].
  rewrite lookup_assign.
  destruct (String.eqb (Recommendation.strategy rec) s) eqn:Hs;
    [|reflexivity].
  apply String.eqb_eq in Hs. now rewrite Hs.
Qed.

Lemma tally_lookup (recs : list Recommendation.t) (s : string) :
  forall o,
    Obj.lookup (fold_left tally recs o) s
    = match citations s recs with
      | 0 => Obj.lookup o s
      | S n => Some (count_or_zero (Obj.lookup o s) + Z.of_nat (S n))%Z
      end.
Proof.
  unfold citations.
  induction recs as [|rec rest IH]; intros o; simpl; [reflexivity|].
  rewrite IH, tally_lookup_one.
  destruct (is_valid rec && String.eqb (Recommendation.strategy rec) s);
    simpl.
  - destruct (List.length _) as [|n]; [reflexivity|].
    f_equal. generalize (count_or_zero (Obj.lookup o s)). intros c.
    rewrite !Zpos_P_of_succ_nat.
    destruct (c + 1 =? 0)%Z eqn:Hc; [apply Z.eqb_eq in Hc|]; lia.
  - reflexivity.
Qed.

(** Over integer counts: a count is the number of valid citations. *)
Lemma counts_citations (this : ResultsAnalyzer.t) (s : string) :
  Obj.lookup (result getFrequencyAnalysis this) s
  = if (citations s (recommendations this) =? 0)%nat then None
    else Some (Z.of_nat (citations s (recommendations this))).
Proof.
  unfold result. simpl. rewrite tally_lookup. simpl.
  now destruct (citations s (recommendations this)).
Qed.

Lemma sorted_frequency (this : ResultsAnalyzer.t) :
  let frequency := fold_left tally (recommendations this) [] in
  let sorted := Obj.sort by_count_descending (Obj.entries frequency) in
  Permutation sorted frequency
  /\ NoDup (map fst frequency)
  /\ NoDup (map fst sorted)
  /\ Forall (fun entry => (1 <= snd entry)%Z) frequency
  /\ StronglySorted descending sorted
  /\ sum_counts frequency
     = Z.of_nat (List.length (filter is_valid (recommendations this))).
Proof.
  intros frequency sorted.
  destruct (@tally_invariant (recommendations this) [])
    as [Hnd [Hpos Hsum]]; [constructor | constructor |].
  fold frequency in Hnd, Hpos, Hsum.
  assert (Hperm : Permutation sorted frequency).
  { subst sorted.
    eapply Permutation_trans; [apply sort_perm | apply entries_perm]. }
  repeat split; try assumption.
  - apply (Permutation_NoDup (Permutation_map fst (Permutation_sym Hperm))).
    exact Hnd.
  - apply sort_descending.
Qed.

Lemma final_of_nothing (this : ResultsAnalyzer.t) :
  Obj.sort by_count_descending
    (Obj.entries (fold_left tally (recommendations this) [])) = [] ->
  FinalRecommendation.strategy (result getFinalRecommendation this) = None
  /\ fold_left tally (recommendations this) [] = [].
Proof.
  intros Hsort.
  destruct (sorted_frequency this) as [Hperm _]. rewrite Hsort in Hperm.
  apply Permutation_nil in Hperm.
  unfold result. rewrite final_on_empty; [now split|].
  now rewrite Hperm.
Qed.

(** Over integer counts: a tie and the list of alternatives. *)
Lemma counts_tie_lists_the_leaders (this : ResultsAnalyzer.t) (s : string) :
  let final := result getFinalRecommendation this in
  FinalRecommendation.strategy final = Some s ->
  exists tie leaders,
    FinalRecommendation.hasTie final = Some tie
    /\ FinalRecommendation.alternatives final = Some leaders
    /\ (tie = true <-> 2 <= List.length leaders)
    /\ (tie = false -> leaders = [])
    /\ (tie = true -> hd_error leaders = Some s)
    /\ NoDup leaders
    /\ (forall leader, In leader leaders ->
          Obj.lookup (result getFrequencyAnalysis this) leader
          = Some (FinalRecommendation.frequency final)).
Proof.
  intros final. subst final.
  destruct (sorted_frequency this) as [Hperm [Hnd [Hnds _]]].
  destruct (Obj.sort by_count_descending
              (Obj.entries (fold_left tally (recommendations this) [])))
    as [|a rest] eqn:Hsort.
  { destruct (final_of_nothing this Hsort) as [-> _]. discriminate. }
  unfold result at 1 2 3 5. rewrite (final_on_entries this a rest Hsort).
  simpl. intros Hs. injection Hs as <-.
  eexists. eexists. split; [reflexivity|]. split; [reflexivity|].
  destruct rest as [|b rest']; simpl.
  { repeat split; try discriminate; try (simpl; lia); try constructor. }
  destruct (snd b =? snd a)%Z eqn:Hb; simpl.
  - rewrite Z.eqb_refl. simpl.
    split; [split; [intros _; lia | reflexivity]|].
    split; [discriminate|]. split; [reflexivity|].
    split.
    + pose proof (NoDup_keys_filter (fun e => (snd e =? snd a)%Z) _ Hnds)
        as Hf.
      simpl in Hf. now rewrite Z.eqb_refl, Hb in Hf.
    + intros leader Hin.
      assert (Hmem : In (leader, snd a) (a :: b :: rest')).
      { destruct Hin as [<- | [<- | Hin]].
        - left. now destruct a.
        - right. left. apply Z.eqb_eq in Hb. rewrite <- Hb. now destruct b.
        - apply in_map_iff in Hin. destruct Hin as [[k c] [Hk Hin]].
          apply filter_In in Hin. destruct Hin as [Hin Hc].
          simpl in Hk, Hc. apply Z.eqb_eq in Hc. subst k c.
          right. now right. }
      unfold result. simpl. apply In_lookup; [exact Hnd|].
      now apply (Permutation_in _ Hperm).
  - split; [split; [discriminate | simpl; lia]|].
    split; [reflexivity|]. split; [discriminate|].
    split; [constructor | intros leader []].
Qed.

Lemma sort_head (es : list (string * Z)) :
  forall a rest,
    Obj.sort by_count_descending es = a :: rest ->
    exists before behind,
      es = before ++ a :: behind
      /\ Forall (fun e => (snd e < snd a)%Z) before
      /\ Forall (fun e => (snd e <= snd a)%Z) behind.
Proof.
  induction es as [|x l IH]; intros a rest; simpl; [discriminate|].
  fold (Obj.sort by_count_descending l).
  destruct (Obj.sort by_count_descending l) as [|y r] eqn:Hl; simpl.
  - pose proof (sort_perm by_count_descending l) as Hperm.
    rewrite Hl in Hperm. apply Permutation_nil in Hperm. subst l.
    intros H. injection H as <- <-.
    exists [], []. repeat split; constructor.
  - destruct (IH y r eq_refl) as [before [behind [-> [Hbefore Hbehind]]]].
    unfold by_count_descending at 1.
    destruct (0 <? snd y - snd x)%Z eqn:Hcmp.
    + intros H. injection H as <- <-.
      exists (x :: before), behind. repeat split; try assumption.
      constructor; [lia | exact Hbefore].
    + intros H. injection H as <- <-.
      exists [], (before ++ y :: behind). repeat split; [constructor|].
      apply Z.ltb_ge in Hcmp.
      apply Forall_app. split.
      * eapply Forall_impl; [|exact Hbefore]. simpl. intros e He. lia.
      * constructor; [lia|].
        eapply Forall_impl; [|exact Hbehind]. simpl. intros e He. lia.
Qed.

(** Over integer counts: the winner is the first entry with the largest
    count. *)
Lemma counts_winner_is_first_leader (this : ResultsAnalyzer.t) (s : string) :
  let final := result getFinalRecommendation this in
  let frequency := result getFrequencyAnalysis this in
  FinalRecommendation.strategy final = Some s ->
  exists before behind,
    Obj.entries frequency
    = before ++ (s, FinalRecommendation.frequency final) :: behind
    /\ Forall (fun e => (snd e < FinalRecommendation.frequency final)%Z)
         before
    /\ Forall (fun e => (snd e <= FinalRecommendation.frequency final)%Z)
         behind.
Proof.
  intros final frequency. subst final frequency.
  destruct (Obj.sort by_count_descending
              (Obj.entries (fold_left tally (recommendations this) [])))
    as [|a rest] eqn:Hsort.
  { destruct (final_of_nothing this Hsort) as [-> _]. discriminate. }
  unfold result. rewrite (final_on_entries this a rest Hsort). simpl.
  intros Hs. injection Hs as <-.
  destruct (sort_head _ a rest Hsort) as [before [behind [Hes [H1 H2]]]].
  exists before, behind. rewrite Hes. destruct a. now repeat split.
Qed.

Lemma counts_below_sum (o : Obj.object Z) :
  Forall (fun entry => (1 <= snd entry)%Z) o ->
  (Z.of_nat (List.length o) <= sum_counts o)%Z
  /\ forall entry, In entry o -> (snd entry <= sum_counts o)%Z.
Proof.
  unfold sum_counts.
  induction 1 as [|e rest He Hrest [IHlen IHin]]; simpl.
  - split; [lia | intros entry []].
  - split; [lia|]. intros entry [<- | Hin]; [lia|].
    specialize (IHin entry Hin). lia.
Qed.

(** Over integer counts: the numbers of the statistics are consistent. *)
Lemma counts_statistics_are_consistent (now : string)
  (this : ResultsAnalyzer.t) :
  let statistics := result (getStatistics now) this in
  let most := Statistics.mostFrequent statistics in
  most = result getFinalRecommendation this
  /\ Statistics.uniqueStrategies statistics
     <= Statistics.validRecommendations statistics
     <= Statistics.totalCriteria statistics
  /\ FinalRecommendation.total most = Statistics.totalCriteria statistics
  /\ (FinalRecommendation.strategy most = None
      <-> Statistics.validRecommendations statistics = 0)
  /\ (FinalRecommendation.strategy most = None
      -> FinalRecommendation.frequency most = 0%Z)
  /\ (FinalRecommendation.strategy most <> None
      -> (1 <= FinalRecommendation.frequency most
          <= Z.of_nat (Statistics.validRecommendations statistics))%Z).
Proof.
  intros statistics most. subst most statistics.
  destruct (sorted_frequency this)
    as [Hperm [Hnd [Hnds [Hpos [Hsorted Hsum]]]]].
  destruct (counts_below_sum _ Hpos) as [Hlen Hin].
  pose proof (filter_split_length is_valid (recommendations this)) as Hsplit.
  assert (Hkeys : List.length
                    (Obj.keys (fold_left tally (recommendations this) []))
                  = List.length (fold_left tally (recommendations this) [])).
  { unfold Obj.keys. rewrite length_map.
    apply Permutation_length, entries_perm. }
  unfold result, getStatistics. simpl.
  destruct (Obj.sort by_count_descending
              (Obj.entries (fold_left tally (recommendations this) [])))
    as [|a rest] eqn:Hsort.
  - destruct (final_of_nothing this Hsort) as [_ Hempty].
    rewrite final_on_empty by now rewrite Hempty.
    simpl. rewrite Hempty in *. unfold sum_counts in Hsum. simpl in *.
    split; [reflexivity|]. split; [lia|]. split; [reflexivity|].
    split; [split; [intros _; lia | reflexivity]|].
    split; [reflexivity|]. intros Hne. now destruct Hne.
  - rewrite (final_on_entries this a rest Hsort). simpl.
    assert (Ha : In a (fold_left tally (recommendations this) [])).
    { apply (Permutation_in _ Hperm). now left. }
    pose proof (Hin a Ha) as Hle.
    rewrite Forall_forall in Hpos. pose proof (Hpos a Ha) as Hone.
    split; [reflexivity|]. split; [lia|]. split; [reflexivity|].
    split; [split; [discriminate | intros Hz; lia]|].
    split; [discriminate|]. intros _. lia.
Qed.

End Counting.

(* ================================================================== *)
(** * A run of the application *)
(* ================================================================== *)

Section Run.

Import DecisionMatrix Criteria ResultsAnalyzer Props Terms.
Import DecisionAnalysisApp.

Lemma or_undetermined_idempotent (name : option string) :
  or_undetermined (Some (or_undetermined name)) = or_undetermined name.
Proof.
  pose proof (or_undetermined_truthy name) as H.
  unfold or_undetermined at 1. now rewrite H.
Qed.

Lemma run_criterion_records (env : Environment) (matrix : DecisionMatrix.t)
  (k : nat) (config : Config) (this : ResultsAnalyzer.t) :
  exists rec,
    after (run_criterion env matrix k config) this
    = {| recommendations := recommendations this ++ [rec];
         timestamp := timestamp this;
         analysisType := analysisType this |}
    /\ Recommendation.id rec = List.length (recommendations this) + 1
    /\ records env matrix config rec.
Proof.
  unfold run_criterion, records, outcome.
  destruct (createCriterion (type config) (params config)) as [criterion|e];
    simpl.
  - destruct (calculate criterion matrix) as [r|e] eqn:Hrun; simpl.
    + eexists. split; [reflexivity|]. simpl.
      split; [reflexivity|]. split; [reflexivity|].
      split; [reflexivity|]. split; [|reflexivity].
      destruct (calculate_shape criterion matrix r Hrun) as [_ [_ Hname]].
      unfold strategy_or_undetermined. rewrite Hname.
      apply or_undetermined_idempotent.
    + eexists. split; [reflexivity|]. simpl. now repeat split.
  - eexists. split; [reflexivity|]. simpl. now repeat split.
Qed.

Lemma forEach_records (env : Environment) (matrix : DecisionMatrix.t)
  (configs : list Config) :
  forall k this,
    exists recs,
      after (forEach (run_criterion env matrix) k configs) this
      = {| recommendations := recommendations this ++ recs;
           timestamp := timestamp this;
           analysisType := analysisType this |}
      /\ Forall2 (records env matrix) configs recs
      /\ map Recommendation.id recs
         = seq (List.length (recommendations this) + 1)
             (List.length configs).
Proof.
  induction configs as [|config rest IH]; intros k this.
  - exists []. simpl. unfold after. simpl. rewrite app_nil_r.
    split; [now destruct this|]. split; constructor.
  - destruct (run_criterion_records env matrix k config this)
      as [rec [Hone [Hid Hrec]]].
    destruct (IH (S k) (after (run_criterion env matrix k config) this))
      as [recs [Hrest [Hall Hids]]].
    exists (rec :: recs). split; [|split].
    + unfold after in *. simpl.
      destruct (run_criterion env matrix k config this) as [u this'].
      simpl in *. rewrite Hrest, Hone. simpl.
      now rewrite <- app_assoc.
    + now constructor.
    + simpl. rewrite Hid, Hids, Hone. simpl. rewrite length_app. simpl.
      f_equal. f_equal. lia.
Qed.

(** X15.  Whatever the matrix, the parameters and the analyzer hold, a
    run under uncertainty appends exactly four recommendations, of the
    types wald, maximax, savage and hurwitz in that order, and a run under
    risk exactly two, bayes and laplace: a criterion that throws does not
    stop the others.  A recommendation carries the strategy of its result,
    or the undetermined sentinel and the message of the error its criterion
    threw. *)
Theorem every_criterion_leaves_a_recommendation (env : Environment)
  (k : nat) (this : DecisionAnalysisApp.t) (analyzer : ResultsAnalyzer.t) :
  (exists recs,
     recommendations (after (calculateUncertaintyResults env k this) analyzer)
     = recommendations analyzer ++ recs
     /\ map Recommendation.type recs
        = ["wald"; "maximax"; "savage"; "hurwitz"]%string
     /\ Forall2 (records env (matrix this))
          (uncertainty_config (alpha this)) recs)
  /\ (exists recs,
        recommendations (after (calculateRiskResults env k this) analyzer)
        = recommendations analyzer ++ recs
        /\ map Recommendation.type recs = ["bayes"; "laplace"]%string
        /\ Forall2 (records env (matrix this))
             (risk_config (probabilities this)) recs).
Proof.
  assert (Htypes : forall configs recs,
            Forall2 (records env (matrix this)) configs recs ->
            map Recommendation.type recs = map type configs).
  { induction 1 as [|c r cs rs [Htype _] _ IH]; simpl; [reflexivity|].
    now rewrite Htype, IH. }
  split.
  - unfold calculateUncertaintyResults.
    destruct (forEach_records env (matrix this)
                (uncertainty_config (alpha this)) k analyzer)
      as [recs [Hrun [Hall _]]].
    exists recs. rewrite Hrun. simpl. split; [reflexivity|].
    split; [|exact Hall]. now rewrite (Htypes _ _ Hall).
  - unfold calculateRiskResults.
    destruct (forEach_records env (matrix this)
                (risk_config (probabilities this)) k analyzer)
      as [recs [Hrun [Hall _]]].
    exists recs. rewrite Hrun. simpl. split; [reflexivity|].
    split; [|exact Hall]. now rewrite (Htypes _ _ Hall).
Qed.

Lemma calculateResults_state (env : Environment)
  (this : DecisionAnalysisApp.t) :
  let configs :=
    if String.eqb (selectedCondition this) "uncertainty"
    then uncertainty_config (alpha this)
    else risk_config (probabilities this) in
  exists recs,
    resultsAnalyzer (calculateResults env this)
    = {| recommendations := recs;
         timestamp := Some (now env 0);
         analysisType := selectedCondition this |}
    /\ Forall2 (records env (matrix this)) configs recs
    /\ map Recommendation.id recs = seq 1 (List.length configs).
Proof.
  unfold calculateResults. simpl.
  unfold after, ResultsAnalyzer.clear, setAnalysisType. simpl.
  set (blank := {| recommendations := [];
                   timestamp := Some (now env 0);
                   analysisType := selectedCondition this |}).
  destruct (String.eqb (selectedCondition this) "uncertainty").
  - destruct (forEach_records env (matrix this)
                (uncertainty_config (alpha this)) 1 blank)
      as [recs [Hrun [Hall Hids]]].
    exists recs. unfold after, calculateUncertaintyResults in *.
    rewrite Hrun. now repeat split.
  - destruct (forEach_records env (matrix this)
                (risk_config (probabilities this)) 1 blank)
      as [recs [Hrun [Hall Hids]]].
    exists recs. unfold after, calculateRiskResults in *.
    rewrite Hrun. now repeat split.
Qed.

(** X16.  [calculateResults] starts afresh: whatever the analyzer held
    before, it holds afterwards the recommendations of this run only,
    numbered from 1 (four under uncertainty, two otherwise), under the
    selected kind of analysis; the matrix and the parameters of the
    application are untouched. *)
Theorem calculateResults_starts_afresh (env : Environment)
  (this : DecisionAnalysisApp.t) :
  let next := calculateResults env this in
  let uncertainty := String.eqb (selectedCondition this) "uncertainty" in
  map Recommendation.id (recommendations (resultsAnalyzer next))
  = (if uncertainty then [1; 2; 3; 4] else [1; 2])
  /\ map Recommendation.type (recommendations (resultsAnalyzer next))
     = (if uncertainty then ["wald"; "maximax"; "savage"; "hurwitz"]
        else ["bayes"; "laplace"])%string
  /\ analysisType (resultsAnalyzer next) = selectedCondition this
  /\ timestamp (resultsAnalyzer next) = Some (now env 0)
  /\ matrix next = matrix this
  /\ alpha next = alpha this
  /\ probabilities next = probabilities this
  /\ selectedCondition next = selectedCondition this.
Proof.
  intros next uncertainty. subst next uncertainty.
  destruct (calculateResults_state env this) as [recs [Hstate [Hall Hids]]].
  rewrite Hstate. simpl.
  assert (Htypes : forall configs,
            Forall2 (records env (matrix this)) configs recs ->
            map Recommendation.type recs = map type configs).
  { clear. intros configs.
    induction 1 as [|c r cs rs [Htype _] _ IH]; simpl; [reflexivity|].
    now rewrite Htype, IH. }
  rewrite (Htypes _ Hall), Hids.
  destruct (String.eqb (selectedCondition this) "uncertainty");
    now repeat split.
Qed.

Lemma complete_matrix_returns (matrix : DecisionMatrix.t)
  (criterion : Criterion) :
  (forall i, i < strategiesCount matrix -> has_row matrix i = true) ->
  match criterion with
  | BayesCriterion p =>
      exists l, p = Some l /\ statesCount matrix <= List.length l
  | _ => True
  end ->
  exists r, calculate criterion matrix = Normal r.
Proof.
  intros Hrows Hbayes.
  assert (Hrow : forall i, In i (seq 0 (strategiesCount matrix)) ->
                   exists row, nth_error (data matrix) i = Some row).
  { intros i Hi. apply in_seq in Hi. specialize (Hrows i ltac:(lia)).
    unfold has_row in Hrows.
    destruct (nth_error (data matrix) i) as [row|]; [|discriminate].
    now exists row. }
  assert (Hdone : forall (body : nat -> completion number)
                    (finish : list number -> CriterionResult),
            (forall i, In i (seq 0 (strategiesCount matrix)) ->
                       exists v, body i = Normal v) ->
            exists r,
              JS.bind (for_push (strategiesCount matrix) body)
                (fun values => Normal (finish values)) = Normal r).
  { intros body finish Hbody. unfold for_push.
    destruct (collect_normal body (seq 0 (strategiesCount matrix)) Hbody)
      as [vs [-> _]].
    simpl. now eexists. }
  destruct criterion as [| | |alpha|p|]; simpl;
    unfold calculate_wald, calculate_maximax, calculate_savage,
      calculate_hurwitz, calculate_laplace, mbind, ret; simpl.
  - apply Hdone. intros i Hi. destruct (Hrow i Hi) as [row Hi'].
    unfold join_row. rewrite Hi'. simpl. now eexists.
  - apply Hdone. intros i Hi. destruct (Hrow i Hi) as [row Hi'].
    unfold join_row. rewrite Hi'. simpl. now eexists.
  - apply Hdone. intros i Hi. destruct (Hrow i Hi) as [row Hi'].
    apply for_fold_normal. intros acc j _.
    unfold savage_step, read_cell. rewrite Hi'. simpl. now eexists.
  - apply Hdone. intros i _. now eexists.
  - destruct Hbayes as [l [-> Hlen]].
    destruct (bayes_returns l matrix Hlen Hrows) as [r [Hr _]].
    now exists r.
  - apply Hdone. intros i Hi. destruct (Hrow i Hi) as [row Hi'].
    apply for_fold_normal. intros acc j _.
    unfold laplace_step, read_cell. rewrite Hi'. simpl. now eexists.
Qed.

Lemma normProbs_length (probabilities : list number) :
  List.length (normProbs probabilities) = List.length probabilities.
Proof.
  unfold normProbs. apply length_map.
Qed.

(** X17.  When every strategy within [strategiesCount] has a row, and
    under risk the application holds a probability for every state, no
    criterion of the run fails: each recommendation of [calculateResults]
    comes from a result. *)
Theorem no_criterion_fails_on_complete_matrix (env : Environment)
  (this : DecisionAnalysisApp.t) :
  (forall i, i < strategiesCount (matrix this) ->
             has_row (matrix this) i = true) ->
  (String.eqb (selectedCondition this) "uncertainty" = false ->
   statesCount (matrix this) <= List.length (probabilities this)) ->
  Forall succeeded
    (recommendations (resultsAnalyzer (calculateResults env this))).
Proof.
  intros Hrows Hprobs.
  destruct (calculateResults_state env this) as [recs [-> [Hall _]]].
  simpl.
  assert (Hok : forall config rec,
            records env (matrix this) config rec ->
            (exists criterion,
               createCriterion (type config) (params config)
               = Normal criterion
               /\ match criterion with
                  | BayesCriterion p =>
                      exists l, p = Some l
                                /\ statesCount (matrix this) <= List.length l
                  | _ => True
                  end) ->
            succeeded rec).
  { intros config rec [_ Hrec] [criterion [Hmade Hside]].
    destruct (complete_matrix_returns (matrix this) criterion Hrows Hside)
      as [r Hr].
    unfold outcome in Hrec. rewrite Hmade in Hrec. simpl in Hrec.
    rewrite Hr in Hrec. simpl in Hrec. destruct Hrec as [Hdetails _].
    now exists r. }
  destruct (String.eqb (selectedCondition this) "uncertainty") eqn:Hkind.
  - inversion Hall as [|c1 r1 cs1 rs1 H1 Hall1]; subst.
    inversion Hall1 as [|c2 r2 cs2 rs2 H2 Hall2]; subst.
    inversion Hall2 as [|c3 r3 cs3 rs3 H3 Hall3]; subst.
    inversion Hall3 as [|c4 r4 cs4 rs4 H4 Hall4]; subst.
    inversion Hall4; subst.
    repeat constructor;
      (eapply Hok; [eassumption|]); eexists; (split; [reflexivity | exact I]).
  - specialize (Hprobs eq_refl).
    inversion Hall as [|c1 r1 cs1 rs1 H1 Hall1]; subst.
    inversion Hall1 as [|c2 r2 cs2 rs2 H2 Hall2]; subst.
    inversion Hall2; subst.
    constructor; [|constructor; [|constructor]].
    + eapply Hok; [eassumption|]. eexists. split; [reflexivity|].
      eexists. split; [reflexivity|]. now rewrite normProbs_length.
    + eapply Hok; [eassumption|]. eexists. split; [reflexivity | exact I].
Qed.

Lemma no_criterion_fails_on_complete_matrix_witness :
  Forall succeeded
    (recommendations
       (resultsAnalyzer
          (calculateResults Sessions.environment Sessions.at_risk))).
Proof.
  apply no_criterion_fails_on_complete_matrix.
  - intros i Hi. simpl in Hi.
    do 4 (destruct i as [|i]; [reflexivity|]). lia.
  - intros _. simpl. lia.
Defined.

Lemma recorded_by_some_config (env : Environment)
  (matrix : DecisionMatrix.t) (configs : list Config)
  (recs : list Recommendation.t) (rec : Recommendation.t) :
  Forall2 (records env matrix) configs recs ->
  In rec recs ->
  exists config, records env matrix config rec.
Proof.
  induction 1 as [|c r cs rs Hone _ IH]; intros Hin; [destruct Hin|].
  destruct Hin as [<- | Hin]; [now exists c | now apply IH].
Qed.

(** X19.  Only determined results vote: a recommendation of a run that
    the analyzer counts as valid comes from a criterion that returned, with
    an optimal index inside the matrix, and carries the strategy of that
    result.  A criterion that threw, or whose index is [-1], is recorded but
    never counted. *)
Theorem only_determined_results_vote (env : Environment)
  (this : DecisionAnalysisApp.t) (rec : Recommendation.t) :
  In rec (recommendations (resultsAnalyzer (calculateResults env this))) ->
  is_valid rec = true ->
  exists r,
    Recommendation.details rec = Result r
    /\ Recommendation.strategy rec = strategy r
    /\ (0 <= optimalIndex r < Z.of_nat (strategiesCount (matrix this)))%Z.
Proof.
  intros Hin Hvalid.
  destruct (calculateResults_state env this) as [recs [Hstate [Hall _]]].
  rewrite Hstate in Hin. simpl in Hin.
  destruct (recorded_by_some_config _ _ _ _ _ Hall Hin)
    as [config [_ Hrec]].
  unfold outcome in Hrec.
  destruct (createCriterion (type config) (params config)) as [criterion|e];
    simpl in Hrec.
  - destruct (calculate criterion (matrix this)) as [r|e] eqn:Hrun;
      simpl in Hrec.
    + destruct Hrec as [Hdetails [Hstrategy _]].
      exists r. split; [exact Hdetails|]. split; [exact Hstrategy|].
      pose proof (calculate_length criterion _ r Hrun) as Hlen.
      destruct (calculate_shape criterion _ r Hrun) as [_ [Hindex Hname]].
      destruct (indexOf_from_range (values r) (optimalValue r) 0)
        as [Hminus | Hrange].
      * exfalso. fold (indexOf (values r) (optimalValue r)) in Hminus.
        rewrite <- Hindex in Hminus. rewrite Hminus in Hname.
        rewrite (undetermined_is_invalid rec) in Hvalid; [discriminate|].
        now rewrite Hstrategy, Hname.
      * fold (indexOf (values r) (optimalValue r)) in Hrange.
        rewrite <- Hindex in Hrange. lia.
    + destruct Hrec as [_ [Hstrategy _]].
      now rewrite (undetermined_is_invalid rec Hstrategy) in Hvalid.
  - destruct Hrec as [_ [Hstrategy _]].
    now rewrite (undetermined_is_invalid rec Hstrategy) in Hvalid.
Qed.

Lemma only_determined_results_vote_witness :
  exists rec r,
    nth_error
      (recommendations
         (resultsAnalyzer
            (calculateResults Sessions.environment Sessions.missing_row))) 3
    = Some rec
    /\ Recommendation.details rec = Result r
    /\ Recommendation.strategy rec = strategy r
    /\ (0 <= optimalIndex r < 2)%Z.
Proof.
  eexists.
  destruct (only_determined_results_vote Sessions.environment
              Sessions.missing_row
              (nth 3
                 (recommendations
                    (resultsAnalyzer
                       (calculateResults Sessions.environment
                          Sessions.missing_row)))
                 {| Recommendation.id := 0;
                    Recommendation.criterion := EmptyString;
                    Recommendation.strategy := EmptyString;
                    Recommendation.type := EmptyString;
                    Recommendation.details := NoDetails;
                    Recommendation.timestamp := EmptyString |}))
    as [r [Hdetails [Hstrategy Hrange]]].
  - vm_compute. right. right. right. left. reflexivity.
  - vm_compute. reflexivity.
  - exists r. split; [vm_compute; reflexivity|].
    split; [exact Hdetails|]. split; [exact Hstrategy | exact Hrange].
Defined.

End Run.

(* ================================================================== *)
(** * The sign of a difference *)
(* ================================================================== *)

Section Differences.

Import Terms.

Lemma shr_1_nonneg (mrs : shr_record) :
  (0 <= shr_m mrs)%Z -> (0 <= shr_m (shr_1 mrs))%Z.
Proof.
  destruct mrs as [m r s]. simpl.
  destruct m as [|[p|p|]|[p|p|]]; simpl; lia.
Qed.

Lemma iter_shr_nonneg (n : positive) :
  forall mrs,
    (0 <= shr_m mrs)%Z -> (0 <= shr_m (SpecFloat.iter_pos shr_1 n mrs))%Z.
Proof.
  induction n as [n IH|n IH|]; intros mrs Hm; simpl.
  - apply IH, IH. now apply shr_1_nonneg.
  - now apply IH, IH.
  - now apply shr_1_nonneg.
Qed.

Lemma shr_fexp_nonneg (m e : Z) (l : location) :
  (0 <= m)%Z -> (0 <= shr_m (fst (shr_fexp prec emax m e l)))%Z.
Proof.
  intros Hm. unfold shr_fexp, shr.
  assert (Hstart : (0 <= shr_m (shr_record_of_loc m l))%Z).
  { destruct l as [|[| |]]; exact Hm. }
  destruct (fexp prec emax (Zdigits2 m + e) - e)%Z; simpl;
    [exact Hstart | now apply iter_shr_nonneg | exact Hstart].
Qed.

Lemma round_nearest_even_nonneg (m : Z) (l : location) :
  (0 <= m)%Z -> (0 <= round_nearest_even m l)%Z.
Proof.
  intros Hm. destruct l as [|[| |]]; simpl; try lia.
  destruct (Z.even m); lia.
Qed.

Lemma binary_round_aux_nonneg (m e : Z) (l : location) :
  (0 <= m)%Z -> at_least_zero (binary_round_aux prec emax false m e l).
Proof.
  intros Hm. unfold binary_round_aux.
  pose proof (shr_fexp_nonneg m e l Hm) as H1.
  destruct (shr_fexp prec emax m e l) as [mrs' e']. simpl in H1.
  pose proof (shr_fexp_nonneg
                (round_nearest_even (shr_m mrs') (loc_of_shr_record mrs'))
                e' loc_Exact
                (round_nearest_even_nonneg _ _ H1)) as H2.
  destruct (shr_fexp prec emax _ e' loc_Exact) as [mrs'' e'']. simpl in H2.
  destruct (shr_m mrs''); [exact I | | lia].
  match goal with
  | |- context [if ?b then _ else _] => destruct b
  end; reflexivity.
Qed.

Lemma binary_normalize_nonneg (m e : Z) :
  (0 <= m)%Z -> at_least_zero (binary_normalize prec emax m e false).
Proof.
  intros Hm. destruct m as [|p|p]; simpl; [exact I | | lia].
  unfold binary_round. destruct (shl_align p e _) as [mz ez].
  now apply binary_round_aux_nonneg.
Qed.

Lemma shl_align_value (m : positive) (e e' : Z) :
  (e' <= e)%Z ->
  Zpos (fst (shl_align m e e')) = (Zpos m * 2 ^ (e - e'))%Z.
Proof.
  intros Hle. unfold shl_align.
  destruct (e' - e)%Z as [|d|d] eqn:Hd.
  - replace (e - e')%Z with 0%Z by lia. simpl. lia.
  - exfalso. pose proof (Pos2Z.is_pos d). lia.
  - simpl. destruct (iter_xO_shift m d) as [_ ->].
    replace (e - e')%Z with (Zpos d); [reflexivity|].
    pose proof (Pos2Z.opp_pos d). lia.
Qed.

Lemma bounded_exponent (m : positive) (e : Z) :
  bounded prec emax m e = true -> (-1074 <= e)%Z.
Proof.
  unfold bounded, canonical_mantissa, fexp, emin. intros H.
  apply andb_prop in H. destruct H as [H _]. apply Z.eqb_eq in H.
  change (3 - emax - prec)%Z with (-1074)%Z in H. lia.
Qed.

(** The aligned mantissa of the number with the larger exponent is not
    below the other mantissa. *)
Lemma aligned_above (mx my : positive) (ex ey : Z) :
  bounded prec emax mx ex = true ->
  bounded prec emax my ey = true ->
  (ey < ex)%Z ->
  (Zpos my <= Zpos mx * 2 ^ (ex - ey))%Z.
Proof.
  intros Hx Hy Hlt.
  pose proof (bounded_exponent my ey Hy) as Hmin.
  destruct (bounded_mantissa mx ex Hx) as [_ Hlow].
  destruct (bounded_mantissa my ey Hy) as [Hhigh _].
  specialize (Hlow ltac:(lia)).
  assert (Hpow : (2 ^ 1 <= 2 ^ (ex - ey))%Z)
    by (apply Z.pow_le_mono_r; lia).
  change (2 ^ 1)%Z with 2%Z in Hpow.
  change (2 ^ 53)%Z with (2 * 2 ^ 52)%Z in Hhigh.
  remember (2 ^ 52)%Z as T. remember (2 ^ (ex - ey))%Z as P.
  nia.
Qed.

Lemma SFsub_nonneg (x y : spec_float) :
  valid_binary x = true ->
  valid_binary y = true ->
  match x with S754_zero _ | S754_finite _ _ _ => True | _ => False end ->
  match y with S754_zero _ | S754_finite _ _ _ => True | _ => False end ->
  SFleb y x = true ->
  at_least_zero (SFsub prec emax x y).
Proof.
  intros Hvx Hvy Hfx Hfy Hle.
  destruct x as [sx|sx| |sx mx ex]; try destruct Hfx;
    destruct y as [sy|sy| |sy my ey]; try destruct Hfy.
  - simpl. now destruct sx, sy.
  - simpl in *. unfold SFleb in Hle. simpl in Hle. now destruct sy.
  - simpl in *. unfold SFleb in Hle. simpl in Hle. now destruct sx.
  - simpl in Hvx, Hvy. unfold SFsub.
    apply binary_normalize_nonneg.
    rewrite !shl_align_value by lia.
    unfold SFleb, SFcompare in Hle.
    destruct sx, sy; unfold cond_Zopp.
    + (* both negative *)
      destruct (Z.compare_spec ey ex) as [Heq | Hlt | Hgt];
        [| discriminate |].
      * subst ey. rewrite Z.min_id, Z.sub_diag, Z.pow_0_r.
        pose proof (compare_cont_cases my mx) as Hc.
        destruct (Pos.compare_cont Eq my mx); simpl in Hle;
          [subst; lia | discriminate | lia].
      * rewrite Z.min_l by lia. rewrite Z.sub_diag, Z.pow_0_r.
        pose proof (aligned_above my mx ey ex Hvy Hvx Hgt). lia.
    + discriminate.
    + pose proof (Z.pow_pos_nonneg 2 (ex - Z.min ex ey) ltac:(lia) ltac:(lia)).
      pose proof (Z.pow_pos_nonneg 2 (ey - Z.min ex ey) ltac:(lia) ltac:(lia)).
      nia.
    + (* both positive *)
      destruct (Z.compare_spec ey ex) as [Heq | Hlt | Hgt];
        [| | discriminate].
      * subst ey. rewrite Z.min_id, Z.sub_diag, Z.pow_0_r.
        pose proof (compare_cont_cases my mx) as Hc.
        destruct (Pos.compare_cont Eq my mx); simpl in Hle;
          [subst; lia | lia | discriminate].
      * rewrite Z.min_r by lia. rewrite Z.sub_diag, Z.pow_0_r.
        pose proof (aligned_above mx my ex ey Hvx Hvy Hlt). lia.
Qed.

Lemma at_least_zero_spec (x : number) :
  at_least_zero (Prim2SF x) -> le 0%float x = true.
Proof.
  unfold le. rewrite FloatAxioms.leb_spec.
  replace (Prim2SF 0) with (S754_zero false) by (vm_compute; reflexivity).
  unfold SFleb. destruct (Prim2SF x) as [s|s| |s m e]; simpl;
    intros H; try subst s; try reflexivity. destruct H.
Qed.

Lemma finite_shape (x : number) :
  is_finite x = true ->
  valid_binary (Prim2SF x) = true
  /\ match Prim2SF x with
     | S754_zero _ | S754_finite _ _ _ => True
     | _ => False
     end.
Proof.
  intros Hx. split; [apply Prim2SF_valid|].
  destruct (finite_cases x Hx) as [[s ->] | [s [m [e [-> _]]]]]; exact I.
Qed.

(** For finite [a >= b], the difference [a - b] is a number at least
    zero, [+Infinity] included. *)
Lemma sub_nonneg (a b : number) :
  is_finite a = true -> is_finite b = true ->
  le b a = true -> le 0%float (a - b)%float = true.
Proof.
  intros Ha Hb Hle. apply at_least_zero_spec. rewrite sub_spec.
  destruct (finite_shape a Ha) as [Hva Hfa].
  destruct (finite_shape b Hb) as [Hvb Hfb].
  unfold le in Hle. rewrite FloatAxioms.leb_spec in Hle.
  now apply SFsub_nonneg.
Qed.

Lemma neg_infinity_below (x : number) :
  le 0%float x = true -> (neg_infinity <? x)%float = true.
Proof.
  unfold le. rewrite FloatAxioms.leb_spec, FloatAxioms.ltb_spec.
  replace (Prim2SF 0) with (S754_zero false) by (vm_compute; reflexivity).
  replace (Prim2SF neg_infinity) with (S754_infinity true)
    by (vm_compute; reflexivity).
  unfold SFleb, SFltb.
  destruct (Prim2SF x) as [s|s| |s m e]; try destruct s; simpl;
    intros H; try discriminate; reflexivity.
Qed.

End Differences.

(* ================================================================== *)
(** * Savage's regrets *)
(* ================================================================== *)

Section Regrets.

Import DecisionMatrix Criteria Props Terms.

Lemma column_fold_attained (matrix : DecisionMatrix.t) (j : nat)
  (rows : list nat) :
  forall max,
    fold_left (column_step matrix j) rows max = max
    \/ exists i row,
         In i rows
         /\ nth_error (data matrix) i = Some row
         /\ fold_left (column_step matrix j) rows max
            = ToNumber (nth_error row j).
Proof.
  induction rows as [|k rest IH]; intros max; simpl; [now left|].
  destruct (IH (column_step matrix j max k)) as [-> | [i [row [Hi [Hrow ->]]]]].
  - unfold column_step.
    destruct (nth_error (data matrix) k) as [row|] eqn:Hrow; [|now left].
    cbv zeta. destruct (gt _ max); [|now left].
    right. exists k, row. repeat split; [now left | exact Hrow].
  - right. exists i, row. repeat split; [now right | exact Hrow].
Qed.

Lemma finite_cell (matrix : DecisionMatrix.t) (i j : nat) :
  rectangular matrix ->
  finite_cells matrix ->
  i < strategiesCount matrix ->
  j < statesCount matrix ->
  exists row x,
    nth_error (data matrix) i = Some row
    /\ nth_error row j = Some x
    /\ is_finite x = true.
Proof.
  intros [Hrows Hcols] Hfin Hi Hj.
  destruct (nth_error (data matrix) i) as [row|] eqn:Hrow;
    [|apply nth_error_None in Hrow; lia].
  pose proof (nth_error_In _ _ Hrow) as Hin.
  unfold finite_cells in Hfin. rewrite Forall_forall in Hcols, Hfin.
  pose proof (Hcols row Hin) as Hlen. pose proof (Hfin row Hin) as Hcells.
  destruct (nth_error row j) as [x|] eqn:Hx;
    [|apply nth_error_None in Hx; lia].
  exists row, x. split; [reflexivity|]. split; [exact Hx|].
  rewrite Forall_forall in Hcells. apply Hcells.
  now apply nth_error_In in Hx.
Qed.

Lemma column_max_finite (matrix : DecisionMatrix.t) (j : nat) :
  rectangular matrix ->
  finite_cells matrix ->
  j < statesCount matrix ->
  is_finite (getColumnMax matrix j) = true
  /\ forall i x, i < strategiesCount matrix ->
       cell matrix i j = Some x ->
       le x (getColumnMax matrix j) = true.
Proof.
  intros Hrect Hfin Hj. unfold getColumnMax. cbv zeta.
  destruct (column_fold_bound matrix j (seq 0 (strategiesCount matrix))
              neg_infinity eq_refl) as [_ [_ Hall]].
  split.
  - destruct (column_fold_attained matrix j
                (seq 0 (strategiesCount matrix)) neg_infinity)
      as [-> | [i [row [Hi [Hrow ->]]]]]; [reflexivity|].
    apply in_seq in Hi.
    destruct (finite_cell matrix i j Hrect Hfin ltac:(lia) Hj)
      as [row' [x [Hrow' [Hx Hfinite]]]].
    rewrite Hrow in Hrow'. injection Hrow' as <-. rewrite Hx. simpl.
    now destruct (strict_equals x neg_infinity).
  - intros i x Hi Hx.
    assert (Hnum : is_nan x = false).
    { destruct (finite_cell matrix i j Hrect Hfin Hi Hj)
        as [row [x' [Hrow [Hx' Hfinite]]]].
      unfold cell in Hx. rewrite Hrow, Hx' in Hx. injection Hx as <-.
      now apply finite_not_nan. }
    assert (Hbound : le x (fold_left (column_step matrix j)
                             (seq 0 (strategiesCount matrix)) neg_infinity)
                     = true).
    { apply (Hall i x); try assumption. apply in_seq. lia. }
    destruct (strict_equals _ neg_infinity) eqn:Hempty; [|exact Hbound].
    apply le_trans with (y := neg_infinity); [|reflexivity].
    eapply le_trans; [exact Hbound | now apply equals_le].
Qed.

Lemma for_fold_invariant {A Acc : Type} (P : Acc -> Prop)
  (body : Acc -> A -> completion Acc) (indices : list A) :
  (forall acc i acc', In i indices -> P acc -> body acc i = Normal acc' ->
                      P acc') ->
  forall acc out,
    P acc -> for_fold body indices acc = Normal out -> P out.
Proof.
  induction indices as [|i rest IH]; intros Hstep acc out Hacc; simpl.
  - intros H. now injection H as <-.
  - destruct (body acc i) as [acc'|e] eqn:Hbody; simpl; [|discriminate].
    apply IH.
    + intros a k a' Hk. apply Hstep. now right.
    + apply (Hstep acc i acc'); [now left | exact Hacc | exact Hbody].
Qed.

(** One turn of Savage's inner loop on a finite matrix: the regret is at
    least zero, and so is the largest regret so far. *)
Lemma savage_step_nonneg (matrix : DecisionMatrix.t) (i j : nat)
  (maxRisk out : number) :
  rectangular matrix ->
  finite_cells matrix ->
  i < strategiesCount matrix ->
  j < statesCount matrix ->
  savage_step matrix
    (map (getColumnMax matrix) (seq 0 (statesCount matrix))) i maxRisk j
  = Normal out ->
  (maxRisk = neg_infinity \/ le 0%float maxRisk = true) ->
  le 0%float out = true.
Proof.
  intros Hrect Hfin Hi Hj Hstep Hacc.
  destruct (finite_cell matrix i j Hrect Hfin Hi Hj)
    as [row [x [Hrow [Hx Hfinite]]]].
  destruct (column_max_finite matrix j Hrect Hfin Hj) as [Hmax Hbound].
  unfold savage_step, read_cell, mbind, ret in Hstep. simpl in Hstep.
  rewrite Hrow in Hstep. simpl in Hstep. rewrite Hx in Hstep.
  rewrite nth_error_map in Hstep.
  rewrite nth_error_nth' with (d := 0) in Hstep by now rewrite length_seq.
  rewrite seq_nth in Hstep by exact Hj. simpl in Hstep.
  injection Hstep as <-.
  assert (Hrisk : le 0%float (getColumnMax matrix j - x)%float = true).
  { apply sub_nonneg; try assumption.
    apply (Hbound i x Hi). unfold cell. now rewrite Hrow. }
  unfold gt. destruct Hacc as [-> | Hacc].
  - now rewrite (neg_infinity_below _ Hrisk).
  - now destruct (maxRisk <? _)%float.
Qed.

Lemma savage_row_nonneg (matrix : DecisionMatrix.t) (i : nat) :
  rectangular matrix ->
  finite_cells matrix ->
  0 < statesCount matrix ->
  i < strategiesCount matrix ->
  exists v,
    for_fold
      (savage_step matrix
         (map (getColumnMax matrix) (seq 0 (statesCount matrix))) i)
      (seq 0 (statesCount matrix)) neg_infinity = Normal v
    /\ le 0%float v = true.
Proof.
  intros Hrect Hfin HN Hi.
  destruct (for_fold_normal
              (savage_step matrix
                 (map (getColumnMax matrix) (seq 0 (statesCount matrix))) i)
              (seq 0 (statesCount matrix))) with (acc := neg_infinity)
    as [v Hv].
  { intros acc j Hj. apply in_seq in Hj.
    destruct (finite_cell matrix i j Hrect Hfin Hi ltac:(lia))
      as [row [x [Hrow _]]].
    unfold savage_step, read_cell. rewrite Hrow. simpl. now eexists. }
  exists v. split; [exact Hv|].
  destruct (statesCount matrix) as [|n] eqn:Hn; [lia|].
  rewrite <- Hn in *. 
  assert (Hseq : seq 0 (statesCount matrix) = 0 :: seq 1 n).
  { now rewrite Hn. }
  rewrite Hseq in Hv at 2. simpl in Hv.
  destruct (savage_step matrix _ i neg_infinity 0) as [first|e] eqn:Hfirst;
    simpl in Hv; [|discriminate].
  assert (H0 : le 0%float first = true).
  { apply (savage_step_nonneg matrix i 0 neg_infinity first);
      first [assumption | lia | now left]. }
  refine (for_fold_invariant (fun acc => le 0%float acc = true) _ _ _
            first v H0 Hv).
  intros acc j acc' Hj Hacc Hstep. apply in_seq in Hj.
  apply (savage_step_nonneg matrix i j acc acc');
    first [assumption | lia | now right].
Qed.

(** X20.  On a matrix of finite numbers that holds its declared rows and
    columns, with at least one state, Savage returns, every regret score
    it reports is a number at least zero, and with at least one strategy
    its optimal index lies inside the matrix. *)
Theorem savage_regrets_are_nonnegative (matrix : DecisionMatrix.t) :
  rectangular matrix ->
  finite_cells matrix ->
  0 < statesCount matrix ->
  exists r,
    calculate SavageCriterion matrix = Normal r
    /\ Forall (fun v => le 0%float v = true) (values r)
    /\ (0 < strategiesCount matrix ->
        (0 <= optimalIndex r < Z.of_nat (strategiesCount matrix))%Z
        /\ le 0%float (optimalValue r) = true).
Proof.
  intros Hrect Hfin HN.
  destruct (collect_normal
              (fun i =>
                 for_fold
                   (savage_step matrix
                      (map (getColumnMax matrix)
                         (seq 0 (statesCount matrix))) i)
                   (seq 0 (statesCount matrix)) neg_infinity)
              (seq 0 (strategiesCount matrix))) as [vs [Hvs Hcount]].
  { intros i Hi. apply in_seq in Hi.
    destruct (savage_row_nonneg matrix i Hrect Hfin HN ltac:(lia))
      as [v [Hv _]].
    now exists v. }
  assert (Hall : Forall (fun v => le 0%float v = true) vs).
  { clear Hcount. revert vs Hvs.
    assert (Hin : forall i, In i (seq 0 (strategiesCount matrix)) ->
                            i < strategiesCount matrix).
    { intros i Hi. apply in_seq in Hi. lia. }
    induction (seq 0 (strategiesCount matrix)) as [|i rest IH];
      intros vs Hvs; simpl in Hvs.
    - injection Hvs as <-. constructor.
    - destruct (savage_row_nonneg matrix i Hrect Hfin HN)
        as [v [Hv Hpos]]; [apply Hin; now left|].
      rewrite Hv in Hvs. simpl in Hvs.
      destruct (collect _ rest) as [ws|e] eqn:Hws; simpl in Hvs;
        [|discriminate].
      injection Hvs as <-. constructor; [exact Hpos|].
      apply IH; [|reflexivity]. intros k Hk. apply Hin. now right. }
  assert (Hrun : calculate SavageCriterion matrix
                 = Normal {| values := vs;
                             optimalIndex := indexOf vs (Math_min vs);
                             optimalValue := Math_min vs;
                             strategy :=
                               or_undetermined
                                 (get (strategies matrix)
                                    (indexOf vs (Math_min vs)));
                             type := savage |}).
  { simpl. unfold calculate_savage, for_push, mbind, ret. simpl.
    now rewrite Hvs. }
  eexists. split; [exact Hrun|]. simpl.
  split; [exact Hall|].
  intros HS.
  assert (Hnum : Forall (fun v => is_nan v = false) vs).
  { eapply Forall_impl; [|exact Hall]. simpl. intros v Hv.
    now destruct (le_numbers _ _ Hv). }
  destruct (determined_index SavageCriterion matrix _ Hrun HS Hnum)
    as [k [Hk [Hidx _]]].
  simpl in Hidx. split; [lia|].
  destruct vs as [|x rest]; [simpl in Hcount; rewrite length_seq in Hcount; lia|].
  destruct (Math_min_attained x rest Hnum) as [w [Hw Heq]].
  rewrite Forall_forall in Hall. pose proof (Hall w Hw) as Hw0.
  eapply le_trans; [exact Hw0 | now apply equals_le].
Qed.

Lemma savage_regrets_are_nonnegative_witness :
  exists r,
    calculate SavageCriterion Examples.scenario = Normal r
    /\ Forall (fun v => le 0%float v = true) (values r).
Proof.
  destruct (savage_regrets_are_nonnegative Examples.scenario)
    as [r [Hrun [Hall _]]].
  - split; [reflexivity|]. repeat constructor.
  - repeat constructor.
  - simpl. lia.
  - exists r. now split.
Defined.

End Regrets.

(* ================================================================== *)
(** * A blank matrix *)
(* ================================================================== *)

Section Blank.

Import DecisionMatrix Criteria Props Terms MatrixEditing.

Lemma min_from_zeros (n : nat) :
  min_from 0%float (repeat 0%float n) = 0%float.
Proof.
  induction n as [|n IH]; simpl; [reflexivity | exact IH].
Qed.

Lemma max_from_zeros (n : nat) :
  max_from 0%float (repeat 0%float n) = 0%float.
Proof.
  induction n as [|n IH]; simpl; [reflexivity | exact IH].
Qed.

Lemma extremes_of_zeros (n : nat) :
  0 < n ->
  Math_min (repeat 0%float n) = 0%float
  /\ Math_max (repeat 0%float n) = 0%float
  /\ indexOf (repeat 0%float n) 0%float = 0%Z.
Proof.
  intros Hn. destruct n as [|n]; [lia|].
  unfold Math_min, Math_max. simpl.
  split; [apply min_from_zeros|]. split; [apply max_from_zeros | reflexivity].
Qed.

Lemma zeros_row (strategiesCount statesCount i : nat) :
  i < strategiesCount ->
  nth_error (zeros strategiesCount statesCount) i
  = Some (repeat 0%float statesCount).
Proof.
  intros Hi. unfold zeros.
  rewrite nth_error_nth' with (d := []) by now rewrite repeat_length.
  f_equal. apply nth_repeat_lt. exact Hi.
Qed.

Lemma zeros_cell (statesCount j : nat) :
  j < statesCount ->
  nth_error (repeat 0%float statesCount) j = Some 0%float.
Proof.
  intros Hj.
  rewrite nth_error_nth' with (d := 0%float) by now rewrite repeat_length.
  f_equal. apply nth_repeat_lt. exact Hj.
Qed.

Lemma map_constant {A B : Type} (f : A -> B) (b : B) (l : list A) :
  (forall a, In a l -> f a = b) -> map f l = repeat b (List.length l).
Proof.
  induction l as [|a rest IH]; intros Hf; simpl; [reflexivity|].
  rewrite (Hf a) by now left. f_equal. apply IH.
  intros a' Ha'. apply Hf. now right.
Qed.

Lemma fold_to_zero {A : Type} (step : number -> A -> number) (l : list A) :
  l <> [] ->
  (forall a, In a l -> step neg_infinity a = 0%float) ->
  (forall a, In a l -> step 0%float a = 0%float) ->
  fold_left step l neg_infinity = 0%float.
Proof.
  intros Hne Hfirst Hnext. destruct l as [|a rest]; [now destruct Hne|].
  simpl. rewrite (Hfirst a) by now left.
  assert (Hrest : forall a', In a' rest -> step 0%float a' = 0%float).
  { intros a' Ha'. apply Hnext. now right. }
  clear Hne Hfirst Hnext. induction rest as [|b rest IH]; simpl;
    [reflexivity|].
  rewrite (Hrest b) by now left. apply IH.
  intros a' Ha'. apply Hrest. now right.
Qed.

Lemma for_fold_to_zero {A : Type} (body : number -> A -> completion number)
  (l : list A) :
  l <> [] ->
  (forall a, In a l -> body neg_infinity a = Normal 0%float) ->
  (forall a, In a l -> body 0%float a = Normal 0%float) ->
  for_fold body l neg_infinity = Normal 0%float.
Proof.
  intros Hne Hfirst Hnext. destruct l as [|a rest]; [now destruct Hne|].
  simpl. rewrite (Hfirst a) by now left. simpl.
  assert (Hrest : forall a', In a' rest -> body 0%float a' = Normal 0%float).
  { intros a' Ha'. apply Hnext. now right. }
  clear Hne Hfirst Hnext. induction rest as [|b rest IH]; simpl;
    [reflexivity|].
  rewrite (Hrest b) by now left. simpl. apply IH.
  intros a' Ha'. apply Hrest. now right.
Qed.

Lemma seq_not_empty (n : nat) : 0 < n -> seq 0 n <> [].
Proof.
  destruct n; [lia | discriminate].
Qed.

(** On a matrix of zeros every strategy scores 0 for Wald, Maximax and
    Savage. *)
Lemma blank_scores (matrix : DecisionMatrix.t) (criterion : Criterion) :
  data matrix = zeros (strategiesCount matrix) (statesCount matrix) ->
  0 < strategiesCount matrix ->
  0 < statesCount matrix ->
  criterion = WaldCriterion \/ criterion = MaximaxCriterion
  \/ criterion = SavageCriterion ->
  exists r,
    calculate criterion matrix = Normal r
    /\ values r = repeat 0%float (strategiesCount matrix).
Proof.
  intros Hdata HS HN Hkind.
  assert (Hrow : forall i, In i (seq 0 (strategiesCount matrix)) ->
                   nth_error (data matrix) i
                   = Some (repeat 0%float (statesCount matrix))).
  { intros i Hi. apply in_seq in Hi. rewrite Hdata.
    apply zeros_row. lia. }
  destruct (extremes_of_zeros (statesCount matrix) HN) as [Hmin [Hmax _]].
  assert (Hdone : forall (body : nat -> completion number)
                    (finish : list number -> CriterionResult),
            (forall vs, values (finish vs) = vs) ->
            (forall i, In i (seq 0 (strategiesCount matrix)) ->
                       body i = Normal 0%float) ->
            exists r,
              JS.bind (for_push (strategiesCount matrix) body)
                (fun values => Normal (finish values)) = Normal r
              /\ values r = repeat 0%float (strategiesCount matrix)).
  { intros body finish Hfinish Hbody. unfold for_push.
    rewrite (collect_ext body (fun _ => Normal 0%float)) by exact Hbody.
    rewrite collect_map. simpl. eexists. split; [reflexivity|].
    rewrite Hfinish.
    rewrite (map_constant _ 0%float) by reflexivity.
    now rewrite length_seq. }
  destruct Hkind as [-> | [-> | ->]]; simpl;
    unfold calculate_wald, calculate_maximax, calculate_savage, mbind, ret;
    simpl.
  - apply Hdone; [reflexivity|]. intros i Hi.
    unfold join_row, getRowMin. rewrite (Hrow i Hi). simpl. now rewrite Hmin.
  - apply Hdone; [reflexivity|]. intros i Hi.
    unfold join_row, getRowMax. rewrite (Hrow i Hi). simpl. now rewrite Hmax.
  - assert (Hcolumn : forall j, In j (seq 0 (statesCount matrix)) ->
                        getColumnMax matrix j = 0%float).
    { intros j Hj. apply in_seq in Hj. unfold getColumnMax. cbv zeta.
      rewrite fold_to_zero; [reflexivity | now apply seq_not_empty | |];
        intros i Hi; unfold column_step; rewrite (Hrow i Hi);
        rewrite zeros_cell by lia; reflexivity. }
    apply Hdone; [reflexivity|]. intros i Hi.
    apply for_fold_to_zero; [now apply seq_not_empty | |];
      intros j Hj; unfold savage_step, read_cell;
      rewrite (Hrow i Hi); simpl;
      rewrite nth_error_map;
      pose proof Hj as Hj'; apply in_seq in Hj';
      rewrite nth_error_nth' with (d := 0) by (rewrite length_seq; lia);
      rewrite seq_nth by lia; simpl;
      rewrite (Hcolumn j Hj), zeros_cell by lia; reflexivity.
Qed.

(** X21.  After [clear()], and after [updateDimensions] or the
    constructor, a matrix with at least one strategy and one state is all
    zeros: Wald, Maximax and Savage then score every strategy 0 and, the
    scores being tied, recommend the first strategy. *)
Theorem blank_matrix_recommends_first (this : DecisionMatrix.t)
  (strategiesCount statesCount : nat) (criterion : Criterion) :
  criterion = WaldCriterion \/ criterion = MaximaxCriterion
  \/ criterion = SavageCriterion ->
  (0 < DecisionMatrix.strategiesCount this ->
   0 < DecisionMatrix.statesCount this ->
   exists r,
     calculate criterion (clear this) = Normal r
     /\ values r = repeat 0%float (DecisionMatrix.strategiesCount this)
     /\ optimalIndex r = 0%Z
     /\ strategy r = or_undetermined (nth_error (strategies this) 0))
  /\ (0 < strategiesCount ->
      0 < statesCount ->
      exists r,
        calculate criterion (updateDimensions strategiesCount statesCount this)
        = Normal r
        /\ values r = repeat 0%float strategiesCount
        /\ optimalIndex r = 0%Z
        /\ strategy r = "Регион A"%string).
Proof.
  intros Hkind.
  assert (Hfirst : forall matrix r,
            calculate criterion matrix = Normal r ->
            0 < DecisionMatrix.strategiesCount matrix ->
            values r = repeat 0%float (DecisionMatrix.strategiesCount matrix) ->
            optimalIndex r = 0%Z
            /\ strategy r = or_undetermined (nth_error (strategies matrix) 0)).
  { intros matrix r Hrun HS Hvalues.
    destruct (calculate_shape criterion matrix r Hrun)
      as [Hvalue [Hindex Hname]].
    destruct (extremes_of_zeros _ HS) as [Hmin [Hmax Hzero]].
    assert (Hbest : optimalValue r = 0%float).
    { rewrite Hvalue, Hvalues.
      destruct Hkind as [-> | [-> | ->]]; simpl; assumption. }
    assert (Hidx : optimalIndex r = 0%Z).
    { now rewrite Hindex, Hbest, Hvalues. }
    split; [exact Hidx|]. now rewrite Hname, Hidx. }
  split.
  - intros HS HN.
    destruct (blank_scores (clear this) criterion eq_refl HS HN Hkind)
      as [r [Hrun Hvalues]].
    destruct (Hfirst (clear this) r Hrun HS Hvalues) as [Hidx Hname].
    exists r. now repeat split.
  - intros HS HN.
    destruct (blank_scores (updateDimensions strategiesCount statesCount this)
                criterion eq_refl HS HN Hkind) as [r [Hrun Hvalues]].
    destruct (Hfirst _ r Hrun HS Hvalues) as [Hidx Hname].
    exists r. repeat split; try assumption.
    rewrite Hname. simpl.
    destruct strategiesCount as [|n]; [lia | reflexivity].
Qed.

Lemma blank_matrix_recommends_first_witness :
  exists r,
    calculate SavageCriterion (clear Examples.scenario) = Normal r
    /\ values r = [0; 0; 0; 0]%float
    /\ optimalIndex r = 0%Z
    /\ strategy r = "Регион A"%string.
Proof.
  destruct (blank_matrix_recommends_first Examples.scenario 1 1
              SavageCriterion) as [Hclear _].
  - right. now right.
  - apply Hclear; simpl; lia.
Defined.

End Blank.

(* ================================================================== *)
(** * Looking the recommendations up *)
(* ================================================================== *)

Section Queries.

Import Criteria ResultsAnalyzer Props Terms AnalyzerQueries.
Import DecisionAnalysisApp.

Lemma filter_by_type (criterionType : string)
  (recs : list Recommendation.t) :
  map Recommendation.type
    (filter (fun rec => String.eqb (Recommendation.type rec) criterionType)
       recs)
  = filter (fun type => String.eqb type criterionType)
      (map Recommendation.type recs).
Proof.
  induction recs as [|rec rest IH]; simpl; [reflexivity|].
  destruct (String.eqb (Recommendation.type rec) criterionType); simpl;
    now rewrite IH.
Qed.

(** X22.  After a run of the application, [getRecommendationsByType]
    returns exactly one recommendation for each criterion of the selected
    kind of analysis and none for any other type, and
    [getAllRecommendations] returns them all in the order they were
    computed; neither changes the analyzer. *)
Theorem one_recommendation_per_criterion (env : Environment)
  (this : DecisionAnalysisApp.t) (criterionType : string) :
  let analyzer := resultsAnalyzer (calculateResults env this) in
  let types :=
    (if String.eqb (selectedCondition this) "uncertainty"
     then ["wald"; "maximax"; "savage"; "hurwitz"]
     else ["bayes"; "laplace"])%string in
  map Recommendation.type (result getAllRecommendations analyzer) = types
  /\ map Recommendation.type
       (result (getRecommendationsByType criterionType) analyzer)
     = (if existsb (String.eqb criterionType) types
        then [criterionType] else [])
  /\ after getAllRecommendations analyzer = analyzer
  /\ after (getRecommendationsByType criterionType) analyzer = analyzer.
Proof.
  intros analyzer types. subst analyzer types.
  destruct (calculateResults_state env this) as [recs [Hstate [Hall _]]].
  assert (Htypes : map Recommendation.type recs
                   = map type
                       (if String.eqb (selectedCondition this) "uncertainty"
                        then uncertainty_config (alpha this)
                        else risk_config (probabilities this))).
  { clear Hstate. induction Hall as [|c r cs rs [Htype _] _ IH]; simpl;
      [reflexivity|]. now rewrite Htype, IH. }
  rewrite Hstate. unfold result, after. simpl.
  rewrite filter_by_type, Htypes.
  split; [now destruct (String.eqb (selectedCondition this) "uncertainty")|].
  split; [|now split].
  destruct (String.eqb (selectedCondition this) "uncertainty");
    unfold uncertainty_config, risk_config;
    cbn [map DecisionAnalysisApp.type filter existsb];
    rewrite !(String.eqb_sym criterionType);
    repeat match goal with
      | |- context [String.eqb ?s criterionType] =>
          let H := fresh "H" in
          destruct (String.eqb s criterionType) eqn:H;
          [apply String.eqb_eq in H; subst criterionType;
           vm_compute; reflexivity|]
      end; reflexivity.
Qed.

End Queries.

(* ================================================================== *)
(** * The final recommendation of a run, over integer counts *)
(* ================================================================== *)

Section RunCounts.

Import DecisionMatrix Criteria ResultsAnalyzer Counts Props Terms.
Import DecisionAnalysisApp.

Lemma run_totals (env : Environment) (this : DecisionAnalysisApp.t) :
  let analyzer := resultsAnalyzer (calculateResults env this) in
  List.length (recommendations analyzer) = 4
  \/ List.length (recommendations analyzer) = 2.
Proof.
  destruct (calculateResults_state env this) as [recs [-> [_ Hids]]].
  simpl. apply (f_equal (@List.length nat)) in Hids.
  rewrite length_map, length_seq in Hids. rewrite Hids.
  destruct (String.eqb (selectedCondition this) "uncertainty");
    [now left | now right].
Qed.

Ltac settle_confidence :=
  vm_compute;
  repeat split; intros; try discriminate; try reflexivity; auto 10.

(** Over integer counts: after a run the confidence agrees with the
    reported percentage. *)
Lemma counts_run_confidence (env : Environment)
  (this : DecisionAnalysisApp.t) :
  let final :=
    result getFinalRecommendation
      (resultsAnalyzer (calculateResults env this)) in
  (FinalRecommendation.confidence final = high
   <-> ge (FinalRecommendation.percentage final) 70%float = true)
  /\ (FinalRecommendation.confidence final = low
      <-> le (FinalRecommendation.percentage final) 30%float = true)
  /\ In (FinalRecommendation.percentage final)
       [0; 25; 50; 75; 100]%float.
Proof.
  intros final. subst final.
  pose proof (run_totals env this) as Htotal. cbv zeta in Htotal.
  set (analyzer := resultsAnalyzer (calculateResults env this)) in *.
  destruct (sorted_frequency analyzer)
    as [Hperm [Hnd [Hnds [Hpos [Hsorted Hsum]]]]].
  destruct (counts_below_sum _ Hpos) as [_ Hin].
  pose proof (filter_split_length is_valid (recommendations analyzer))
    as Hsplit.
  destruct (Obj.sort by_count_descending
              (Obj.entries (fold_left tally (recommendations analyzer) [])))
    as [|a rest] eqn:Hsort.
  - destruct (final_of_nothing analyzer Hsort) as [_ Hempty].
    unfold result. rewrite final_on_empty by now rewrite Hempty.
    settle_confidence.
  - unfold result. rewrite (final_on_entries analyzer a rest Hsort).
    assert (Ha : In a (fold_left tally (recommendations analyzer) [])).
    { apply (Permutation_in _ Hperm). now left. }
    pose proof (Hin a Ha) as Hle.
    rewrite Forall_forall in Hpos. pose proof (Hpos a Ha) as Hone.
    cbv zeta. simpl FinalRecommendation.confidence.
    simpl FinalRecommendation.percentage.
    destruct Htotal as [Hn | Hn]; rewrite Hn.
    + assert (Hc : snd a = 1%Z \/ snd a = 2%Z \/ snd a = 3%Z \/ snd a = 4%Z)
        by lia.
      destruct Hc as [-> | [-> | [-> | ->]]]; settle_confidence.
    + assert (Hc : snd a = 1%Z \/ snd a = 2%Z) by lia.
      destruct Hc as [-> | ->]; settle_confidence.
Qed.

End RunCounts.

(* ================================================================== *)
(** * The analyzer on ordinary names *)
(* ================================================================== *)

Section OrdinaryNames.

Import Criteria ResultsAnalyzer Props Terms.

Lemma lookup_lift (o : Obj.object Z) (key : string) :
  Obj.lookup (Counts.lift o) key
  = match Obj.lookup o key with
    | Some c => Some (Obj.Count c)
    | None => None
    end.
Proof.
  induction o as [|[k c] rest IH]; simpl; [reflexivity|].
  now destruct (String.eqb k key).
Qed.

Lemma assign_lift (o : Obj.object Z) (key : string) (v : Z) :
  Obj.assign (Counts.lift o) key (Obj.Count v)
  = Counts.lift (Obj.assign o key v).
Proof.
  induction o as [|[k c] rest IH]; simpl; [reflexivity|].
  destruct (String.eqb k key); simpl; [reflexivity|]. now rewrite IH.
Qed.

Lemma ordinary_key (key : string) :
  Obj.inherited key = false -> String.eqb key "__proto__" = false.
Proof.
  intros Hkey. destruct (String.eqb key "__proto__") eqn:Hproto;
    [|reflexivity].
  apply String.eqb_eq in Hproto. subst key. vm_compute in Hkey.
  discriminate.
Qed.

Lemma tally_lift (o : Obj.object Z) (rec : Recommendation.t) :
  negb (is_valid rec && Obj.inherited (Recommendation.strategy rec)) = true ->
  tally (Counts.lift o) rec = Counts.lift (Counts.tally o rec).
Proof.
  unfold tally, Counts.tally. destruct (is_valid rec); [|reflexivity].
  simpl. intros Hkey. apply negb_true_iff in Hkey.
  unfold Obj.write, Obj.read. rewrite (ordinary_key _ Hkey), lookup_lift.
  destruct (Obj.lookup o (Recommendation.strategy rec)) as [c|]; simpl.
  - now rewrite assign_lift.
  - rewrite Hkey. simpl. now rewrite assign_lift.
Qed.

Lemma frequency_lift (recs : list Recommendation.t) :
  ordinary recs = true ->
  forall o,
    fold_left tally recs (Counts.lift o)
    = Counts.lift (fold_left Counts.tally recs o).
Proof.
  unfold ordinary.
  induction recs as [|rec rest IH]; simpl; intros Hall o; [reflexivity|].
  apply andb_prop in Hall. destruct Hall as [Hrec Hrest].
  rewrite (tally_lift o rec Hrec). now apply IH.
Qed.

Lemma filter_lift (f : string * Obj.value -> bool) (g : string * Z -> bool)
  (l : list (string * Z)) :
  (forall p, f (fst p, Obj.Count (snd p)) = g p) ->
  filter f (Counts.lift l) = Counts.lift (filter g l).
Proof.
  intros Hfg. induction l as [|p rest IH]; simpl; [reflexivity|].
  rewrite Hfg. destruct (g p); simpl; now rewrite IH.
Qed.

Lemma insert_index_lift (p : string * Z) (l : list (string * Z)) :
  Obj.insert_index (fst p, Obj.Count (snd p)) (Counts.lift l)
  = Counts.lift (Obj.insert_index p l).
Proof.
  induction l as [|q rest IH]; simpl; [reflexivity|].
  change (Obj.index_of (fst p, Obj.Count (snd p))) with (Obj.index_of p).
  change (Obj.index_of (fst q, Obj.Count (snd q))) with (Obj.index_of q).
  destruct (Obj.index_of p <=? Obj.index_of q)%N; simpl; [reflexivity|].
  now rewrite IH.
Qed.

Lemma entries_lift (o : Obj.object Z) :
  Obj.entries (Counts.lift o) = Counts.lift (Obj.entries o).
Proof.
  unfold Obj.entries.
  rewrite (filter_lift _ Obj.is_index) by reflexivity.
  rewrite (filter_lift _ (fun p => negb (Obj.is_index p))) by reflexivity.
  unfold Counts.lift at 3. rewrite map_app. f_equal.
  induction (filter Obj.is_index o) as [|p rest IH]; simpl; [reflexivity|].
  rewrite IH. apply insert_index_lift.
Qed.

Lemma sort_insert_lift (x : string * Z) (l : list (string * Z)) :
  Obj.sort_insert by_count_descending (fst x, Obj.Count (snd x))
    (Counts.lift l)
  = Counts.lift (Obj.sort_insert Counts.by_count_descending x l).
Proof.
  induction l as [|y rest IH]; simpl; [reflexivity|].
  change (by_count_descending (fst x, Obj.Count (snd x))
            (fst y, Obj.Count (snd y)))
    with (Counts.by_count_descending x y).
  destruct (0 <? Counts.by_count_descending x y)%Z; simpl; [|reflexivity].
  now rewrite IH.
Qed.

Lemma sort_lift (l : list (string * Z)) :
  Obj.sort by_count_descending (Counts.lift l)
  = Counts.lift (Obj.sort Counts.by_count_descending l).
Proof.
  unfold Obj.sort.
  induction l as [|x rest IH]; simpl; [reflexivity|].
  rewrite IH. apply sort_insert_lift.
Qed.




Lemma frequency_fold (recs : list Recommendation.t) :
  ordinary recs = true ->
  fold_left tally recs []
  = Counts.lift (fold_left Counts.tally recs []).
Proof.
  intros Hord. exact (frequency_lift recs Hord []).
Qed.

(** On ordinary names the frequency object holds integer counts only, the
    ones counted over integers. *)
Lemma frequency_of_counts (this : ResultsAnalyzer.t) :
  ordinary (recommendations this) = true ->
  result getFrequencyAnalysis this
  = Counts.lift (result Counts.getFrequencyAnalysis this).
Proof.
  intros Hord. unfold result. simpl.
  exact (frequency_lift (recommendations this) Hord []).
Qed.


Lemma final_of_counts (this : ResultsAnalyzer.t) :
  ordinary (recommendations this) = true ->
  getFinalRecommendation this
  = (Counts.lift_final (result Counts.getFinalRecommendation this), this).
Proof.
  intros Hord. unfold result, getFinalRecommendation,
    Counts.getFinalRecommendation. simpl.
  rewrite (frequency_fold (recommendations this) Hord).
  rewrite entries_lift. unfold Counts.lift at 1. rewrite length_map.
  destruct (List.length
              (Obj.entries (fold_left Counts.tally (recommendations this) []))
            =? 0)%nat; [reflexivity|].
  rewrite sort_lift.
  destruct (Obj.sort Counts.by_count_descending
              (Obj.entries
                 (fold_left Counts.tally (recommendations this) [])))
    as [|[strategy count] rest]; [reflexivity|].
  assert (Hkeys : forall l : list (string * Z),
             map fst (Counts.lift l) = map fst l).
  { intros l. unfold Counts.lift. rewrite map_map. reflexivity. }
  destruct rest as [|e rest']; [reflexivity|].
  simpl. unfold Counts.lift_final. simpl.
  rewrite (filter_lift _ (fun e => (snd e =? count)%Z)) by reflexivity.
  destruct (count =? count)%Z, (snd e =? count)%Z; simpl;
    rewrite ?Hkeys; reflexivity.
Qed.

Lemma statistics_of_counts (now : string) (this : ResultsAnalyzer.t) :
  ordinary (recommendations this) = true ->
  result (getStatistics now) this
  = Counts.lift_statistics (result (Counts.getStatistics now) this).
Proof.
  intros Hord. unfold result, getStatistics, Counts.getStatistics.
  cbn [mbind ret method_monad this_ fst snd].
  pose proof (final_of_counts this Hord) as Hfinal.
  pose proof (frequency_of_counts this Hord) as Hfrequency.
  unfold result in Hfinal, Hfrequency.
  change (getFrequencyAnalysis this)
    with (fold_left tally (recommendations this) [], this) in *.
  change (Counts.getFrequencyAnalysis this)
    with (fold_left Counts.tally (recommendations this) [], this) in *.
  cbn [fst snd] in *.
  rewrite Hfinal.
  destruct (Counts.getFinalRecommendation this) as [final this'] eqn:Hcounts.
  cbn [fst snd]. unfold Counts.lift_statistics. cbn.
  rewrite Hfrequency. f_equal.
  unfold Obj.keys. rewrite entries_lift. unfold Counts.lift.
  now rewrite !length_map.
Qed.

Lemma final_result_of_counts (this : ResultsAnalyzer.t) :
  ordinary (recommendations this) = true ->
  result getFinalRecommendation this
  = Counts.lift_final (result Counts.getFinalRecommendation this)
  /\ after getFinalRecommendation this = this.
Proof.
  intros Hord. unfold result at 1, after.
  now rewrite (final_of_counts this Hord).
Qed.

Lemma counted_lift (counts : Obj.object Z) (s : string) (c : Z) :
  counted (Counts.lift counts) s c <-> Obj.lookup counts s = Some c.
Proof.
  unfold counted. rewrite lookup_lift.
  destruct (Obj.lookup counts s) as [c'|]; split; intros H;
    try discriminate; congruence.
Qed.


Ltac read_final :=
  unfold Counts.lift_final;
  cbn [fst snd FinalRecommendation.strategy FinalRecommendation.frequency
         FinalRecommendation.total FinalRecommendation.percentage
         FinalRecommendation.confidence FinalRecommendation.hasTie
         FinalRecommendation.alternatives].

(** C3 (amended).  As long as no valid recommendation cites a strategy
    named like a member of [Object.prototype], for a non-empty frequency
    map the winner holds the largest count of the map, [total] is the
    number of all recorded recommendations (undetermined ones included),
    and the reported percentage is [Math.round(winnerCount / total * 100)].
    The confidence is decided on the value before rounding: [high] if it
    is [>= 70], [low] if it is [<= 30], [medium] otherwise; so every
    reported percentage from 31 to 69 comes with [medium]. *)
Theorem final_percentage_and_confidence (this : ResultsAnalyzer.t) :
  ordinary (recommendations this) = true ->
  result getFrequencyAnalysis this <> [] ->
  let frequency := result getFrequencyAnalysis this in
  let final := result getFinalRecommendation this in
  let total := List.length (recommendations this) in
  exists winner winnerCount,
    let exact := (of_Z winnerCount / of_nat total * 100)%float in
    FinalRecommendation.strategy final = Some winner
    /\ FinalRecommendation.frequency final = Obj.Count winnerCount
    /\ counted frequency winner winnerCount
    /\ (forall s c, counted frequency s c -> (c <= winnerCount)%Z)
    /\ FinalRecommendation.total final = total
    /\ FinalRecommendation.percentage final = Math_round exact
    /\ FinalRecommendation.confidence final
       = (if ge exact 70%float then high
          else if le exact 30%float then low else medium)
    /\ (ge (FinalRecommendation.percentage final) 31%float = true ->
        le (FinalRecommendation.percentage final) 69%float = true ->
        FinalRecommendation.confidence final = medium).
Proof.
  intros Hord Hne. cbv zeta.
  pose proof (frequency_of_counts this Hord) as Hfrequency.
  destruct (final_result_of_counts this Hord) as [Hfinal _].
  assert (Hne' : result Counts.getFrequencyAnalysis this <> []).
  { intros Hempty. apply Hne. now rewrite Hfrequency, Hempty. }
  pose proof (counts_percentage_and_confidence this Hne') as Hcounts.
  cbv zeta in Hcounts.
  destruct Hcounts
    as [[winner [Hwinner Hheld]] [Hmax [Htotal [Hpercentage [Hconf Hband]]]]].
  exists winner,
    (Counts.FinalRecommendation.frequency
       (result Counts.getFinalRecommendation this)).
  rewrite Hfrequency, Hfinal. read_final.
  split; [exact Hwinner|]. split; [reflexivity|].
  split; [now apply counted_lift|].
  split; [intros s c Hs; apply (Hmax s c); now apply counted_lift|].
  split; [exact Htotal|]. split; [exact Hpercentage|].
  split; [exact Hconf | exact Hband].
Qed.

Lemma final_percentage_and_confidence_witness :
  FinalRecommendation.percentage
    (result getFinalRecommendation Examples.three_of_4) = 75%float
  /\ FinalRecommendation.confidence
       (result getFinalRecommendation Examples.three_of_4) = high.
Proof.
  destruct (final_percentage_and_confidence Examples.three_of_4)
    as [winner [winnerCount
          [_ [Hcount [_ [_ [_ [Hpercentage [Hconfidence _]]]]]]]]].
  - vm_compute. reflexivity.
  - vm_compute. discriminate.
  - assert (Hthree : winnerCount = 3%Z).
    { vm_compute in Hcount. now injection Hcount as <-. }
    subst winnerCount. split.
    + rewrite Hpercentage. vm_compute. reflexivity.
    + rewrite Hconfidence. vm_compute. reflexivity.
Defined.

(** C3 as stated fails: with sixteen recommendations out of twenty-three
    for the winner the reported percentage is 70, which is [>= 70], and
    the confidence is [medium]. *)
Lemma reported_70_is_medium :
  result getFrequencyAnalysis Examples.sixteen_of_23
  = [("Регион A"%string, Obj.Count 16); ("Регион B"%string, Obj.Count 7)]
  /\ FinalRecommendation.percentage
       (result getFinalRecommendation Examples.sixteen_of_23) = 70%float
  /\ ge (FinalRecommendation.percentage
           (result getFinalRecommendation Examples.sixteen_of_23))
       70%float = true
  /\ FinalRecommendation.confidence
       (result getFinalRecommendation Examples.sixteen_of_23) = medium.
Proof. repeat split; vm_compute; reflexivity. Qed.







Lemma nothing_valid_nothing_counted (recs : list Recommendation.t) :
  (forall rec, In rec recs -> is_valid rec = false) ->
  fold_left tally recs [] = [].
Proof.
  induction recs as [|rec rest IH]; intros Hall; simpl; [reflexivity|].
  unfold tally at 2. rewrite (Hall rec (or_introl eq_refl)).
  apply IH. intros r Hr. apply Hall. now right.
Qed.

(** C10.  When every recorded recommendation is undetermined,
    [hasConflicts()] returns [false]; so it does on a new analyzer and
    after [clear()], where nothing is recorded. *)
Theorem no_conflict_without_valid (this : ResultsAnalyzer.t) :
  (forall rec, In rec (recommendations this) ->
               Recommendation.strategy rec = undetermined) ->
  result hasConflicts this = false
  /\ result hasConflicts ResultsAnalyzer.new = false
  /\ result hasConflicts (after clear this) = false.
Proof.
  intros Hall. repeat split; try reflexivity.
  unfold result, hasConflicts. simpl.
  rewrite nothing_valid_nothing_counted; [reflexivity|].
  intros rec Hrec. apply undetermined_is_invalid. now apply Hall.
Qed.

Lemma no_conflict_without_valid_witness :
  result hasConflicts Examples.all_undetermined = false
  /\ result hasConflicts ResultsAnalyzer.new = false
  /\ result hasConflicts (after clear Examples.all_undetermined) = false.
Proof.
  apply (no_conflict_without_valid Examples.all_undetermined).
  intros rec Hrec. simpl in Hrec.
  repeat (destruct Hrec as [<- | Hrec]; [reflexivity|]).
  destruct Hrec.
Defined.

(** X11.  As long as no valid recommendation cites a strategy named like
    a member of [Object.prototype], the count [getFrequencyAnalysis]
    reports for a strategy is the number of valid recommendations that cite
    it, and a strategy no valid recommendation cites has no entry. *)
Theorem frequency_counts_citations (this : ResultsAnalyzer.t) (s : string) :
  ordinary (recommendations this) = true ->
  Obj.lookup (result getFrequencyAnalysis this) s
  = if (citations s (recommendations this) =? 0)%nat then None
    else Some (Obj.Count (Z.of_nat (citations s (recommendations this)))).
Proof.
  intros Hord. rewrite (frequency_of_counts this Hord), lookup_lift.
  rewrite (counts_citations this s).
  now destruct (citations s (recommendations this) =? 0)%nat.
Qed.

Lemma frequency_counts_citations_witness :
  Obj.lookup (result getFrequencyAnalysis Examples.three_of_4) "Регион A"
  = Some (Obj.Count 3).
Proof.
  rewrite (frequency_counts_citations Examples.three_of_4 "Регион A").
  - vm_compute. reflexivity.
  - vm_compute. reflexivity.
Defined.

(** X12.  As long as no valid recommendation cites a strategy named like
    a member of [Object.prototype]: when a final recommendation names a
    strategy, [hasTie] is true exactly when [alternatives] lists two
    strategies or more; the list then starts with the recommended strategy,
    has no repetition, and holds strategies whose count is the winning
    count.  Without a tie the list is empty. *)
Theorem tie_lists_the_leaders (this : ResultsAnalyzer.t) (s : string) :
  ordinary (recommendations this) = true ->
  let final := result getFinalRecommendation this in
  FinalRecommendation.strategy final = Some s ->
  exists tie leaders,
    FinalRecommendation.hasTie final = Some tie
    /\ FinalRecommendation.alternatives final = Some leaders
    /\ (tie = true <-> 2 <= List.length leaders)
    /\ (tie = false -> leaders = [])
    /\ (tie = true -> hd_error leaders = Some s)
    /\ NoDup leaders
    /\ (forall leader, In leader leaders ->
          Obj.lookup (result getFrequencyAnalysis this) leader
          = Some (FinalRecommendation.frequency final)).
Proof.
  intros Hord. cbv zeta.
  destruct (final_result_of_counts this Hord) as [Hfinal _].
  rewrite Hfinal, (frequency_of_counts this Hord). read_final.
  intros Hs.
  pose proof (counts_tie_lists_the_leaders this s) as Hcounts.
  cbv zeta in Hcounts.
  destruct (Hcounts Hs)
    as [tie [leaders [Htie [Hleaders [Hiff [Hnone [Hhead [Hnd Hheld]]]]]]]].
  exists tie, leaders.
  split; [exact Htie|]. split; [exact Hleaders|]. split; [exact Hiff|].
  split; [exact Hnone|]. split; [exact Hhead|]. split; [exact Hnd|].
  intros leader Hin. rewrite lookup_lift. now rewrite (Hheld leader Hin).
Qed.

Lemma tie_lists_the_leaders_witness :
  exists tie leaders,
    FinalRecommendation.hasTie
      (result getFinalRecommendation Examples.two_two) = Some tie
    /\ FinalRecommendation.alternatives
         (result getFinalRecommendation Examples.two_two) = Some leaders
    /\ (tie = true <-> 2 <= List.length leaders).
Proof.
  destruct (tie_lists_the_leaders Examples.two_two "Регион A")
    as [tie [leaders [Htie [Hleaders [Hiff _]]]]].
  - vm_compute. reflexivity.
  - vm_compute. reflexivity.
  - exists tie, leaders. split; [exact Htie|]. split; [exact Hleaders|].
    exact Hiff.
Defined.

(** X13.  As long as no valid recommendation cites a strategy named like
    a member of [Object.prototype], the strategy of the final
    recommendation holds the largest count of the frequency map, and among
    the strategies that hold it, it is the first in the order of
    [Object.entries]: every entry before it has a strictly smaller
    count. *)
Theorem winner_is_first_leader (this : ResultsAnalyzer.t) (s : string) :
  ordinary (recommendations this) = true ->
  let final := result getFinalRecommendation this in
  let frequency := result getFrequencyAnalysis this in
  FinalRecommendation.strategy final = Some s ->
  exists count before behind,
    FinalRecommendation.frequency final = Obj.Count count
    /\ Obj.entries frequency
       = Counts.lift before ++ (s, Obj.Count count) :: Counts.lift behind
    /\ Forall (fun e => (snd e < count)%Z) before
    /\ Forall (fun e => (snd e <= count)%Z) behind.
Proof.
  intros Hord. cbv zeta.
  destruct (final_result_of_counts this Hord) as [Hfinal _].
  rewrite Hfinal, (frequency_of_counts this Hord). read_final.
  intros Hs.
  pose proof (counts_winner_is_first_leader this s) as Hcounts.
  cbv zeta in Hcounts.
  destruct (Hcounts Hs) as [before [behind [Hentries [Hbefore Hbehind]]]].
  exists (Counts.FinalRecommendation.frequency
            (result Counts.getFinalRecommendation this)), before, behind.
  split; [reflexivity|]. split; [|now split].
  rewrite entries_lift, Hentries. unfold Counts.lift.
  now rewrite map_app.
Qed.

Lemma winner_is_first_leader_witness :
  exists count before behind,
    FinalRecommendation.frequency
      (result getFinalRecommendation Examples.two_two) = Obj.Count count
    /\ Obj.entries (result getFrequencyAnalysis Examples.two_two)
       = Counts.lift before
         ++ ("Регион A"%string, Obj.Count count) :: Counts.lift behind
    /\ Forall (fun e => (snd e < count)%Z) before
    /\ Forall (fun e => (snd e <= count)%Z) behind.
Proof.
  apply (winner_is_first_leader Examples.two_two "Регион A").
  - vm_compute. reflexivity.
  - vm_compute. reflexivity.
Defined.

(** X14.  As long as no valid recommendation cites a strategy named like
    a member of [Object.prototype], the numbers of [getStatistics] are
    consistent: the distinct strategies are at most as many as the valid
    recommendations, which are at most as many as all recommendations; the
    most frequent strategy is absent exactly when no recommendation is
    valid, and otherwise its count is at least 1 and at most the number of
    valid recommendations. *)
Theorem statistics_are_consistent (now : string) (this : ResultsAnalyzer.t) :
  ordinary (recommendations this) = true ->
  let statistics := result (getStatistics now) this in
  let most := Statistics.mostFrequent statistics in
  most = result getFinalRecommendation this
  /\ Statistics.uniqueStrategies statistics
     <= Statistics.validRecommendations statistics
     <= Statistics.totalCriteria statistics
  /\ FinalRecommendation.total most = Statistics.totalCriteria statistics
  /\ (FinalRecommendation.strategy most = None
      <-> Statistics.validRecommendations statistics = 0)
  /\ (FinalRecommendation.strategy most = None
      -> FinalRecommendation.frequency most = Obj.Count 0)
  /\ (FinalRecommendation.strategy most <> None
      -> exists count,
           FinalRecommendation.frequency most = Obj.Count count
           /\ (1 <= count
               <= Z.of_nat (Statistics.validRecommendations statistics))%Z).
Proof.
  intros Hord. cbv zeta.
  destruct (final_result_of_counts this Hord) as [Hfinal _].
  rewrite (statistics_of_counts now this Hord), Hfinal.
  pose proof (counts_statistics_are_consistent now this) as Hcounts.
  cbv zeta in Hcounts.
  destruct Hcounts as [Hmost [Horder [Htotal [Hnone [Hzero Hsome]]]]].
  unfold Counts.lift_statistics.
  cbn [Statistics.mostFrequent Statistics.uniqueStrategies
         Statistics.validRecommendations Statistics.totalCriteria].
  read_final.
  split; [now rewrite Hmost|]. split; [exact Horder|].
  split; [exact Htotal|]. split; [exact Hnone|].
  split; [intros Habsent; now rewrite (Hzero Habsent)|].
  intros Hpresent. eexists. split; [reflexivity|]. now apply Hsome.
Qed.

Lemma statistics_are_consistent_witness :
  Statistics.uniqueStrategies
    (result (getStatistics "2026-01-01T00:00:01.000Z") Examples.two_two)
  <= Statistics.validRecommendations
       (result (getStatistics "2026-01-01T00:00:01.000Z") Examples.two_two)
  <= Statistics.totalCriteria
       (result (getStatistics "2026-01-01T00:00:01.000Z") Examples.two_two).
Proof.
  destruct (statistics_are_consistent "2026-01-01T00:00:01.000Z"
              Examples.two_two) as [_ [Horder _]].
  - vm_compute. reflexivity.
  - exact Horder.
Defined.

End OrdinaryNames.

(* ================================================================== *)
(** * The final recommendation of a run *)
(* ================================================================== *)

Section RunFinal.

Import DecisionMatrix Criteria ResultsAnalyzer Props Terms.
Import DecisionAnalysisApp.

Lemma recorded_from_matrix (env : Environment) (matrix : DecisionMatrix.t)
  (config : Config) (rec : Recommendation.t) :
  records env matrix config rec ->
  Recommendation.strategy rec = undetermined
  \/ In (Recommendation.strategy rec) (strategies matrix).
Proof.
  intros [_ Hrec]. unfold outcome in Hrec.
  destruct (createCriterion (type config) (params config)) as [criterion|e];
    simpl in Hrec; [|left; tauto].
  destruct (calculate criterion matrix) as [r|e] eqn:Hrun; simpl in Hrec;
    [|left; tauto].
  destruct Hrec as [_ [-> _]].
  destruct (calculate_shape criterion matrix r Hrun) as [_ [_ ->]].
  unfold or_undetermined, get.
  destruct (optimalIndex r <? 0)%Z; [now left|].
  destruct (nth_error (strategies matrix) (Z.to_nat (optimalIndex r)))
    as [name|] eqn:Hname; [|now left].
  destruct (truthy_string name); [|now left].
  right. now apply nth_error_In in Hname.
Qed.

(** A run over a matrix whose strategies have ordinary names leaves an
    analyzer whose valid recommendations cite ordinary names. *)
Lemma run_is_ordinary (env : Environment) (this : DecisionAnalysisApp.t) :
  Forall (fun name => Obj.inherited name = false)
    (strategies (matrix this)) ->
  ordinary (recommendations (resultsAnalyzer (calculateResults env this)))
  = true.
Proof.
  intros Hnames.
  destruct (calculateResults_state env this) as [recs [-> [Hall _]]].
  simpl. unfold ordinary. apply forallb_forall. intros rec Hrec.
  destruct (recorded_by_some_config _ _ _ _ _ Hall Hrec) as [config Hconfig].
  destruct (recorded_from_matrix env _ config rec Hconfig) as [Hnone | Hin].
  - now rewrite (undetermined_is_invalid rec Hnone).
  - rewrite Forall_forall in Hnames. rewrite (Hnames _ Hin).
    now rewrite andb_false_r.
Qed.

Lemma generated_names_are_ordinary (n : nat) :
  Forall (fun name => Obj.inherited name = false)
    (map MatrixEditing.strategy_name (seq 0 n)).
Proof.
  apply Forall_forall. intros name Hname. apply in_map_iff in Hname.
  destruct Hname as [k [<- _]]. reflexivity.
Qed.

(** X18.  After a run of the application over a matrix none of whose
    strategies is named like a member of [Object.prototype], as is the case
    of the generated names, the final recommendation is coherent with its
    own numbers: its confidence is high exactly when the percentage it
    reports is at least 70 and low exactly when that percentage is at most
    30, and the percentage is one of 0, 25, 50, 75 and 100. *)
Theorem run_confidence_matches_percentage (env : Environment)
  (this : DecisionAnalysisApp.t) :
  Forall (fun name => Obj.inherited name = false)
    (strategies (matrix this)) ->
  let final :=
    result getFinalRecommendation
      (resultsAnalyzer (calculateResults env this)) in
  (FinalRecommendation.confidence final = high
   <-> ge (FinalRecommendation.percentage final) 70%float = true)
  /\ (FinalRecommendation.confidence final = low
      <-> le (FinalRecommendation.percentage final) 30%float = true)
  /\ In (FinalRecommendation.percentage final)
       [0; 25; 50; 75; 100]%float.
Proof.
  intros Hnames. cbv zeta.
  destruct (final_result_of_counts _ (run_is_ordinary env this Hnames))
    as [-> _].
  unfold Counts.lift_final.
  cbn [FinalRecommendation.confidence FinalRecommendation.percentage].
  exact (counts_run_confidence env this).
Qed.

Lemma run_confidence_matches_percentage_witness :
  In (FinalRecommendation.percentage
        (result getFinalRecommendation
           (resultsAnalyzer
              (calculateResults Sessions.environment Sessions.at_risk))))
    [0; 25; 50; 75; 100]%float.
Proof.
  destruct (run_confidence_matches_percentage Sessions.environment
              Sessions.at_risk) as [_ [_ Hlisted]].
  - exact (generated_names_are_ordinary 4).
  - exact Hlisted.
Defined.

End RunFinal.
